(** * pgmount: device records, mount-directory naming, the daemon's
      poll/mount/unmount state machine and its event hooks.

    A shallow embedding of [device/device.go], [config/config.go] and
    [daemon/daemon.go], and of the parts of the tray and of the command-line
    tools that call them. Go strings are byte sequences and are modelled by
    [string]; Go maps by stdpp's [gmap]; pointers to device records by
    locations in a heap; a run-time panic by the [Panic] outcome; an
    [error] by [option string], [None] being [nil]. What the daemon does to
    the outside is kept in a trace, and what the outside answers is a
    function of that trace.

    The first part holds the program, the second its properties. *)

From Stdlib Require Import ZArith Ascii String List.
From stdpp Require Import base gmap strings list fin_maps pretty.

Local Open Scope string_scope.
Local Open Scope list_scope.

(** ** Outcomes of Go computations that may panic *)

Inductive Outcome (A : Type) : Type :=
| Ret (a : A)
| Panic (msg : string).
Arguments Ret {A} a.
Arguments Panic {A} msg.

(** ** The parts of Go's [strings] package the program uses *)

Module strings.

(** [strings.HasPrefix]. *)
Fixpoint HasPrefix (s pre : string) : bool :=
  match pre, s with
  | EmptyString, _ => true
  | String c pre', String d s' => if Ascii.eqb c d then HasPrefix s' pre' else false
  | String _ _, EmptyString => false
  end.

(** The scan behind [strings.ReplaceAll] for a non-empty [old]: matches are
    taken left to right and do not overlap; [skip] counts the bytes of the
    current match that remain to be dropped. *)
Fixpoint replace_from (old new : string) (skip : nat) (s : string) : string :=
  match s with
  | EmptyString => EmptyString
  | String c s' =>
      match skip with
      | S k => replace_from old new k s'
      | O =>
          if HasPrefix s old
          then new +:+ replace_from old new (String.length old - 1) s'
          else String c (replace_from old new 0 s')
      end
  end.

(** For an empty [old] Go inserts [new] before every character and at the
    end (character by character; the program never calls it so). *)
Fixpoint intersperse_all (new s : string) : string :=
  match s with
  | EmptyString => new
  | String c s' => new +:+ String c (intersperse_all new s')
  end.

(** [strings.ReplaceAll]. *)
Definition ReplaceAll (s old new : string) : string :=
  match old with
  | EmptyString => intersperse_all new s
  | String _ _ => replace_from old new 0 s
  end.

(** [strings.Join]. *)
Fixpoint Join (elems : list string) (sep : string) : string :=
  match elems with
  | [] => ""
  | [e] => e
  | e :: rest => e +:+ sep +:+ Join rest sep
  end.

(** Splitting at every occurrence of one separator byte ([strings.Split]
    with a one-byte separator); [cur] is the piece being read. *)
Fixpoint split_on (sep : ascii) (cur : string) (s : string) : list string :=
  match s with
  | EmptyString => [cur]
  | String c s' =>
      if Ascii.eqb c sep then cur :: split_on sep "" s'
      else split_on sep (cur +:+ String c "") s'
  end.

(** Does the byte [c] occur in [s]? ([strings.ContainsRune] on a byte.) *)
Fixpoint ContainsByte (s : string) (c : ascii) : bool :=
  match s with
  | EmptyString => false
  | String d s' => if Ascii.eqb c d then true else ContainsByte s' c
  end.

(** [strings.Contains]. *)
Fixpoint Contains (s sub : string) : bool :=
  if HasPrefix s sub then true
  else match s with
       | EmptyString => false
       | String _ s' => Contains s' sub
       end.

End strings.

(** ** [path/filepath] on a Unix host *)

Module filepath.

(** One step of the lexical clean-up of [filepath.Clean]: [stack] holds the
    elements kept so far, innermost first. *)
Definition clean_step (rooted : bool) (stack : list string) (elem : string)
  : list string :=
  if String.eqb elem "" then stack
  else if String.eqb elem "." then stack
  else if String.eqb elem ".." then
    match stack with
    | top :: below =>
        if String.eqb top ".." then elem :: stack else below
    | [] => if rooted then [] else [elem]
    end
  else elem :: stack.

(** [filepath.Clean]: multiple separators collapse, [.] elements vanish,
    an inner [..] removes the element before it, a [..] at the start of a
    rooted path vanishes, and the empty result is [.]. *)
Definition Clean (path : string) : string :=
  let rooted := strings.HasPrefix path "/" in
  let kept := rev (fold_left (clean_step rooted) (strings.split_on "/" "" path) []) in
  let body := strings.Join kept "/" in
  if rooted then "/" +:+ body
  else if String.eqb body "" then "." else body.

(** [filepath.Join]: empty elements before the first non-empty one are
    ignored, the rest is joined with the separator and cleaned; with
    nothing but empty elements the result is empty. *)
Fixpoint Join (elem : list string) : string :=
  match elem with
  | [] => ""
  | e :: rest =>
      if negb (String.eqb e "") then Clean (strings.Join elem "/")
      else Join rest
  end.

End filepath.

(** ** Device records ([device.Device]) *)

Record Device : Type := mkDevice {
  Name : string;
  Path : string;
  Label : string;
  UUID : string;
  FSType : string;
  Size : Z;
  MountPoint : string;
  IsMounted : bool;
  IsEncrypted : bool;
  IsUnlocked : bool;
  IsPartition : bool;
  IsRemovable : bool;
  PartitionNum : Z
}.

(** The zero value of the struct, with a name. *)
Definition zeroDevice : Device :=
  mkDevice "" "" "" "" "" 0 "" false false false false false 0.

(** The slice expression [s[:n]] on a string: a run-time panic when [n]
    exceeds the length. *)
Fixpoint take_bytes (n : nat) (s : string) : string :=
  match n, s with
  | O, _ => ""
  | S k, String c s' => String c (take_bytes k s')
  | S _, EmptyString => ""
  end.

Definition slice_to (s : string) (n : nat) : Outcome string :=
  if Nat.leb n (String.length s) then Ret (take_bytes n s)
  else Panic ("runtime error: slice bounds out of range [:" +:+ pretty n
              +:+ "] with length " +:+ pretty (String.length s)).

(** [func (d *Device) GetDisplayName() string] *)
Definition GetDisplayName (d : Device) : Outcome string :=
  if negb (String.eqb (Label d) "") then Ret (Label d)
  else if negb (String.eqb (UUID d) "") then
    match slice_to (UUID d) 8 with
    | Ret p => Ret (p +:+ "...")
    | Panic m => Panic m
    end
  else Ret (Name d).

(** The two replacements of [GetMountDirectory]. *)
Definition sanitize (name : string) : string :=
  strings.ReplaceAll (strings.ReplaceAll name "/" "_") " " "_".

(** [func (d *Device) GetMountDirectory(base string) string] *)
Definition GetMountDirectory (d : Device) (base : string) : Outcome string :=
  match GetDisplayName d with
  | Ret name => Ret (filepath.Join [base; sanitize name])
  | Panic m => Panic m
  end.


(** ** More of Go's library: white space, unsigned numbers *)

Module gostd.

Definition byte_of (n : nat) : ascii := ascii_of_nat n.

(** The UTF-8 encodings of the characters for which [unicode.IsSpace]
    holds: tab, line feed, vertical tab, form feed, carriage return,
    space, U+0085, U+00A0, U+1680, U+2000 to U+200A, U+2028, U+2029,
    U+202F, U+205F and U+3000. *)
Definition enc (bytes : list nat) : string :=
  string_of_list_ascii (map byte_of bytes).

Definition space_runes : list string :=
  map enc
    ([[9]; [10]; [11]; [12]; [13]; [32]; [194; 133]; [194; 160];
      [225; 154; 128]]
     ++ map (fun k => [226; 128; 128 + k]) (seq 0 11)
     ++ [[226; 128; 168]; [226; 128; 169]; [226; 128; 175];
         [226; 129; 159]; [227; 128; 128]]).

Fixpoint drop_bytes (n : nat) (s : string) : string :=
  match n, s with
  | O, _ => s
  | S k, String _ s' => drop_bytes k s'
  | S _, EmptyString => EmptyString
  end.

(** Length in bytes of the white-space character that starts [s], if one
    of [runes] does. *)
Definition leading_space (runes : list string) (s : string) : option nat :=
  match filter (fun r => strings.HasPrefix s r = true) runes with
  | r :: _ => Some (String.length r)
  | [] => None
  end.

Fixpoint trim_left (runes : list string) (fuel : nat) (s : string) : string :=
  match fuel with
  | O => s
  | S k =>
      match leading_space runes s with
      | Some n => trim_left runes k (drop_bytes n s)
      | None => s
      end
  end.

Definition rev_string (s : string) : string :=
  string_of_list_ascii (rev (list_ascii_of_string s)).

(** [strings.TrimSpace]: leading and trailing white space removed. *)
Definition TrimSpace (s : string) : string :=
  let s1 := trim_left space_runes (String.length s) s in
  rev_string
    (trim_left (map rev_string space_runes) (String.length s1) (rev_string s1)).

Definition digit_of (c : ascii) : option Z :=
  let n := Z.of_nat (nat_of_ascii c) in
  if (48 <=? n)%Z && (n <=? 57)%Z then Some (n - 48)%Z else None.

Fixpoint parse_digits (acc : Z) (s : string) : option Z :=
  match s with
  | EmptyString => Some acc
  | String c s' =>
      match digit_of c with
      | Some d => parse_digits (acc * 10 + d)%Z s'
      | None => None
      end
  end.

(** [strconv.ParseUint(s, 10, 64)]: decimal digits only, not empty, and a
    value that fits 64 bits; anything else is an error. *)
Definition ParseUint64 (s : string) : option Z :=
  match s with
  | EmptyString => None
  | _ => match parse_digits 0 s with
         | Some v => if (v <? 2 ^ 64)%Z then Some v else None
         | None => None
         end
  end.

(** Multiplication of [uint64] values wraps around. *)
Definition mul64 (a b : Z) : Z := ((a * b) mod 2 ^ 64)%Z.

End gostd.

(** ** Configuration ([config.Config]) *)

(** A [float64] setting, kept by the two observations the daemon makes of
    one: the test [x > 0] and the conversion [int(x*1000)]. *)
Record float64 : Type := mkFloat {
  f64_positive : bool;
  f64_millis : Z
}.

(** Fields that share a name with another field or with an event of the
    poll loop carry a trailing underscore. *)
Record NotificationConfig : Type := mkNotificationConfig {
  Enabled : bool;
  Timeout : float64;
  DeviceMounted : float64;
  DeviceUnmounted : float64;
  DeviceAdded_ : float64;
  DeviceRemoved_ : float64;
  DeviceUnlocked : float64;
  DeviceLocked : float64;
  JobFailed : float64
}.

Record DeviceConfig : Type := mkDeviceConfig {
  IDLabel : string;
  IDUUID : string;
  DevicePath : string;
  Ignore : bool;
  Automount_ : option bool;
  Options : list string
}.

Record GELIConfig : Type := mkGELIConfig {
  GELI_Enabled : bool;
  PasswordCmd : string;
  CacheTimeout : Z;
  KeyFiles : gmap string string
}.

Record Config : Type := mkConfig {
  Automount : bool;
  MountBase : string;
  FileManager : string;
  Notifications : NotificationConfig;
  Devices : list DeviceConfig;
  EventHooks : gmap string string;
  MountOptions_Default : gmap string (list string);
  GELI : GELIConfig
}.

(** [func (c *Config) GetDeviceConfig(label, uuid, path string) *DeviceConfig] *)
Fixpoint GetDeviceConfig_in (devs : list DeviceConfig) (label uuid path : string)
  : option DeviceConfig :=
  match devs with
  | [] => None
  | dev :: rest =>
      if negb (String.eqb (IDLabel dev) "") && String.eqb (IDLabel dev) label then Some dev
      else if negb (String.eqb (IDUUID dev) "") && String.eqb (IDUUID dev) uuid then Some dev
      else if negb (String.eqb (DevicePath dev) "") && String.eqb (DevicePath dev) path then Some dev
      else GetDeviceConfig_in rest label uuid path
  end.

Definition GetDeviceConfig (c : Config) (label uuid path : string) : option DeviceConfig :=
  GetDeviceConfig_in (Devices c) label uuid path.

(** [func (c *Config) ShouldIgnoreDevice(label, uuid, path string) bool] *)
Definition ShouldIgnoreDevice (c : Config) (label uuid path : string) : bool :=
  match GetDeviceConfig c label uuid path with
  | Some devCfg => Ignore devCfg
  | None => false
  end.

(** [func (c *Config) ShouldAutomountDevice(label, uuid, path string) bool] *)
Definition ShouldAutomountDevice (c : Config) (label uuid path : string) : bool :=
  match GetDeviceConfig c label uuid path with
  | Some devCfg =>
      match Automount_ devCfg with
      | Some b => b
      | None => Automount c
      end
  | None => Automount c
  end.

(** [func (c *Config) GetMountOptions(fstype string, label, uuid, path string) []string] *)
Definition GetMountOptions (c : Config) (fstype label uuid path : string) : list string :=
  let by_type :=
    match MountOptions_Default c !! fstype with
    | Some opts => opts
    | None => []
    end in
  match GetDeviceConfig c label uuid path with
  | Some devCfg =>
      if Nat.ltb 0 (length (Options devCfg)) then Options devCfg else by_type
  | None => by_type
  end.

(** ** The poll-diff loop ([pollDevices]) *)

(** The two loops of a tick with the handlers left aside: a call of a
    handler is kept as an event, so that the folds below say which calls
    are due, and in which order, and what the loop remembers when every
    call returns. The tick that runs the handlers, and ends where one of
    them panics, is [pollDevices_tick] further down. *)

Module Poll.

(** A call of [d.onDeviceAdded(dev)] or [d.onDeviceRemoved(path)] that is
    due, in the order in which the loop comes to it. *)
Inductive Event : Type :=
| DeviceAdded (dev : Device)
| DeviceRemoved (path : string).

(** Reading [m[k]] from a [map[string]bool]: a missing key reads [false]. *)
Definition get (m : gmap string bool) (k : string) : bool :=
  default false (m !! k).

(** The body of [for _, dev := range devices]. *)
Definition addStep (st : gmap string bool * gmap string bool * list Event)
           (dev : Device) : gmap string bool * gmap string bool * list Event :=
  let '(knownDevices, currentDevices, events) := st in
  let currentDevices := <[Path dev := true]> currentDevices in
  if negb (get knownDevices (Path dev))
  then (<[Path dev := true]> knownDevices, currentDevices, events ++ [DeviceAdded dev])
  else (knownDevices, currentDevices, events).

(** The body of [for path := range knownDevices]. *)
Definition removeStep (currentDevices : gmap string bool)
           (st : gmap string bool * list Event) (path : string)
  : gmap string bool * list Event :=
  let '(knownDevices, events) := st in
  if negb (get currentDevices path)
  then (delete path knownDevices, events ++ [DeviceRemoved path])
  else (knownDevices, events).

Definition addLoop (knownDevices : gmap string bool) (devices : list Device)
  : gmap string bool * gmap string bool * list Event :=
  fold_left addStep devices (knownDevices, ∅, []).

(** Go visits the keys of a map in an order it does not specify, each key
    once (the loop deletes only the key it is visiting): [order] is one
    such order for [m]. *)
Definition range_order (m : gmap string bool) (order : list string) : Prop :=
  order ≡ₚ (map_to_list m).*1.

(** One tick whose scan succeeded with [devices], the second loop visiting
    the keys in [order]: the calls made and the new [knownDevices]. *)
Definition tick (knownDevices : gmap string bool) (devices : list Device)
           (order : list string) : gmap string bool * list Event :=
  let '(known1, currentDevices, events) := addLoop knownDevices devices in
  fold_left (removeStep currentDevices) order (known1, events).

(** The map the second loop ranges over. *)
Definition known_after_add (knownDevices : gmap string bool) (devices : list Device)
  : gmap string bool :=
  (addLoop knownDevices devices).1.1.

(** One tick of [pollDevices]: a failed scan is logged and skipped. *)
Definition pollTick (knownDevices : gmap string bool)
           (scan : list Device * option string) (order : list string)
  : gmap string bool * list Event :=
  match scan.2 with
  | Some _ => (knownDevices, [])
  | None => tick knownDevices scan.1 order
  end.

(** The ticks the program can make: any visiting order Go may choose. *)
Definition tick_rel (knownDevices : gmap string bool) (devices : list Device)
           (res : gmap string bool * list Event) : Prop :=
  ∃ order, range_order (known_after_add knownDevices devices) order
           ∧ res = tick knownDevices devices order.

(** Every value the loop ever stores is [true]. *)
Definition all_true (m : gmap string bool) : Prop :=
  ∀ k b, m !! k = Some b → b = true.

Definition added_paths (events : list Event) : list string :=
  omap (fun e => match e with DeviceAdded d => Some (Path d) | _ => None end) events.

Definition removed_paths (events : list Event) : list string :=
  omap (fun e => match e with DeviceRemoved p => Some p | _ => None end) events.

End Poll.

(** ** The host the daemon runs on *)

(** An external command: [exec.Command(name, args...)] and what is fed to
    its standard input. *)
Record Cmd : Type := mkCmd {
  cmd_name : string;
  cmd_args : list string;
  cmd_stdin : option string
}.

(** What [cmd.CombinedOutput()] or [cmd.Output()] returns: the output and
    the error ([None] is Go's [nil]). *)
Record ExecResult : Type := mkExecResult {
  output : string;
  exec_err : option string
}.

(** What the daemon does to the outside, in the order it does it. *)
Inductive Action : Type :=
| ALog (msg : string)                           (* log.Printf *)
| APrint (msg : string)                         (* fmt.Printf *)
| ANotify (title body : string) (timeout : Z)   (* notify.Send *)
| AExec (c : Cmd) (r : ExecResult)              (* a command run to its end *)
| AGo (c : Cmd)                                 (* a command started and not waited for *)
| AMkdirAll (path : string) (err : option string)
| ARemove (path : string) (err : option string)
| AReadLine (line : string) (err : option string)
| AScan (devices : list Device) (err : option string).

(** The answers of the outside world, each a function of everything that
    happened before. *)
Record Host : Type := mkHost {
  host_exec : list Action → Cmd → ExecResult;
  host_readline : list Action → string * option string;
  host_scan : list Action → list Device * option string
}.

(** ** Discovery ([device.Manager.Scan]) *)

Module Discovery.

(** What a scan asks of the operating system. *)
Record Env : Type := mkEnv {
  GOOS : string;                                   (* runtime.GOOS *)
  Output : Cmd → ExecResult;                       (* cmd.Output() *)
  ReadDir : string → list string * option string;  (* names of os.ReadDir *)
  ReadFile : string → string * option string       (* os.ReadFile *)
}.

(** The procedures that read one tool's output. The way [Scan] treats a
    failing tool does not depend on what they compute, and they are kept
    as they are called. *)
Record Parsers : Type := mkParsers {
  parseGeomDiskList : string → list Device;
  isRemovableDevice : string → bool;
  getPartitions : string → list Device * option string;
  parseLsblkJSON : string → list Device;
  findLinuxPartitions : string → list Device
}.

Definition set_IsRemovable (b : bool) (d : Device) : Device :=
  mkDevice (Name d) (Path d) (Label d) (UUID d) (FSType d) (Size d) (MountPoint d)
           (IsMounted d) (IsEncrypted d) (IsUnlocked d) (IsPartition d) b (PartitionNum d).

Definition set_Size (n : Z) (d : Device) : Device :=
  mkDevice (Name d) (Path d) (Label d) (UUID d) (FSType d) n (MountPoint d)
           (IsMounted d) (IsEncrypted d) (IsUnlocked d) (IsPartition d)
           (IsRemovable d) (PartitionNum d).

Section Scan.

Variable env : Env.
Variable m : Parsers.

(** The body of the loop of [scanFreeBSD]. *)
Definition scanFreeBSD_disk (devices : list Device) (disk : Device) : list Device :=
  let isRemovable := isRemovableDevice m (Name disk) in
  let disk := set_IsRemovable isRemovable disk in
  if isRemovable then
    let devices := devices ++ [disk] in
    let '(partitions, err) := getPartitions m (Name disk) in
    match err with
    | None => devices ++ partitions
    | Some _ => devices
    end
  else devices.

(** [func (m *Manager) scanFreeBSD() ([]*Device, error)] *)
Definition scanFreeBSD : list Device * option string :=
  let r := Output env (mkCmd "geom" ["disk"; "list"] None) in
  match exec_err r with
  | Some err => ([], Some ("failed to list disks: " +:+ err))
  | None =>
      let diskDevices := parseGeomDiskList m (output r) in
      (fold_left scanFreeBSD_disk diskDevices [], None)
  end.

(** The body of the loop of [scanLinuxFallback]. *)
Definition scanLinuxFallback_entry (devices : list Device) (deviceName : string)
  : list Device :=
  let removablePath := filepath.Join ["/sys/block"; deviceName; "removable"] in
  let '(removableData, err) := ReadFile env removablePath in
  match err with
  | Some _ => devices
  | None =>
      if negb (String.eqb (gostd.TrimSpace removableData) "1") then devices
      else
        let dev := mkDevice deviceName ("/dev/" +:+ deviceName) "" "" "" 0 ""
                            false false false false true 0 in
        let sizePath := filepath.Join ["/sys/block"; deviceName; "size"] in
        let dev :=
          match ReadFile env sizePath with
          | (sizeData, None) =>
              match gostd.ParseUint64 (gostd.TrimSpace sizeData) with
              | Some sectors => set_Size (gostd.mul64 sectors 512) dev
              | None => dev
              end
          | (_, Some _) => dev
          end in
        (devices ++ [dev]) ++ findLinuxPartitions m deviceName
  end.

(** [func (m *Manager) scanLinuxFallback() ([]*Device, error)] *)
Definition scanLinuxFallback : list Device * option string :=
  let '(blockDevices, err) := ReadDir env "/sys/block" in
  match err with
  | Some err => ([], Some ("failed to read /sys/block: " +:+ err))
  | None => (fold_left scanLinuxFallback_entry blockDevices [], None)
  end.

Definition lsblk : Cmd :=
  mkCmd "lsblk" ["-J"; "-o"; "NAME,SIZE,TYPE,MOUNTPOINT,FSTYPE,LABEL,UUID,RM,HOTPLUG"] None.

(** [func (m *Manager) scanLinux() ([]*Device, error)] *)
Definition scanLinux : list Device * option string :=
  let r := Output env lsblk in
  match exec_err r with
  | Some _ => scanLinuxFallback
  | None =>
      let linuxDevices := parseLsblkJSON m (output r) in
      (List.filter IsRemovable linuxDevices, None)
  end.

(** [func (m *Manager) Scan() ([]*Device, error)]; the manager's own map
    of the records is the caller's concern here. *)
Definition Scan : list Device * option string :=
  let '(devices, err) :=
    if String.eqb (GOOS env) "freebsd" then scanFreeBSD
    else if String.eqb (GOOS env) "linux" then scanLinux
    else ([], Some ("unsupported operating system: " +:+ GOOS env)) in
  match err with
  | Some err => ([], Some err)
  | None => (devices, None)
  end.

End Scan.

End Discovery.

(** ** A small file system: what [os.MkdirAll] and [os.Remove] act on *)

(** The file tree as a map from names to nodes. Names are taken as
    [filepath.Clean] writes them, which is how [GetMountDirectory] builds
    the names it hands to [os.MkdirAll]; the tree has no symbolic links and
    the daemon may write everywhere in it. What is mounted where is not
    part of the tree: the mount tools answer through the host. *)

Module fsys.

Inductive Node : Type := Dir | File.

(** The proper prefixes of [path] that end just before a separator: the
    directories above it. [seen] is the part already read. *)
Fixpoint parents_from (seen : string) (path : string) : list string :=
  match path with
  | EmptyString => []
  | String c rest =>
      (if Ascii.eqb c "/" && negb (String.eqb seen "") then [seen] else [])
      ++ parents_from (seen +:+ String c "") rest
  end.

Definition parents (path : string) : list string := parents_from "" path.

Definition is_file (fs : gmap string Node) (p : string) : bool :=
  match fs !! p with Some File => true | _ => false end.

(** [os.MkdirAll(path, 0755)]: nothing to do for a directory that exists;
    an error when the path or a directory above it is a file (the error
    names that file) or the path is empty; otherwise the directory and
    those above it exist afterwards. *)
Definition MkdirAll (fs : gmap string Node) (path : string)
  : gmap string Node * option string :=
  if String.eqb path "" then (fs, Some "mkdir : no such file or directory")
  else match List.find (is_file fs) (parents path ++ [path]) with
       | Some q => (fs, Some ("mkdir " +:+ q +:+ ": not a directory"))
       | None => (foldr (fun p m => <[p := Dir]> m) fs (parents path ++ [path]), None)
       end.

(** The root, the working directory and the directories above it, under
    the names [filepath.Clean] gives them: [/], [.], [..], [../..] and so
    on. They are there whatever the map says, and [os.Remove] removes none
    of them. *)
Definition fixed (path : string) : bool :=
  String.eqb path "/" || String.eqb path "."
  || forallb (String.eqb "..") (strings.split_on "/" "" path).

(** Is [q] a name below the directory [path]? Below the root is every
    other rooted name. *)
Definition below (path q : string) : bool :=
  if String.eqb path "/"
  then strings.HasPrefix q "/" && negb (String.eqb q "/")
  else strings.HasPrefix q (path +:+ "/").

(** Is anything below the directory [path]? *)
Definition has_child (fs : gmap string Node) (path : string) : bool :=
  existsb (below path) (map_to_list fs).*1.

(** [os.Remove(path)]: removes a file or an empty directory; the root and
    the working directory and those above it are refused (with the error
    texts of a Linux host). *)
Definition Remove (fs : gmap string Node) (path : string)
  : gmap string Node * option string :=
  if fixed path
  then (fs, Some ("remove " +:+ path +:+
                  (if String.eqb path "/" then ": device or resource busy"
                   else if String.eqb path "." then ": invalid argument"
                   else ": directory not empty")))
  else
    match fs !! path with
    | None => (fs, Some ("remove " +:+ path +:+ ": no such file or directory"))
    | Some File => (delete path fs, None)
    | Some Dir =>
        if has_child fs path
        then (fs, Some ("remove " +:+ path +:+ ": directory not empty"))
        else (delete path fs, None)
    end.

End fsys.

(** ** The daemon ([daemon.Daemon]) *)

(** A pointer to a device record. *)
Definition loc : Type := positive.

(** The memory of the process and what it has done so far. [mounted] is the
    daemon's map from path to the record it mounted and [devices] the
    manager's map from path to the record it scanned last; both hold
    pointers into [heap]. *)
Record State : Type := mkState {
  heap : gmap loc Device;
  next : loc;
  mounted : gmap string loc;
  devices : gmap string loc;
  fs : gmap string fsys.Node;
  trace : list Action
}.

(** A computation of the daemon: it reads and changes the state and either
    returns or panics. *)
Definition M (A : Type) : Type := State → Outcome A * State.

Definition ret {A} (a : A) : M A := fun st => (Ret a, st).

Definition bind {A B} (m : M A) (f : A → M B) : M B :=
  fun st =>
    match m st with
    | (Ret a, st') => f a st'
    | (Panic msg, st') => (Panic msg, st')
    end.

Notation "'do' x <- m ; k" := (bind m (fun x => k))
  (at level 10, x name, m at level 100, k at level 200).
Notation "'run' m ; k" := (bind m (fun _ => k))
  (at level 10, m at level 100, k at level 200).

Definition lift {A} (o : Outcome A) : M A := fun st => (o, st).

Definition set_heap (f : gmap loc Device → gmap loc Device) (st : State) : State :=
  mkState (f (heap st)) (next st) (mounted st) (devices st) (fs st) (trace st).
Definition set_next (n : loc) (st : State) : State :=
  mkState (heap st) n (mounted st) (devices st) (fs st) (trace st).
Definition set_mounted (f : gmap string loc → gmap string loc) (st : State) : State :=
  mkState (heap st) (next st) (f (mounted st)) (devices st) (fs st) (trace st).
Definition set_devices (f : gmap string loc → gmap string loc) (st : State) : State :=
  mkState (heap st) (next st) (mounted st) (f (devices st)) (fs st) (trace st).
Definition set_fs (f : gmap string fsys.Node) (st : State) : State :=
  mkState (heap st) (next st) (mounted st) (devices st) f (trace st).
Definition add_trace (a : Action) (st : State) : State :=
  mkState (heap st) (next st) (mounted st) (devices st) (fs st) (trace st ++ [a]).

Definition do_ (a : Action) : M unit := fun st => (Ret tt, add_trace a st).

Definition log (msg : string) : M unit := do_ (ALog msg).

(** Reading through a pointer; a pointer to nothing panics. *)
Definition load (l : loc) : M Device :=
  fun st =>
    match heap st !! l with
    | Some dev => (Ret dev, st)
    | None => (Panic "runtime error: invalid memory address or nil pointer dereference", st)
    end.

(** Writing fields through a pointer. *)
Definition update (l : loc) (f : Device → Device) : M unit :=
  do dev <- load l; fun st => (Ret tt, set_heap (insert l (f dev)) st).

Definition set_MountPoint (mp : string) (mnt : bool) (d : Device) : Device :=
  mkDevice (Name d) (Path d) (Label d) (UUID d) (FSType d) (Size d) mp mnt
           (IsEncrypted d) (IsUnlocked d) (IsPartition d) (IsRemovable d) (PartitionNum d).

Definition set_IsUnlocked (b : bool) (d : Device) : Device :=
  mkDevice (Name d) (Path d) (Label d) (UUID d) (FSType d) (Size d) (MountPoint d)
           (IsMounted d) (IsEncrypted d) b (IsPartition d) (IsRemovable d) (PartitionNum d).

(** [new(Device)] filled with [dev]. *)
Definition alloc (dev : Device) : M loc :=
  fun st => (Ret (next st), set_next (Pos.succ (next st)) (set_heap (insert (next st) dev) st)).

(** Go's [for _, x := range xs] with a body that may panic. *)
Fixpoint for_each {A} (xs : list A) (body : A → M unit) : M unit :=
  match xs with
  | [] => ret tt
  | x :: rest => run body x; for_each rest body
  end.

(** The records of a scan, each behind a fresh pointer that is entered in
    the manager's map under the record's path. *)
Fixpoint place (devs : list Device) : M (list loc) :=
  match devs with
  | [] => ret []
  | dev :: rest =>
      do l <- alloc dev;
      run (fun st => (Ret tt, set_devices (insert (Path dev) l) st));
      do ls <- place rest;
      ret (l :: ls)
  end.

Section Daemon.

Variable host : Host.
Variable config : Config.

(** [exec.Command(name, args...)] run to its end; the world answers. *)
Definition exec (c : Cmd) : M ExecResult :=
  fun st =>
    let r := host_exec host (trace st) c in
    (Ret r, add_trace (AExec c r) st).

(** [go ...] of a command nobody waits for. *)
Definition go (c : Cmd) : M unit := do_ (AGo c).

Definition MkdirAll (path : string) : M (option string) :=
  fun st =>
    let '(fs', err) := fsys.MkdirAll (fs st) path in
    (Ret err, add_trace (AMkdirAll path err) (set_fs fs' st)).

Definition Remove (path : string) : M (option string) :=
  fun st =>
    let '(fs', err) := fsys.Remove (fs st) path in
    (Ret err, add_trace (ARemove path err) (set_fs fs' st)).

(** [bufio.NewReader(os.Stdin).ReadString('\n')] *)
Definition ReadLine : M (string * option string) :=
  fun st =>
    let r := host_readline host (trace st) in
    (Ret r, add_trace (AReadLine r.1 r.2) st).

(** [notify.Send(title, body, int(t*1000))], sent when notifications are
    enabled and the setting [t] is positive; the body is computed only
    then. *)
Definition notify_if (t : float64) (title : string) (body : M string) : M unit :=
  if Enabled (Notifications config) && f64_positive t
  then do b <- body; do_ (ANotify title b (f64_millis t))
  else ret tt.

Definition displayName (l : loc) : M string :=
  do dev <- load l; lift (GetDisplayName dev).

(** [func (d *Daemon) executeEventHook(event string, dev *device.Device)] *)
Definition executeEventHook (event : string) (l : loc) : M unit :=
  match EventHooks config !! event with
  | Some hookCmd =>
      do dev <- load l;
      let cmd := strings.ReplaceAll hookCmd "{device}" (Path dev) in
      let cmd := strings.ReplaceAll cmd "{label}" (Label dev) in
      let cmd := strings.ReplaceAll cmd "{uuid}" (UUID dev) in
      let cmd := strings.ReplaceAll cmd "{mount_point}" (MountPoint dev) in
      run log ("Executing event hook for " +:+ event +:+ ": " +:+ cmd);
      go (mkCmd "sh" ["-c"; cmd] None)
  | None => ret tt
  end.

(** [func (d *Daemon) getPassword(dev *device.Device) (string, error)] *)
Definition getPassword (l : loc) : M (string * option string) :=
  if negb (String.eqb (PasswordCmd (GELI config)) "") then
    do r <- exec (mkCmd "sh" ["-c"; PasswordCmd (GELI config)] None);
    match exec_err r with
    | Some err => ret ("", Some err)
    | None => ret (gostd.TrimSpace (output r), None)
    end
  else
    do name <- displayName l;
    run do_ (APrint ("Enter password for " +:+ name +:+ ": "));
    do r <- ReadLine;
    match r.2 with
    | Some err => ret ("", Some err)
    | None => ret (gostd.TrimSpace r.1, None)
    end.

(** The end of [unlockDevice], after the command was chosen. *)
Definition attach (l : loc) (path : string) (c : Cmd) : M (option string) :=
  do r <- exec c;
  match exec_err r with
  | Some err =>
      ret (Some ("geli attach failed: " +:+ err +:+ " (output: " +:+ output r +:+ ")"))
  | None =>
      run update l (set_IsUnlocked true);
      run log ("Successfully unlocked " +:+ path);
      run notify_if (DeviceUnlocked (Notifications config)) "Device Unlocked"
            (do name <- displayName l; ret (name +:+ " unlocked"));
      ret None
  end.

(** [func (d *Daemon) unlockDevice(dev *device.Device) error] *)
Definition unlockDevice (l : loc) : M (option string) :=
  if negb (GELI_Enabled (GELI config)) then ret (Some "GELI support is disabled")
  else
    do dev <- load l;
    run log ("Unlocking encrypted device " +:+ Path dev);
    match KeyFiles (GELI config) !! UUID dev with
    | Some keyfile =>
        attach l (Path dev) (mkCmd "geli" ["attach"; "-k"; keyfile; Path dev] None)
    | None =>
        do pw <- getPassword l;
        match pw.2 with
        | Some err => ret (Some ("failed to get password: " +:+ err))
        | None =>
            attach l (Path dev)
                   (mkCmd "geli" ["attach"; Path dev] (Some (pw.1 +:+ String (ascii_of_nat 10) "")))
        end
    end.

(** The arguments [mountDevice] gives the mount tool. *)
Definition mount_args (dev : Device) (opts : list string) (mountPoint : string)
  : list string :=
  (if Nat.ltb 0 (length opts) then ["-o"; strings.Join opts ","] else [])
  ++ (if negb (String.eqb (FSType dev) "") && negb (String.eqb (FSType dev) "auto")
      then ["-t"; FSType dev] else [])
  ++ [Path dev; mountPoint].

(** [mountDevice] from "Determine mount point" on. *)
Definition mountUnlocked (l : loc) : M (option string) :=
  do dev <- load l;
  do mountPoint <- lift (GetMountDirectory dev (MountBase config));
  do err <- MkdirAll mountPoint;
  match err with
  | Some err => ret (Some ("failed to create mount point: " +:+ err))
  | None =>
      let opts := GetMountOptions config (FSType dev) (Label dev) (UUID dev) (Path dev) in
      let args := mount_args dev opts mountPoint in
      run log ("Mounting " +:+ Path dev +:+ " at " +:+ mountPoint
                 +:+ " (fstype: " +:+ FSType dev +:+ ")");
      do r <- exec (mkCmd "mount" args None);
      match exec_err r with
      | Some err =>
          ret (Some ("mount failed: " +:+ err +:+ " (output: " +:+ output r +:+ ")"))
      | None =>
          run update l (set_MountPoint mountPoint true);
          run (fun st => (Ret tt, set_mounted (insert (Path dev) l) st));
          run log ("Successfully mounted " +:+ Path dev +:+ " at " +:+ mountPoint);
          run notify_if (DeviceMounted (Notifications config)) "Device Mounted"
                (do name <- displayName l; ret (name +:+ " mounted at " +:+ mountPoint));
          run executeEventHook "device_mounted" l;
          run (if negb (String.eqb (FileManager config) "")
               then go (mkCmd (FileManager config) [mountPoint] None)
               else ret tt);
          ret None
      end
  end.

(** [func (d *Daemon) mountDevice(dev *device.Device) error] *)
Definition mountDevice (l : loc) : M (option string) :=
  do dev <- load l;
  if IsMounted dev
  then ret (Some ("device already mounted at " +:+ MountPoint dev))
  else
    do unlockErr <-
      (if IsEncrypted dev && negb (IsUnlocked dev) then unlockDevice l else ret None);
    match unlockErr with
    | Some err => ret (Some ("failed to unlock device: " +:+ err))
    | None => mountUnlocked l
    end.

(** [func (d *Daemon) unmountDevice(dev *device.Device) error] *)
Definition unmountDevice (l : loc) : M (option string) :=
  do dev <- load l;
  if negb (IsMounted dev) then ret (Some "device not mounted")
  else
    run log ("Unmounting " +:+ Path dev +:+ " from " +:+ MountPoint dev);
    do r <- exec (mkCmd "umount" [MountPoint dev] None);
    match exec_err r with
    | Some err =>
        ret (Some ("unmount failed: " +:+ err +:+ " (output: " +:+ output r +:+ ")"))
    | None =>
        let mountPoint := MountPoint dev in
        run update l (set_MountPoint "" false);
        run (fun st => (Ret tt, set_mounted (delete (Path dev)) st));
        run Remove mountPoint;
        run log ("Successfully unmounted " +:+ Path dev);
        run notify_if (DeviceUnmounted (Notifications config)) "Device Unmounted"
              (do name <- displayName l; ret (name +:+ " unmounted"));
        run executeEventHook "device_unmounted" l;
        ret None
    end.

(** [d.deviceMgr.Scan()] as the daemon sees it: what the scan finds comes
    from the host; the records are fresh and are entered in the manager's
    map; an error comes with no records. *)
Definition deviceMgr_Scan : M (list loc * option string) :=
  fun st =>
    let r := host_scan host (trace st) in
    let st := add_trace (AScan r.1 r.2) st in
    match r.2 with
    | Some err => (Ret ([], Some err), st)
    | None => (do ls <- place r.1; ret (ls, None)) st
    end.

(** The body of the loop of [MountAll]. *)
Definition mountAll_body (l : loc) : M unit :=
  do dev <- load l;
  if IsPartition dev && negb (IsMounted dev) then
    do err <- mountDevice l;
    match err with
    | Some err =>
        do dev <- load l;
        log ("Failed to mount " +:+ Path dev +:+ ": " +:+ err)
    | None => ret tt
    end
  else ret tt.

(** [func (d *Daemon) MountAll() error] *)
Definition MountAll : M (option string) :=
  do scanned <- deviceMgr_Scan;
  match scanned.2 with
  | Some err => ret (Some ("failed to scan devices: " +:+ err))
  | None =>
      run for_each scanned.1 mountAll_body;
      ret None
  end.

End Daemon.



(** ** The handlers of the poll loop *)

Section Handlers.

Variable host : Host.
Variable config : Config.

(** What [onDeviceAdded] does when [mountDevice] returned an error. *)
Definition automount_failed (l : loc) (err : string) : M unit :=
  do dev <- load l;
  run log ("Failed to automount " +:+ Path dev +:+ ": " +:+ err);
  notify_if config (JobFailed (Notifications config)) "Mount Failed"
    (do name <- displayName l; ret ("Failed to mount " +:+ name +:+ ": " +:+ err)).

(** [func (d *Daemon) onDeviceAdded(dev *device.Device)] *)
Definition onDeviceAdded (l : loc) : M unit :=
  do dev <- load l;
  do name <- lift (GetDisplayName dev);
  run log ("Device added: " +:+ Path dev +:+ " (" +:+ name +:+ ")");
  if ShouldIgnoreDevice config (Label dev) (UUID dev) (Path dev)
  then log ("Ignoring device " +:+ Path dev)
  else
    run notify_if config (DeviceAdded_ (Notifications config)) "Device Added"
          (do name <- displayName l; ret (name +:+ " connected"));
    run executeEventHook config "device_added" l;
    if IsPartition dev && ShouldAutomountDevice config (Label dev) (UUID dev) (Path dev)
    then
      do err <- mountDevice host config l;
      match err with
      | Some err => automount_failed l err
      | None => ret tt
      end
    else ret tt.

(** [dev, ok := d.mounted[path]] *)
Definition lookup_mounted (path : string) : M (option loc) :=
  fun st => (Ret (mounted st !! path), st).

(** [func (d *Daemon) onDeviceRemoved(path string)] *)
Definition onDeviceRemoved (path : string) : M unit :=
  run log ("Device removed: " +:+ path);
  do found <- lookup_mounted path;
  run match found with
      | Some l =>
          do err <- unmountDevice host config l;
          match err with
          | Some err => log ("Failed to unmount " +:+ path +:+ ": " +:+ err)
          | None => ret tt
          end
      | None => ret tt
      end;
  notify_if config (DeviceRemoved_ (Notifications config)) "Device Removed"
    (match found with
     | Some l => do name <- displayName l; ret (name +:+ " disconnected")
     | None => ret (path +:+ " disconnected")
     end).

(** [func (d *Daemon) MountDevice(dev *device.Device) error] *)
Definition MountDevice (l : loc) : M (option string) := mountDevice host config l.

(** [func (d *Daemon) UnmountDevice(dev *device.Device) error] *)
Definition UnmountDevice (l : loc) : M (option string) := unmountDevice host config l.

End Handlers.

(** ** One tick of the poll loop, with its handlers *)

(** Go's [for _, x := range xs] with a body that updates local variables
    [s] and may panic. *)
Fixpoint fold_M {A S} (xs : list A) (body : A → S → M S) (s : S) : M S :=
  match xs with
  | [] => ret s
  | x :: rest => do s' <- body x s; fold_M rest body s'
  end.

Section PollLoop.

Variable host : Host.
Variable config : Config.

(** The order in which the second loop visits the keys of the map it is
    given. *)
Variable visit : gmap string bool → list string.

(** The body of [for _, dev := range devices] in [pollDevices]; [maps] are
    [knownDevices] and [currentDevices]. *)
Definition poll_added (l : loc) (maps : gmap string bool * gmap string bool)
  : M (gmap string bool * gmap string bool) :=
  do dev <- load l;
  let currentDevices := <[Path dev := true]> maps.2 in
  if negb (Poll.get maps.1 (Path dev))
  then
    run onDeviceAdded host config l;
    do dev <- load l;
    ret (<[Path dev := true]> maps.1, currentDevices)
  else ret (maps.1, currentDevices).

(** The body of [for path := range knownDevices]. *)
Definition poll_removed (currentDevices : gmap string bool) (path : string)
           (knownDevices : gmap string bool) : M (gmap string bool) :=
  if negb (Poll.get currentDevices path)
  then
    run onDeviceRemoved host config path;
    ret (delete path knownDevices)
  else ret knownDevices.

(** What [pollDevices] does when the ticker fires: the new [knownDevices]. *)
Definition pollDevices_tick (knownDevices : gmap string bool) : M (gmap string bool) :=
  do scanned <- deviceMgr_Scan host;
  match scanned.2 with
  | Some err =>
      run log ("Failed to scan devices: " +:+ err);
      ret knownDevices
  | None =>
      do maps <- fold_M scanned.1 poll_added (knownDevices, ∅);
      fold_M (visit maps.1) (poll_removed maps.2) maps.1
  end.

End PollLoop.

(** ** The tray's "Mount All" and "Unmount All" ([tray.Icon], with the
       callbacks that [main] installs: [onMountFunc] is [d.MountDevice] and
       [onUnmountFunc] is [d.UnmountDevice]) *)

Section Tray.

Variable host : Host.
Variable config : Config.

(** [func (i *Icon) showNotification(title, message string)] *)
Definition showNotification (title message : string) : M unit :=
  do r <- exec host (mkCmd "notify-send" [title; message] None);
  match exec_err r with
  | Some err => log ("Failed to send notification: " +:+ err)
  | None => ret tt
  end.

(** The body of the loop of [onMountAll]; [mounted] is its counter. *)
Definition onMountAll_body (l : loc) (mounted : nat) : M nat :=
  do dev <- load l;
  if IsPartition dev && negb (IsMounted dev) && IsRemovable dev then
    do err <- MountDevice host config l;
    match err with
    | Some err =>
        do dev <- load l;
        run log ("Failed to mount " +:+ Path dev +:+ ": " +:+ err);
        ret mounted
    | None => ret (S mounted)
    end
  else ret mounted.

(** [func (i *Icon) onMountAll()]. The call [i.UpdateDevices()] wakes the
    goroutine that redraws the menu and does nothing else. *)
Definition onMountAll : M unit :=
  run log "Tray: Mount All clicked";
  do scanned <- deviceMgr_Scan host;
  match scanned.2 with
  | Some err => log ("Failed to scan devices: " +:+ err)
  | None =>
      do mounted <- fold_M scanned.1 onMountAll_body 0%nat;
      if Nat.ltb 0 mounted
      then showNotification "Mount All" ("Mounted " +:+ pretty mounted +:+ " device(s)")
      else ret tt
  end.

(** The body of the loop of [onUnmountAll]; [unmounted] is its counter. *)
Definition onUnmountAll_body (l : loc) (unmounted : nat) : M nat :=
  do dev <- load l;
  if IsPartition dev && IsMounted dev && IsRemovable dev then
    do err <- UnmountDevice host config l;
    match err with
    | Some err =>
        do dev <- load l;
        run log ("Failed to unmount " +:+ Path dev +:+ ": " +:+ err);
        ret unmounted
    | None => ret (S unmounted)
    end
  else ret unmounted.

(** [func (i *Icon) onUnmountAll()] *)
Definition onUnmountAll : M unit :=
  run log "Tray: Unmount All clicked";
  do scanned <- deviceMgr_Scan host;
  match scanned.2 with
  | Some err => log ("Failed to scan devices: " +:+ err)
  | None =>
      do unmounted <- fold_M scanned.1 onUnmountAll_body 0%nat;
      if Nat.ltb 0 unmounted
      then showNotification "Unmount All"
             ("Unmounted " +:+ pretty unmounted +:+ " device(s)")
      else ret tt
  end.

End Tray.

(** ** Names of disks and partitions ([tray], [cmd/pgumount], [cmd/pginfo]) *)

(** [c >= '0' && c <= '9'] *)
Definition is_digit (c : ascii) : bool :=
  (48 <=? nat_of_ascii c)%nat && (nat_of_ascii c <=? 57)%nat.

(** The loop of [getParentDiskName] from index [i] on: [before] is
    [partitionName[:i]] and [s] is [partitionName[i:]]. *)
Fixpoint parent_from (before s : string) : string :=
  match s with
  | EmptyString => ""
  | String c rest =>
      if (Ascii.eqb c "p" || Ascii.eqb c "s") && negb (String.eqb before "")
         && match rest with
            | String d _ => is_digit d
            | EmptyString => false
            end
      then before
      else parent_from (before +:+ String c "") rest
  end.

(** [func getParentDiskName(partitionName string) string] of the tray. *)
Definition getParentDiskName (partitionName : string) : string :=
  parent_from "" partitionName.

(** The disk name [detachDevice] of [pgumount] computes from the name of
    the device: the last two bytes are cut off when the last but one is
    [p]. *)
Definition diskName (name : string) : string :=
  if (2 <? String.length name)%nat then
    match String.get (String.length name - 2) name with
    | Some c => if Ascii.eqb c "p" then take_bytes (String.length name - 2) name
                else name
    | None => name
    end
  else name.

(** [func truncateString(s string, maxLen int) string] of [pginfo]. *)
Definition truncateString (s : string) (maxLen : Z) : Outcome string :=
  if (Z.of_nat (String.length s) <=? maxLen)%Z then Ret s
  else if (maxLen <? 0)%Z
       then Panic ("runtime error: slice bounds out of range [:" +:+ pretty maxLen +:+ "]")
  else match slice_to s (Z.to_nat maxLen) with
       | Ret p => Ret (p +:+ "...")
       | Panic m => Panic m
       end.

Section Pgumount.

Variable host : Host.

(** The flag [-v]. *)
Variable verbose : bool.

(** [func detachDevice(dev *device.Device) error] of [pgumount]. *)
Definition detachDevice (l : loc) : M (option string) :=
  do dev <- load l;
  run (if verbose then log ("Detaching device " +:+ Name dev) else ret tt);
  do r <- exec host (mkCmd "camcontrol" ["eject"; diskName (Name dev)] None);
  match exec_err r with
  | Some _ =>
      do r <- exec host (mkCmd "usbconfig" ["-d"; diskName (Name dev); "power_off"] None);
      match exec_err r with
      | Some err =>
          ret (Some ("detach failed: " +:+ err +:+ " (output: " +:+ output r +:+ ")"))
      | None => ret None
      end
  | None => ret None
  end.

End Pgumount.

(** ** Reading the output of [mount] ([device.Manager.parseMountOutput]) *)

Module strings_more.

(** The scan behind [strings.Split] for a non-empty [sep]: the separators
    are taken left to right and do not overlap; [cur] is the piece being
    read and [skip] counts the bytes of the current separator that remain
    to be dropped. *)
Fixpoint split_from (sep : string) (skip : nat) (cur s : string) : list string :=
  match s with
  | EmptyString => [cur]
  | String c s' =>
      match skip with
      | S k => split_from sep k cur s'
      | O =>
          if strings.HasPrefix s sep
          then cur :: split_from sep (String.length sep - 1) "" s'
          else split_from sep 0 (cur +:+ String c "") s'
      end
  end.

(** [strings.Split]. For an empty [sep] Go cuts after every character
    (here byte by byte; the program never calls it so). *)
Definition Split (s sep : string) : list string :=
  match sep with
  | EmptyString => map (fun c => String c "") (list_ascii_of_string s)
  | String _ _ => split_from sep 0 "" s
  end.

End strings_more.

(** The body of the loop of [parseMountOutput] for one line. *)
Definition parseMountLine (dev : Device) (line : string) : Device :=
  if strings.Contains line (Path dev) then
    let parts := strings_more.Split line " on " in
    if (2 <=? length parts)%nat then
      let mountInfo := strings_more.Split (nth 1 parts "") " (" in
      if (1 <=? length mountInfo)%nat
      then set_MountPoint (gostd.TrimSpace (nth 0 mountInfo "")) true dev
      else dev
    else dev
  else dev.

(** [func (m *Manager) parseMountOutput(dev *Device, output string)], on
    the lines that the scanner reads from [output]; the record is changed
    in place. *)
Definition parseMountOutput (dev : Device) (lines : list string) : Device :=
  fold_left parseMountLine lines dev.

(** ** Defaults and command-line flags ([config.Default], [applyFlags] of
       the daemon's [main]) and the file system type read off [file -s] *)

(** [type TrayConfig struct] *)
Record TrayConfig : Type := mkTrayConfig {
  Tray_Enabled : bool;
  AutoHide : bool;
  IconName : string
}.

(** The whole of [config.Config]: the fields of [Config] above and the
    fields [Verbose], [Quiet] and [Tray], which the daemon's procedures do
    not read. *)
Record Settings : Type := mkSettings {
  settings : Config;
  Verbose : bool;
  Quiet : bool;
  Tray : TrayConfig
}.

(** [func Default() *Config] *)
Definition Default : Settings :=
  mkSettings
    (mkConfig true "/media" "xdg-open"
       (mkNotificationConfig true (mkFloat true 1500) (mkFloat true 5000)
          (mkFloat false (-1000)) (mkFloat false (-1000)) (mkFloat false (-1000))
          (mkFloat false (-1000)) (mkFloat false (-1000)) (mkFloat false (-1000)))
       []
       ∅
       (<["vfat" := ["locale=en_US.UTF-8"; "longnames"]]>
          (<["ntfs" := ["locale=en_US.UTF-8"]]>
             (<["ext2" := []]>
                (<["ext3" := []]>
                   (<["ext4" := []]>
                      (<["ufs" := []]>
                         (<["zfs" := []]>
                            (<["msdos" := ["locale=en_US.UTF-8"; "longnames"]]> ∅))))))))
       (mkGELIConfig true "" 0 ∅))
    false false
    (mkTrayConfig false true "drive-removable-media").

(** The flags of [pgmountd] that [applyFlags] reads, as [flag.Parse] has
    left them. *)
Record Flags : Type := mkFlags {
  flag_automount : bool;
  flag_noAutomount : bool;
  flag_notify : bool;
  flag_noNotify : bool;
  flag_tray : bool;
  flag_autoTray : bool;
  flag_noTray : bool;
  flag_verbose : bool;
  flag_quiet : bool
}.

(** The flags when the command line gives none. *)
Definition no_flags : Flags :=
  mkFlags true false true false false false false false false.

Definition set_Automount (b : bool) (c : Config) : Config :=
  mkConfig b (MountBase c) (FileManager c) (Notifications c) (Devices c)
           (EventHooks c) (MountOptions_Default c) (GELI c).

Definition set_Enabled (b : bool) (c : Config) : Config :=
  let n := Notifications c in
  mkConfig (Automount c) (MountBase c) (FileManager c)
           (mkNotificationConfig b (Timeout n) (DeviceMounted n) (DeviceUnmounted n)
              (DeviceAdded_ n) (DeviceRemoved_ n) (DeviceUnlocked n) (DeviceLocked n)
              (JobFailed n))
           (Devices c) (EventHooks c) (MountOptions_Default c) (GELI c).

(** [func applyFlags(cfg *config.Config)]. The test
    [flag.Lookup("automount").Value.String() == "true"] holds exactly when
    the flag is [true]. *)
Definition applyFlags (f : Flags) (cfg : Settings) : Settings :=
  let c := settings cfg in
  let c :=
    if flag_noAutomount f then set_Automount false c
    else if flag_automount f then set_Automount (flag_automount f) c
    else c in
  let c :=
    if flag_noNotify f then set_Enabled false c
    else if flag_notify f then set_Enabled (flag_notify f) c
    else c in
  let tray :=
    if flag_noTray f then mkTrayConfig false (AutoHide (Tray cfg)) (IconName (Tray cfg))
    else if flag_tray f then mkTrayConfig true false (IconName (Tray cfg))
    else if flag_autoTray f then mkTrayConfig true true (IconName (Tray cfg))
    else Tray cfg in
  mkSettings c
    (if flag_verbose f then true else Verbose cfg)
    (if flag_quiet f then true else Quiet cfg)
    tray.

(** The file system type that [detectFilesystem] reads off the output of
    [file -s]; [old] is the type the record had. *)
Definition detectFSType (fsInfo old : string) : string :=
  if strings.Contains fsInfo "ext2" || strings.Contains fsInfo "ext3"
     || strings.Contains fsInfo "ext4"
  then
    if strings.Contains fsInfo "ext4" then "ext4"
    else if strings.Contains fsInfo "ext3" then "ext3"
    else "ext2"
  else if strings.Contains fsInfo "FAT" then "msdosfs"
  else if strings.Contains fsInfo "NTFS" then "ntfs"
  else if strings.Contains fsInfo "UFS" then "ufs"
  else if strings.Contains fsInfo "ZFS" then "zfs"
  else old.
(** * Properties *)

(** ** Library functions on examples *)

Example Clean_collapses : filepath.Clean "/media//usb/./x/../y/" = "/media/usb/y".
Proof. reflexivity. Qed.

Example Clean_keeps_leading_dotdot : filepath.Clean "../../a" = "../../a".
Proof. reflexivity. Qed.

Example Clean_root_dotdot : filepath.Clean "/.." = "/".
Proof. reflexivity. Qed.

Example Clean_empty : filepath.Clean "" = ".".
Proof. reflexivity. Qed.

Example Join_skips_empty : filepath.Join [""; "a"; ""; "b"] = "a/b".
Proof. reflexivity. Qed.

Example ReplaceAll_no_overlap : strings.ReplaceAll "a{x}b{x}{x" "{x}" "YY" = "aYYbYY{x".
Proof. reflexivity. Qed.

Example TrimSpace_both_ends :
  gostd.TrimSpace (String (ascii_of_nat 9) " 1 2 " +:+ String (ascii_of_nat 10) "") = "1 2".
Proof. vm_compute. reflexivity. Qed.

Example ParseUint64_digits : gostd.ParseUint64 "15633408" = Some 15633408%Z.
Proof. reflexivity. Qed.

Example ParseUint64_sign : gostd.ParseUint64 "+1" = None.
Proof. reflexivity. Qed.

Example MkdirAll_names_the_file :
  fsys.MkdirAll {[ "/media" := fsys.File ]} "/media/A/B"
  = ({[ "/media" := fsys.File ]}, Some "mkdir /media: not a directory").
Proof. vm_compute. reflexivity. Qed.

Example Remove_refuses_the_root :
  fsys.Remove {[ "/" := fsys.Dir ]} "/"
  = ({[ "/" := fsys.Dir ]}, Some "remove /: device or resource busy")
  ∧ fsys.has_child {[ "/" := fsys.Dir; "/media" := fsys.Dir ]} "/" = true
  ∧ fsys.fixed "../.." = true
  ∧ fsys.fixed "/media/.." = false.
Proof. repeat split; vm_compute; reflexivity. Qed.

Example slice_to_message :
  slice_to "1234" 8
  = Panic "runtime error: slice bounds out of range [:8] with length 4".
Proof. vm_compute. reflexivity. Qed.

(** ** Display names and mount directories *)

(** A record with a label, an identifier and a name, and nothing else. *)
Definition named (name label uuid : string) : Device :=
  mkDevice name ("/dev/" +:+ name) label uuid "" 0 "" false false false true true 0.

Example GetMountDirectory_label :
  GetMountDirectory (named "da0p1" "MY USB/1" "") "/media" = Ret "/media/MY_USB_1".
Proof. reflexivity. Qed.

Example GetDisplayName_uuid :
  GetDisplayName (named "da0p1" "" "0123456789abcdef") = Ret "01234567...".
Proof. reflexivity. Qed.

Lemma length_take_bytes (n : nat) (s : string) :
  (n ≤ String.length s)%nat → String.length (take_bytes n s) = n.
Proof.
  revert s. induction n as [|n IH]; intros [|c s]; simpl; try lia.
  intros H. rewrite IH; lia.
Qed.

(** When [GetDisplayName] returns, it returns what its comment promises:
    the label, else eight bytes of the identifier and three dots, else the
    name. *)
Lemma GetDisplayName_returns d :
  (Label d ≠ "" → GetDisplayName d = Ret (Label d))
  ∧ (Label d = "" → UUID d = "" → GetDisplayName d = Ret (Name d))
  ∧ (Label d = "" → (8 ≤ String.length (UUID d))%nat →
     GetDisplayName d = Ret (take_bytes 8 (UUID d) +:+ "...")).
Proof.
  unfold GetDisplayName. repeat split.
  - intros H. destruct (String.eqb_spec (Label d) ""); [done|reflexivity].
  - intros -> ->. reflexivity.
  - intros -> H. change (String.eqb "" "") with true. cbn [negb].
    destruct (String.eqb_spec (UUID d) "") as [E|E]; cbn [negb].
    + rewrite E in H. simpl in H. lia.
    + unfold slice_to.
      destruct (Nat.leb_spec 8 (String.length (UUID d))); [reflexivity|lia].
Qed.

(** C10 (the code panics where the claim promises a string): with an empty
    label and an identifier of one to seven bytes, [d.UUID[:8]] is out of
    range and [GetDisplayName] panics instead of returning. *)
Theorem GetDisplayName_short_UUID_panics d :
  Label d = "" → UUID d ≠ "" → (String.length (UUID d) < 8)%nat →
  ∃ msg, GetDisplayName d = Panic msg.
Proof.
  intros HL HU Hlen. unfold GetDisplayName. rewrite HL. simpl.
  destruct (String.eqb_spec (UUID d) "") as [E|_]; [done|]. simpl.
  unfold slice_to. destruct (Nat.leb_spec 8 (String.length (UUID d))); [lia|].
  eauto.
Qed.

Lemma GetDisplayName_short_UUID_panics_witness :
  ∃ msg, GetDisplayName (named "sdb1" "" "1234") = Panic msg.
Proof.
  apply GetDisplayName_short_UUID_panics; simpl; [reflexivity | discriminate | lia].
Defined.

(** The panic reaches the callers: no mount directory for such a record. *)
Lemma GetMountDirectory_short_UUID_panics base :
  ∃ msg, GetMountDirectory (named "sdb1" "" "1234") base = Panic msg.
Proof. unfold GetMountDirectory. simpl. eauto. Qed.

(** Is [p] strictly below the directory [base]? *)
Definition strictly_inside (base p : string) : bool :=
  strings.HasPrefix p (filepath.Clean base +:+ "/")
  && negb (String.eqb p (filepath.Clean base +:+ "/")).

(** The bytes of an identifier: letters, digits, [-] and [_]. *)
Definition safe_byte (c : ascii) : bool :=
  let n := nat_of_ascii c in
  (Nat.leb 48 n && Nat.leb n 57) || (Nat.leb 65 n && Nat.leb n 90)
  || (Nat.leb 97 n && Nat.leb n 122) || Nat.eqb n 45 || Nat.eqb n 95.

Fixpoint all_bytes (p : ascii → bool) (s : string) : bool :=
  match s with
  | EmptyString => true
  | String c s' => p c && all_bytes p s'
  end.

(** Byte by byte. *)
Fixpoint map_bytes (f : ascii → ascii) (s : string) : string :=
  match s with
  | EmptyString => EmptyString
  | String c s' => String (f c) (map_bytes f s')
  end.

(** What the two replacements do to one byte. *)
Definition underscore_slash_space (c : ascii) : ascii :=
  if Ascii.eqb c "/" || Ascii.eqb c " " then "_"%char else c.

Lemma HasPrefix_empty (s : string) : strings.HasPrefix s "" = true.
Proof. by destruct s. Qed.

Lemma ReplaceAll_byte (a b : ascii) (s : string) :
  strings.ReplaceAll s (String a "") (String b "")
  = map_bytes (fun c => if Ascii.eqb a c then b else c) s.
Proof.
  unfold strings.ReplaceAll. induction s as [|c s IH]; [reflexivity|].
  cbn [strings.replace_from strings.HasPrefix map_bytes String.length Nat.sub].
  destruct (Ascii.eqb a c); rewrite ?HasPrefix_empty; cbn [String.append];
    by rewrite IH.
Qed.

(** The whole of the sanitizing: [/] and the space become [_], every other
    byte stays. *)
Lemma sanitize_bytewise (name : string) :
  sanitize name = map_bytes underscore_slash_space name.
Proof.
  unfold sanitize. rewrite !ReplaceAll_byte.
  induction name as [|c name IH]; [reflexivity|].
  cbn [map_bytes]. rewrite IH. f_equal. unfold underscore_slash_space.
  rewrite (Ascii.eqb_sym c "/"), (Ascii.eqb_sym c " ").
  destruct (Ascii.eqb "/" c) eqn:E1; [reflexivity|].
  destruct (Ascii.eqb " " c) eqn:E2; reflexivity.
Qed.

(** C1 (the code keeps what the claim wants replaced): the sanitizing
    replaces [/] and the space and nothing else. A label [..] yields the
    directory above the base, a label with shell characters is kept as it
    is, and so is a leading dot. *)
Theorem GetMountDirectory_not_sanitized :
  (∀ name, sanitize name = map_bytes underscore_slash_space name)
  ∧ GetMountDirectory (named "da0p1" ".." "") "/media" = Ret "/"
  ∧ strictly_inside "/media" "/" = false
  ∧ GetMountDirectory (named "da0p1" "a;b$(c)|d" "") "/media" = Ret "/media/a;b$(c)|d"
  ∧ all_bytes safe_byte (sanitize "a;b$(c)|d") = false
  ∧ GetMountDirectory (named "da0p1" ".ssh" "") "/media" = Ret "/media/.ssh"
  ∧ GetMountDirectory (named "da0p1" "x/../../etc" "") "/media" = Ret "/media/x_.._.._etc".
Proof. split; [exact sanitize_bytewise|]. repeat split; reflexivity. Qed.

(** ** Event hooks *)

Definition no_notifications : NotificationConfig :=
  let off := mkFloat false (-1000) in
  mkNotificationConfig false off off off off off off off off.

(** A configuration with the given hooks, the base [/media], no file
    manager and no notifications. *)
Definition config_with_hooks (hooks : gmap string string) : Config :=
  mkConfig true "/media" "" no_notifications [] hooks ∅
           (mkGELIConfig true "" 0 ∅).

(** A host on which every command succeeds silently, nothing is typed and
    the scan finds nothing. *)
Definition quiet_host : Host :=
  mkHost (fun _ _ => mkExecResult "" None) (fun _ => ("", None)) (fun _ => ([], None)).

Definition empty_state : State := mkState ∅ 1%positive ∅ ∅ ∅ [].

(** The shell line [executeEventHook] builds for a record. *)
Definition hook_line (hookCmd : string) (dev : Device) : string :=
  strings.ReplaceAll
    (strings.ReplaceAll
       (strings.ReplaceAll
          (strings.ReplaceAll hookCmd "{device}" (Path dev))
          "{label}" (Label dev))
       "{uuid}" (UUID dev))
    "{mount_point}" (MountPoint dev).

(** Whatever the hook and the record, the one command started is the shell
    with the substituted line as its script. *)
Lemma executeEventHook_runs_shell config event l st dev hookCmd :
  EventHooks config !! event = Some hookCmd →
  heap st !! l = Some dev →
  executeEventHook config event l st
  = (Ret tt,
     add_trace (AGo (mkCmd "sh" ["-c"; hook_line hookCmd dev] None))
       (add_trace (ALog ("Executing event hook for " +:+ event +:+ ": "
                           +:+ hook_line hookCmd dev)) st)).
Proof.
  intros Hh Hd. unfold executeEventHook. rewrite Hh.
  unfold bind, load. rewrite Hd. reflexivity.
Qed.

(** A hook that shows the label, and a record whose label ends a command and
    starts another. *)
Definition label_hook : Config :=
  config_with_hooks {[ "device_mounted" := "notify-send {label}" ]}.

Definition two_command_label : Device := named "da0p1" "x; touch /tmp/pwned" "".

(** C2 (the code does what the claim rules out): the attributes are pasted
    into one line that the shell then parses. With the hook
    [notify-send {label}] and the label [x; touch /tmp/pwned] the command
    started is [sh -c "notify-send x; touch /tmp/pwned"]: the label is no
    argument of its own and its [;] is shell syntax. *)
Theorem executeEventHook_interpolates_into_shell :
  trace (executeEventHook label_hook "device_mounted" 1%positive
           (set_heap (insert 1%positive two_command_label) empty_state)).2
  = [ALog "Executing event hook for device_mounted: notify-send x; touch /tmp/pwned";
     AGo (mkCmd "sh" ["-c"; "notify-send x; touch /tmp/pwned"] None)].
Proof. vm_compute. reflexivity. Qed.

(** Propositional goals about equalities of paths and flags. *)
Ltac logic := simpl in *; intuition (subst; try discriminate; try congruence; eauto).

(** ** The poll-diff loop *)

Section PollFacts.

Import Poll.

Implicit Types (known current : gmap string bool) (devs : list Device)
         (order : list string) (p : string).

(** The keys the first loop stores. *)
Definition mark devs (m : gmap string bool) : gmap string bool :=
  fold_left (fun m d => <[Path d := true]> m) devs m.

(** The records that are new when their turn comes: not known before the
    tick and not seen earlier in the same scan. *)
Fixpoint first_new known devs : list Device :=
  match devs with
  | [] => []
  | d :: rest =>
      if get known (Path d) then first_new known rest
      else d :: first_new (<[Path d := true]> known) rest
  end.

(** The keys the second loop finds gone. *)
Definition gone current order : list string :=
  filter (fun p => get current p = false) order.

Lemma get_true m p : get m p = true ↔ m !! p = Some true.
Proof.
  unfold get. destruct (m !! p) as [[]|]; simpl; split; congruence.
Qed.

Lemma get_insert m p q : get (<[q := true]> m) p = if decide (q = p) then true else get m p.
Proof.
  unfold get. rewrite lookup_insert. destruct (decide (q = p)); reflexivity.
Qed.

Lemma get_all_true m p : all_true m → (get m p = true ↔ is_Some (m !! p)).
Proof.
  intros Hm. rewrite get_true. split; [eauto|].
  intros [b Hb]. by rewrite Hb, (Hm _ _ Hb).
Qed.

Lemma mark_cons d devs m : mark (d :: devs) m = mark devs (<[Path d := true]> m).
Proof. reflexivity. Qed.

Lemma lookup_mark devs m p :
  mark devs m !! p = if decide (p ∈ Path <$> devs) then Some true else m !! p.
Proof.
  revert m. induction devs as [|d devs IH]; intros m; [reflexivity|].
  rewrite mark_cons, IH, fmap_cons.
  destruct (decide (p ∈ Path <$> devs)) as [Hin|Hin].
  - rewrite decide_True; [done|]. by apply elem_of_cons; right.
  - rewrite lookup_insert. destruct (decide (Path d = p)) as [<-|Hne].
    + rewrite decide_True; [done|]. by apply elem_of_cons; left.
    + rewrite decide_False; [done|]. rewrite elem_of_cons. logic.
Qed.

Lemma get_mark devs m p : get (mark devs m) p = true ↔ get m p = true ∨ p ∈ Path <$> devs.
Proof.
  rewrite !get_true, lookup_mark. destruct (decide (p ∈ Path <$> devs)); logic.
Qed.

Lemma all_true_mark devs m : all_true m → all_true (mark devs m).
Proof.
  intros Hm p b. rewrite lookup_mark.
  destruct (decide (p ∈ Path <$> devs)); [congruence|apply Hm].
Qed.

Lemma addLoop_from devs known current events :
  fold_left addStep devs (known, current, events)
  = (mark devs known, mark devs current, events ++ (DeviceAdded <$> first_new known devs)).
Proof.
  revert known current events.
  induction devs as [|d devs IH]; intros known current events.
  - simpl. by rewrite app_nil_r.
  - rewrite !mark_cons. cbn [fold_left first_new addStep].
    destruct (get known (Path d)) eqn:Hg; cbn [negb]; rewrite IH.
    + apply get_true in Hg. by rewrite (insert_id known).
    + by rewrite fmap_cons, <- app_assoc.
Qed.

Lemma addLoop_eq known devs :
  addLoop known devs
  = (mark devs known, mark devs ∅, DeviceAdded <$> first_new known devs).
Proof. unfold addLoop. by rewrite addLoop_from. Qed.

Lemma removeLoop_from current order known events :
  fold_left (removeStep current) order (known, events)
  = (fold_left (fun m p => delete p m) (gone current order) known,
     events ++ (DeviceRemoved <$> gone current order)).
Proof.
  revert known events. unfold gone.
  induction order as [|p order IH]; intros known events.
  - simpl. by rewrite app_nil_r.
  - cbn [fold_left removeStep]. rewrite filter_cons.
    destruct (decide (get current p = false)) as [Hg|Hg].
    + rewrite Hg. cbn [negb]. rewrite IH, fmap_cons. cbn [fold_left].
      by rewrite <- app_assoc.
    + apply not_false_is_true in Hg. rewrite Hg. cbn [negb]. apply IH.
Qed.

(** What a tick emits and what it remembers, in closed form. *)
Lemma tick_eq known devs order :
  tick known devs order
  = (fold_left (fun m p => delete p m) (gone (mark devs ∅) order) (mark devs known),
     (DeviceAdded <$> first_new known devs)
       ++ (DeviceRemoved <$> gone (mark devs ∅) order)).
Proof. unfold tick. rewrite addLoop_eq. apply removeLoop_from. Qed.

Lemma known_after_add_eq known devs : known_after_add known devs = mark devs known.
Proof. unfold known_after_add. by rewrite addLoop_eq. Qed.

Lemma added_paths_app e1 e2 : added_paths (e1 ++ e2) = added_paths e1 ++ added_paths e2.
Proof. apply omap_app. Qed.

Lemma removed_paths_app e1 e2 :
  removed_paths (e1 ++ e2) = removed_paths e1 ++ removed_paths e2.
Proof. apply omap_app. Qed.

Lemma added_paths_Added devs : added_paths (DeviceAdded <$> devs) = Path <$> devs.
Proof. induction devs; simpl; [done|]. unfold added_paths in *. simpl. by f_equal. Qed.

Lemma added_paths_Removed ps : added_paths (DeviceRemoved <$> ps) = [].
Proof. induction ps; simpl; [done|]. unfold added_paths in *. by simpl. Qed.

Lemma removed_paths_Removed ps : removed_paths (DeviceRemoved <$> ps) = ps.
Proof. induction ps; simpl; [done|]. unfold removed_paths in *. simpl. by f_equal. Qed.

Lemma removed_paths_Added devs : removed_paths (DeviceAdded <$> devs) = [].
Proof. induction devs; simpl; [done|]. unfold removed_paths in *. by simpl. Qed.

Lemma tick_added_paths known devs order :
  added_paths (tick known devs order).2 = Path <$> first_new known devs.
Proof.
  rewrite tick_eq. simpl.
  by rewrite added_paths_app, added_paths_Added, added_paths_Removed, app_nil_r.
Qed.

Lemma tick_removed_paths known devs order :
  removed_paths (tick known devs order).2 = gone (mark devs ∅) order.
Proof.
  rewrite tick_eq. simpl.
  by rewrite removed_paths_app, removed_paths_Added, removed_paths_Removed.
Qed.

Lemma first_new_paths known devs p :
  p ∈ Path <$> first_new known devs ↔ p ∈ Path <$> devs ∧ get known p = false.
Proof.
  revert known. induction devs as [|d devs IH]; intros known.
  - simpl. rewrite elem_of_nil. logic.
  - cbn [first_new]. destruct (get known (Path d)) eqn:Hg.
    + rewrite IH, fmap_cons, elem_of_cons. split; [logic|].
      intros [[->|?] ?]; [congruence|done].
    + rewrite !fmap_cons, !elem_of_cons, IH, get_insert.
      destruct (decide (Path d = p)) as [<-|Hne]; logic.
Qed.

Lemma first_new_NoDup known devs : NoDup (Path <$> first_new known devs).
Proof.
  revert known. induction devs as [|d devs IH]; intros known.
  - constructor.
  - cbn [first_new]. destruct (get known (Path d)) eqn:Hg; [apply IH|].
    rewrite fmap_cons. constructor; [|apply IH].
    rewrite first_new_paths, get_insert, decide_True by done. logic.
Qed.

Lemma first_new_sublist known devs : first_new known devs `sublist_of` devs.
Proof.
  revert known. induction devs as [|d devs IH]; intros known; simpl; [done|].
  destruct (get known (Path d)); [by apply sublist_cons|by apply sublist_skip].
Qed.

Lemma get_current devs p : get (mark devs ∅) p = true ↔ p ∈ Path <$> devs.
Proof. rewrite get_mark. unfold get. rewrite lookup_empty. logic. Qed.

Lemma gone_elem devs order p :
  p ∈ gone (mark devs ∅) order ↔ p ∈ order ∧ p ∉ Path <$> devs.
Proof.
  unfold gone. rewrite list_elem_of_filter, <- get_current.
  destruct (get (mark devs ∅) p); logic.
Qed.

Lemma range_order_elem m order p : range_order m order → (p ∈ order ↔ is_Some (m !! p)).
Proof.
  intros Hp. rewrite Hp, list_elem_of_fmap. split.
  - intros [[q b] [-> Hin]]. apply elem_of_map_to_list in Hin. simpl. eauto.
  - intros [b Hb]. exists (p, b). split; [done|]. by apply elem_of_map_to_list.
Qed.

Lemma range_order_NoDup m order : range_order m order → NoDup order.
Proof. intros Hp. rewrite Hp. apply NoDup_fst_map_to_list. Qed.

End PollFacts.

Section PollClaims.

Import Poll.

Implicit Types (known : gmap string bool) (devs : list Device)
         (order : list string) (p : string).

(** A tick whose scan failed emits nothing and forgets nothing. *)
Lemma pollTick_failed_scan known devs err order :
  pollTick known (devs, Some err) order = (known, []).
Proof. reflexivity. Qed.

Lemma pollTick_scanned known devs order :
  pollTick known (devs, None) order = tick known devs order.
Proof. reflexivity. Qed.

Lemma lookup_delete_all (ps : list string) (m : gmap string bool) p :
  fold_left (fun m p => delete p m) ps m !! p
  = if decide (p ∈ ps) then None else m !! p.
Proof.
  revert m. induction ps as [|q ps IH]; intros m; [reflexivity|].
  cbn [fold_left]. rewrite IH.
  destruct (decide (p ∈ ps)) as [Hin|Hin].
  - rewrite decide_True; [done|]. by apply elem_of_cons; right.
  - rewrite lookup_delete. destruct (decide (q = p)) as [<-|Hne].
    + rewrite decide_True; [done|]. by apply elem_of_cons; left.
    + rewrite decide_False; [done|]. rewrite elem_of_cons. logic.
Qed.

(** After a tick the loop knows the paths of the scan and no others, and
    every value it holds is still [true]. *)
Lemma tick_known known devs order :
  all_true known → range_order (known_after_add known devs) order →
  all_true (tick known devs order).1
  ∧ ∀ p, get (tick known devs order).1 p = true ↔ p ∈ Path <$> devs.
Proof.
  intros Hk Ho. rewrite known_after_add_eq in Ho. rewrite tick_eq. cbn [fst].
  split.
  - intros p b. rewrite lookup_delete_all.
    destruct (decide _); [done|]. by apply all_true_mark.
  - intros p. rewrite get_true, lookup_delete_all.
    destruct (decide (p ∈ gone (mark devs ∅) order)) as [Hg|Hg].
    + apply gone_elem in Hg as [_ Hn]. split; [done|]. intros Hin. by destruct Hn.
    + rewrite lookup_mark.
      destruct (decide (p ∈ Path <$> devs)) as [Hin|Hin]; [done|].
      split; [|done]. intros Hb. destruct Hg. apply gone_elem. split; [|done].
      apply (range_order_elem _ _ _ Ho). rewrite lookup_mark, decide_False by done.
      eauto.
Qed.

(** The calls that are due in a tick whose scan succeeded, the handlers
    left aside: [onDeviceAdded] for exactly the paths of the scan that were
    not known, with a record of the scan, once each; [onDeviceRemoved] for
    exactly the known paths the scan lacks, once each; a path that is known
    and scanned gets neither call, and no path gets both. *)
Lemma diff_adds_and_removes_exactly known devs order :
  all_true known →
  range_order (known_after_add known devs) order →
  let events := (tick known devs order).2 in
  (∀ p, p ∈ added_paths events ↔ p ∈ Path <$> devs ∧ get known p = false)
  ∧ (∀ p, p ∈ removed_paths events ↔ get known p = true ∧ p ∉ Path <$> devs)
  ∧ (∀ d, DeviceAdded d ∈ events → d ∈ devs)
  ∧ NoDup (added_paths events)
  ∧ NoDup (removed_paths events)
  ∧ (∀ p, get known p = true → p ∈ Path <$> devs →
          (p ∉ added_paths events) ∧ (p ∉ removed_paths events))
  ∧ (∀ p, p ∈ added_paths events → p ∉ removed_paths events).
Proof.
  intros Hk Ho events. rewrite known_after_add_eq in Ho.
  assert (Hadd : ∀ p, p ∈ added_paths events
                      ↔ p ∈ Path <$> devs ∧ get known p = false).
  { intros p. unfold events. rewrite tick_added_paths. apply first_new_paths. }
  assert (Hrem : ∀ p, p ∈ removed_paths events
                      ↔ get known p = true ∧ p ∉ Path <$> devs).
  { intros p. unfold events. rewrite tick_removed_paths, gone_elem.
    rewrite (range_order_elem _ _ _ Ho), lookup_mark, (get_all_true _ _ Hk).
    destruct (decide (p ∈ Path <$> devs)); logic. }
  split; [exact Hadd|]. split; [exact Hrem|].
  split; [|split; [|split; [|split]]].
  - intros d. unfold events. rewrite tick_eq. cbn [snd].
    rewrite elem_of_app, !list_elem_of_fmap.
    intros [[d' [[= ->] Hin]]|[q [[=] _]]].
    by eapply elem_of_sublist; [|apply first_new_sublist].
  - unfold events. rewrite tick_added_paths. apply first_new_NoDup.
  - unfold events. rewrite tick_removed_paths. unfold gone.
    apply NoDup_filter. by eapply range_order_NoDup.
  - intros p Hp Hin. rewrite Hadd, Hrem. split; intros [? ?]; [congruence|done].
  - intros p Hp. rewrite Hrem. intros [_ Hn]. apply Hn. by apply Hadd.
Qed.

(** The order of the calls that are due, the handlers left aside: those for
    added devices come first, in the order of the scan result, one for each
    new path at its first occurrence; those for removed devices follow in
    the order in which the map is visited. Another visit gives the same
    first part and the same known paths. *)
Lemma diff_in_scan_then_visit_order known devs order :
  (tick known devs order).2
  = (DeviceAdded <$> first_new known devs)
      ++ (DeviceRemoved <$> gone (mark devs ∅) order)
  ∧ first_new known devs `sublist_of` devs
  ∧ gone (mark devs ∅) order `sublist_of` order
  ∧ ∀ order', order' ≡ₚ order →
      (tick known devs order').1 = (tick known devs order).1
      ∧ added_paths (tick known devs order').2 = added_paths (tick known devs order).2
      ∧ removed_paths (tick known devs order').2 ≡ₚ removed_paths (tick known devs order).2.
Proof.
  split; [by rewrite tick_eq|]. split; [apply first_new_sublist|].
  split; [apply sublist_filter|].
  intros order' Hp. split; [|split].
  - rewrite !tick_eq. cbn [fst]. apply map_eq. intros p.
    rewrite !lookup_delete_all.
    destruct (decide (p ∈ gone (mark devs ∅) order')) as [H1|H1];
      destruct (decide (p ∈ gone (mark devs ∅) order)) as [H2|H2]; try done;
      rewrite gone_elem in H1, H2; rewrite Hp in H1; logic.
  - by rewrite !tick_added_paths.
  - rewrite !tick_removed_paths. unfold gone. by rewrite Hp.
Qed.

End PollClaims.

Section PollExamples.

Import Poll.

Definition da0 : Device := named "da0" "" "".
Definition da1 : Device := named "da1" "" "".

Lemma all_true_singleton p : all_true {[ p := true ]}.
Proof. intros k b [_ <-]%lookup_singleton_Some. reflexivity. Qed.

Definition knows_da0 : gmap string bool := {[ "/dev/da0" := true ]}.

Definition knows_both : gmap string bool :=
  {[ "/dev/da0" := true; "/dev/da1" := true ]}.

(** C4 as stated fails: with nothing known and a scan that lists [da1]
    before [da0], the call for [/dev/da1] comes first although [/dev/da0]
    is the smaller path; and with two known paths and an empty scan, both
    orders of the two removals are ticks the program can make. *)
Lemma tick_not_in_path_order :
  tick_rel ∅ [da1; da0] (knows_both, [DeviceAdded da1; DeviceAdded da0])
  ∧ ("/dev/da0" <? "/dev/da1")%string = true
  ∧ tick_rel knows_both [] (∅, [DeviceRemoved "/dev/da0"; DeviceRemoved "/dev/da1"])
  ∧ tick_rel knows_both [] (∅, [DeviceRemoved "/dev/da1"; DeviceRemoved "/dev/da0"]).
Proof.
  split; [|split; [reflexivity|split]].
  - exists ["/dev/da1"; "/dev/da0"]. split; [|by vm_compute].
    unfold range_order. vm_compute. reflexivity.
  - exists ["/dev/da0"; "/dev/da1"]. split; [|by vm_compute].
    unfold range_order. vm_compute. apply Permutation_swap.
  - exists ["/dev/da1"; "/dev/da0"]. split; [|by vm_compute].
    unfold range_order. vm_compute. reflexivity.
Qed.

End PollExamples.

(** ** Discovery: what a failing tool does to a scan *)

Section ScanFacts.

Import Discovery.

Variable env : Env.
Variable m : Parsers.

Definition geom : Cmd := mkCmd "geom" ["disk"; "list"] None.

Lemma scanFreeBSD_error :
  (scanFreeBSD env m).2 ≠ None ↔ exec_err (Output env geom) ≠ None.
Proof.
  unfold scanFreeBSD, geom. destruct (exec_err (Output env _)); simpl; split; congruence.
Qed.

Lemma scanLinuxFallback_error :
  (scanLinuxFallback env m).2 ≠ None ↔ (ReadDir env "/sys/block").2 ≠ None.
Proof.
  unfold scanLinuxFallback. destruct (ReadDir env _) as [names [err|]]; simpl;
    split; congruence.
Qed.

Lemma scanLinux_error :
  (scanLinux env m).2 ≠ None
  ↔ exec_err (Output env lsblk) ≠ None ∧ (ReadDir env "/sys/block").2 ≠ None.
Proof.
  unfold scanLinux. destruct (exec_err (Output env lsblk)) as [err|].
  - rewrite scanLinuxFallback_error. logic.
  - simpl. logic.
Qed.

(** Each scanning procedure returns no records together with an error. *)
Lemma scan_error_no_devices (r : list Device * option string) :
  r = scanFreeBSD env m ∨ r = scanLinuxFallback env m ∨ r = scanLinux env m
  ∨ r = Scan env m →
  r.2 ≠ None → r.1 = [].
Proof.
  assert (HF : (scanLinuxFallback env m).2 ≠ None → (scanLinuxFallback env m).1 = []).
  { unfold scanLinuxFallback. destruct (ReadDir env _) as [names [err|]]; simpl; congruence. }
  intros [-> | [-> | [-> | ->]]]; [| exact HF | |].
  - unfold scanFreeBSD. destruct (exec_err (Output env _)); simpl; congruence.
  - unfold scanLinux. destruct (exec_err (Output env lsblk)); [exact HF|simpl; congruence].
  - unfold Scan. destruct (if String.eqb (GOOS env) "freebsd" then _ else _) as [ds [e|]];
      simpl; congruence.
Qed.

Lemma Scan_freebsd : GOOS env = "freebsd" → Scan env m = scanFreeBSD env m.
Proof.
  intros H. unfold Scan. rewrite H. simpl.
  pose proof (scan_error_no_devices (scanFreeBSD env m)) as Hn.
  destruct (scanFreeBSD env m) as [ds [e|]]; [|reflexivity].
  simpl in Hn. rewrite Hn; [reflexivity|by left|done].
Qed.

Lemma Scan_linux : GOOS env = "linux" → Scan env m = scanLinux env m.
Proof.
  intros H. unfold Scan. rewrite H. simpl.
  pose proof (scan_error_no_devices (scanLinux env m)) as Hn.
  destruct (scanLinux env m) as [ds [e|]]; [|reflexivity].
  simpl in Hn. rewrite Hn; [reflexivity|by right; right; left|done].
Qed.

(** An entry of [/sys/block] whose [removable] file cannot be read is left
    out, and nothing is said. *)
Lemma scanLinuxFallback_entry_unreadable devices name :
  (ReadFile env (filepath.Join ["/sys/block"; name; "removable"])).2 ≠ None →
  scanLinuxFallback_entry env m devices name = devices.
Proof.
  unfold scanLinuxFallback_entry.
  by destruct (ReadFile env _) as [data [err|]].
Qed.

(** C5, as the code has it. On Linux a failing [lsblk] makes the scan read
    [/sys/block] instead, and the scan fails only if that fails too; an
    entry of [/sys/block] that cannot be read is skipped without an error.
    On FreeBSD there is one way to list disks: the scan fails exactly when
    [geom] fails. On any other system the scan fails. A failing scan
    returns the error and no records. *)
Theorem Scan_failure_policy :
  ((Scan env m).2 ≠ None → (Scan env m).1 = [])
  ∧ (GOOS env = "linux" →
     (exec_err (Output env lsblk) ≠ None → Scan env m = scanLinuxFallback env m)
     ∧ ((Scan env m).2 ≠ None
        ↔ exec_err (Output env lsblk) ≠ None ∧ (ReadDir env "/sys/block").2 ≠ None))
  ∧ (GOOS env = "freebsd" →
     ((Scan env m).2 ≠ None ↔ exec_err (Output env geom) ≠ None)
     ∧ ∀ err, exec_err (Output env geom) = Some err →
              Scan env m = ([], Some ("failed to list disks: " +:+ err)))
  ∧ (GOOS env ≠ "freebsd" → GOOS env ≠ "linux" →
     Scan env m = ([], Some ("unsupported operating system: " +:+ GOOS env)))
  ∧ (∀ devices name,
       (ReadFile env (filepath.Join ["/sys/block"; name; "removable"])).2 ≠ None →
       scanLinuxFallback_entry env m devices name = devices).
Proof.
  split; [|split; [|split; [|split; [|apply scanLinuxFallback_entry_unreadable]]]].
  - apply scan_error_no_devices. auto.
  - intros H. rewrite (Scan_linux H). split; [|apply scanLinux_error].
    intros Hl. unfold scanLinux. destruct (exec_err (Output env lsblk)); done.
  - intros H. rewrite (Scan_freebsd H). split; [apply scanFreeBSD_error|].
    intros err He. unfold scanFreeBSD. fold geom. by rewrite He.
  - intros H1 H2. unfold Scan.
    destruct (String.eqb_spec (GOOS env) "freebsd"); [done|].
    destruct (String.eqb_spec (GOOS env) "linux"); [done|]. reflexivity.
Qed.

End ScanFacts.

Section ScanExamples.

Import Discovery.

(** Parsers that find one disk [da0] and one removable [sdb]. *)
Definition sample_parsers : Parsers :=
  mkParsers (fun _ => [named "da0" "" ""]) (fun _ => true) (fun _ => ([], None))
            (fun _ => [named "sdb" "" ""]) (fun _ => []).

Definition fails (c : Cmd) (name : string) : ExecResult :=
  if String.eqb (cmd_name c) name then mkExecResult "" (Some "exit status 1")
  else mkExecResult "" None.

(** A host on which only [tool] fails; [/sys/block] lists [sdb], which is
    removable and has 2048 sectors. *)
Definition host_without (os tool : string) : Env :=
  mkEnv os (fun c => fails c tool)
        (fun _ => (["sdb"], None))
        (fun path => if String.eqb path "/sys/block/sdb/removable" then ("1", None)
                     else ("2048", None)).

(** A Linux host without [lsblk] on which [/sys/block] lists [sdb] but no
    file below it can be read. *)
Definition host_unreadable : Env :=
  mkEnv "linux" (fun c => fails c "lsblk")
        (fun _ => (["sdb"], None))
        (fun _ => ("", Some "permission denied")).

(** C5 as stated fails: on FreeBSD a failing [geom] fails the whole scan
    although every other tool and [/sys/block] would have answered; and on
    Linux the fallback returns an empty list and no error when the entries
    of [/sys/block] cannot be read. *)
Lemma Scan_freebsd_no_fallback :
  exec_err (Output (host_without "freebsd" "geom") geom) = Some "exit status 1"
  ∧ exec_err (Output (host_without "freebsd" "geom") lsblk) = None
  ∧ (ReadDir (host_without "freebsd" "geom") "/sys/block").2 = None
  ∧ Scan (host_without "freebsd" "geom") sample_parsers
    = ([], Some "failed to list disks: exit status 1")
  ∧ Scan host_unreadable sample_parsers = ([], None).
Proof. repeat split; vm_compute; reflexivity. Qed.

Example Scan_linux_falls_back :
  Scan (host_without "linux" "lsblk") sample_parsers
  = ([mkDevice "sdb" "/dev/sdb" "" "" "" 1048576 "" false false false false true 0],
     None).
Proof. vm_compute. reflexivity. Qed.

Lemma Scan_failure_policy_witness :
  GOOS (host_without "linux" "lsblk") = "linux"
  ∧ exec_err (Output (host_without "linux" "lsblk") lsblk) ≠ None
  ∧ Scan (host_without "linux" "lsblk") sample_parsers
    = scanLinuxFallback (host_without "linux" "lsblk") sample_parsers.
Proof.
  split; [reflexivity|]. split; [vm_compute; discriminate|].
  apply (Scan_failure_policy (host_without "linux" "lsblk") sample_parsers).
  - reflexivity.
  - vm_compute. discriminate.
Defined.

End ScanExamples.

(** ** The daemon: what each procedure touches *)

(** [st'] has the memory of [st]: the records, both maps and the file
    system are the same. *)
Definition same_memory (st st' : State) : Prop :=
  heap st' = heap st ∧ next st' = next st ∧ mounted st' = mounted st
  ∧ devices st' = devices st ∧ fs st' = fs st.

(** From [st] to [st'] the memory is kept and every new action satisfies [P]. *)
Definition acts_only (P : Action → Prop) (st st' : State) : Prop :=
  same_memory st st' ∧ ∃ acts, trace st' = trace st ++ acts ∧ Forall P acts.

(** A computation that keeps the memory and performs actions in [P] only. *)
Definition only {A} (P : Action → Prop) (m : M A) : Prop :=
  ∀ st, acts_only P st (m st).2.

Lemma same_memory_refl st : same_memory st st.
Proof. by repeat split. Qed.

Lemma acts_only_refl P st : acts_only P st st.
Proof.
  split; [apply same_memory_refl|]. exists []. by rewrite app_nil_r.
Qed.

Lemma acts_only_trans P st1 st2 st3 :
  acts_only P st1 st2 → acts_only P st2 st3 → acts_only P st1 st3.
Proof.
  intros [(?&?&?&?&?) (a1&T1&F1)] [(?&?&?&?&?) (a2&T2&F2)].
  split; [repeat split; congruence|].
  exists (a1 ++ a2). split; [by rewrite T2, T1, app_assoc|by apply Forall_app].
Qed.

Lemma acts_only_add P a st : P a → acts_only P st (add_trace a st).
Proof.
  intros Ha. split; [by repeat split|]. exists [a]. split; [done|]. by constructor.
Qed.

Lemma only_run {A} P (m : M A) st o st' : only P m → m st = (o, st') → acts_only P st st'.
Proof. intros Hm E. specialize (Hm st). by rewrite E in Hm. Qed.

Lemma only_ret {A} P (a : A) : only P (ret a).
Proof. intros st. apply acts_only_refl. Qed.

Lemma only_lift {A} P (o : Outcome A) : only P (lift o).
Proof. intros st. apply acts_only_refl. Qed.

Lemma only_load P l : only P (load l).
Proof. intros st. unfold load. destruct (heap st !! l); apply acts_only_refl. Qed.

Lemma only_do P a : P a → only P (do_ a).
Proof. intros Ha st. by apply acts_only_add. Qed.

Lemma only_bind {A B} P (m : M A) (f : A → M B) :
  only P m → (∀ a, only P (f a)) → only P (bind m f).
Proof.
  intros Hm Hf st. unfold bind. specialize (Hm st).
  destruct (m st) as [[a|msg] st1]; [|exact Hm].
  eapply acts_only_trans; [exact Hm|apply Hf].
Qed.

Lemma only_exec P host c : (∀ r, P (AExec c r)) → only P (exec host c).
Proof. intros Hc st. by apply acts_only_add. Qed.

Lemma only_ReadLine P host : (∀ s e, P (AReadLine s e)) → only P (ReadLine host).
Proof. intros Hc st. by apply acts_only_add. Qed.

Lemma only_displayName P l : only P (displayName l).
Proof. apply only_bind; [apply only_load|intros; apply only_lift]. Qed.

Lemma only_notify_if P config t title body :
  (∀ b ms, P (ANotify title b ms)) → only P body → only P (notify_if config t title body).
Proof.
  intros HP Hb. unfold notify_if. destruct (_ && _); [|apply only_ret].
  apply only_bind; [done|]. intros b. by apply only_do.
Qed.

Lemma only_executeEventHook P config event l :
  (∀ s, P (ALog s)) → (∀ c, P (AGo c)) → only P (executeEventHook config event l).
Proof.
  intros HL HG. unfold executeEventHook. destruct (_ !! _); [|apply only_ret].
  apply only_bind; [apply only_load|]. intros dev.
  apply only_bind; [by apply only_do|]. intros _. by apply only_do.
Qed.

(** Actions that are no attempt to mount: no directory is made and the mount
    tool is not run. *)
Definition no_mount_attempt (a : Action) : Prop :=
  match a with
  | AMkdirAll _ _ => False
  | AExec c _ => cmd_name c ≠ "mount"
  | _ => True
  end.

(** Actions that neither run a tool nor touch the file system. *)
Definition talk (a : Action) : Prop :=
  match a with
  | ALog _ | APrint _ | ANotify _ _ _ | AGo _ => True
  | _ => False
  end.

Lemma talk_no_mount_attempt a : talk a → no_mount_attempt a.
Proof. by destruct a. Qed.

Lemma acts_only_weaken (P Q : Action → Prop) st st' :
  (∀ a, P a → Q a) → acts_only P st st' → acts_only Q st st'.
Proof.
  intros HPQ [Hm (acts&Ht&Hf)]. split; [done|]. exists acts. split; [done|].
  eapply Forall_impl; eauto.
Qed.

Lemma only_getPassword host config l : only no_mount_attempt (getPassword host config l).
Proof.
  unfold getPassword. destruct (negb _).
  - apply only_bind; [by apply only_exec|]. intros r.
    destruct (exec_err r); apply only_ret.
  - apply only_bind; [apply only_displayName|]. intros name.
    apply only_bind; [by apply only_do|]. intros _.
    apply only_bind; [by apply only_ReadLine|]. intros r.
    destruct (r.2); apply only_ret.
Qed.

(** ** Unmounting *)

Section UnmountFacts.

Variable host : Host.
Variable config : Config.

Definition unmount_log (dev : Device) : Action :=
  ALog ("Unmounting " +:+ Path dev +:+ " from " +:+ MountPoint dev).

Definition umount_cmd (dev : Device) : Cmd := mkCmd "umount" [MountPoint dev] None.

(** What the unmount tool answers when [unmountDevice] runs it from [st]. *)
Definition umount_answer (st : State) (dev : Device) : ExecResult :=
  host_exec host (trace st ++ [unmount_log dev]) (umount_cmd dev).

(** The state in which [unmountDevice] has run the tool. *)
Definition after_umount (st : State) (dev : Device) : State :=
  add_trace (AExec (umount_cmd dev) (umount_answer st dev))
            (add_trace (unmount_log dev) st).

(** What follows the removal of the directory in [unmountDevice]. *)
Definition unmount_tail (l : loc) (dev : Device) : M (option string) :=
  run log ("Successfully unmounted " +:+ Path dev);
  run notify_if config (DeviceUnmounted (Notifications config)) "Device Unmounted"
        (do name <- displayName l; ret (name +:+ " unmounted"));
  run executeEventHook config "device_unmounted" l;
  ret None.

(** The bookkeeping of a successful unmount, before the directory goes. *)
Definition unmounted (l : loc) (dev : Device) (st : State) : State :=
  set_mounted (delete (Path dev)) (set_heap (insert l (set_MountPoint "" false dev)) st).

Lemma unmountDevice_eq st l dev :
  heap st !! l = Some dev →
  unmountDevice host config l st
  = if negb (IsMounted dev) then (Ret (Some "device not mounted"), st)
    else match exec_err (umount_answer st dev) with
         | Some err =>
             (Ret (Some ("unmount failed: " +:+ err +:+ " (output: "
                           +:+ output (umount_answer st dev) +:+ ")")),
              after_umount st dev)
         | None =>
             let st1 := unmounted l dev (after_umount st dev) in
             let rm := fsys.Remove (fs st) (MountPoint dev) in
             unmount_tail l dev
               (add_trace (ARemove (MountPoint dev) rm.2) (set_fs rm.1 st1))
         end.
Proof.
  intros Hd. unfold unmountDevice, bind at 1, load. rewrite Hd.
  destruct (IsMounted dev); [|reflexivity]. cbn [negb].
  unfold bind at 1. cbn [log do_]. unfold bind at 1. cbn [exec].
  change (host_exec host _ _) with (umount_answer st dev).
  change (add_trace (AExec _ _) _) with (after_umount st dev).
  destruct (exec_err (umount_answer st dev)) eqn:He; [reflexivity|].
  unfold bind at 1, update, bind at 1, load.
  change (heap (after_umount st dev)) with (heap st). rewrite Hd.
  unfold bind at 1. unfold bind at 1, Remove.
  cbn [fs set_mounted set_heap after_umount add_trace].
  destruct (fsys.Remove (fs st) (MountPoint dev)) as [fs' err].
  reflexivity.
Qed.

Lemma same_memory_after_umount st dev : same_memory st (after_umount st dev).
Proof. by repeat split. Qed.

(** C7: when the unmount tool fails for a record that counts as mounted,
    [unmountDevice] returns the error with the tool's output, and the
    records, the [mounted] map and the file system are as before: the
    record still has its mount point and still counts as mounted, and its
    entry in [mounted] is the same. *)
Theorem unmountDevice_failure_keeps_bookkeeping st l dev err :
  heap st !! l = Some dev →
  IsMounted dev = true →
  exec_err (umount_answer st dev) = Some err →
  unmountDevice host config l st
  = (Ret (Some ("unmount failed: " +:+ err +:+ " (output: "
                  +:+ output (umount_answer st dev) +:+ ")")),
     after_umount st dev)
  ∧ same_memory st (after_umount st dev)
  ∧ heap (after_umount st dev) !! l = Some dev
  ∧ mounted (after_umount st dev) !! Path dev = mounted st !! Path dev
  ∧ trace (after_umount st dev)
    = trace st ++ [unmount_log dev; AExec (umount_cmd dev) (umount_answer st dev)].
Proof.
  intros Hd Hm He. rewrite (unmountDevice_eq _ _ _ Hd), Hm, He. cbn [negb].
  split; [reflexivity|]. split; [apply same_memory_after_umount|].
  split; [exact Hd|]. split; [reflexivity|].
  unfold after_umount. cbn [trace add_trace]. by rewrite <- app_assoc.
Qed.

Lemma only_unmount_tail l dev : only talk (unmount_tail l dev).
Proof.
  unfold unmount_tail, log.
  apply only_bind; [by apply only_do|]. intros _.
  apply only_bind;
    [apply only_notify_if; [done|];
     apply only_bind; [apply only_displayName|intros; apply only_ret]|].
  intros _.
  apply only_bind; [by apply only_executeEventHook|]. intros _. apply only_ret.
Qed.

(** Whenever [unmountDevice] returns an error, the memory is as before. *)
Lemma unmountDevice_error_keeps_memory st l err st' :
  unmountDevice host config l st = (Ret (Some err), st') → same_memory st st'.
Proof.
  destruct (heap st !! l) as [dev|] eqn:Hd.
  - rewrite (unmountDevice_eq _ _ _ Hd).
    destruct (IsMounted dev); cbn [negb].
    + destruct (exec_err (umount_answer st dev)).
      * intros [= _ <-]. apply same_memory_after_umount.
      * cbn zeta. unfold unmount_tail.
        intros E. exfalso. revert E.
        repeat (unfold bind at 1; match goal with
                  |- context [match ?m ?s with _ => _ end] =>
                    destruct (m s) as [[?|?] ?] end; try discriminate).
    + intros [= _ <-]. apply same_memory_refl.
  - unfold unmountDevice, bind, load. rewrite Hd. discriminate.
Qed.

(** A successful unmount: the tool succeeded, the record lost its mount
    point, its path left [mounted], and the directory was given to
    [os.Remove]. *)
Lemma unmountDevice_success st l st' :
  unmountDevice host config l st = (Ret None, st') →
  ∃ dev, heap st !! l = Some dev
         ∧ IsMounted dev = true
         ∧ exec_err (umount_answer st dev) = None
         ∧ heap st' = <[l := set_MountPoint "" false dev]> (heap st)
         ∧ mounted st' = delete (Path dev) (mounted st)
         ∧ devices st' = devices st
         ∧ fs st' = (fsys.Remove (fs st) (MountPoint dev)).1.
Proof.
  destruct (heap st !! l) as [dev|] eqn:Hd.
  - rewrite (unmountDevice_eq _ _ _ Hd).
    destruct (IsMounted dev) eqn:Hm; cbn [negb]; [|discriminate].
    destruct (exec_err (umount_answer st dev)) eqn:He; [discriminate|].
    cbn zeta. intros E.
    apply (only_run _ _ _ _ _ (only_unmount_tail l dev)) in E as [(H1&_&H3&H4&H5) _].
    exists dev. by repeat split.
  - unfold unmountDevice, bind, load. rewrite Hd. discriminate.
Qed.

(** What a successful unmount adds to the trace: the log line, the unmount
    tool, the call of [os.Remove] on the mount point with what it
    returned, and then nothing but talk. *)
Lemma unmountDevice_success_trace st l dev st' :
  heap st !! l = Some dev →
  unmountDevice host config l st = (Ret None, st') →
  ∃ acts,
    trace st'
    = trace st ++ [unmount_log dev; AExec (umount_cmd dev) (umount_answer st dev);
                   ARemove (MountPoint dev) (fsys.Remove (fs st) (MountPoint dev)).2]
               ++ acts
    ∧ Forall talk acts.
Proof.
  intros Hd. rewrite (unmountDevice_eq _ _ _ Hd).
  destruct (IsMounted dev) eqn:Hm; cbn [negb]; [|discriminate].
  destruct (exec_err (umount_answer st dev)) eqn:He; [discriminate|].
  cbn zeta. intros E.
  apply (only_run _ _ _ _ _ (only_unmount_tail l dev)) in E as [_ (acts&Ht&Hf)].
  exists acts. split; [|exact Hf]. rewrite Ht.
  cbn [trace add_trace set_fs unmounted set_mounted set_heap after_umount].
  by rewrite <- !app_assoc.
Qed.

End UnmountFacts.

(** ** Unlocking and mounting *)

(** From [st] to [st'] nothing was mounted and no attempt was made: the
    maps and the file system are the same and no new action is an attempt
    to mount. The records may differ. *)
Definition no_attempt (st st' : State) : Prop :=
  fs st' = fs st ∧ mounted st' = mounted st ∧ devices st' = devices st
  ∧ next st' = next st
  ∧ ∃ acts, trace st' = trace st ++ acts ∧ Forall no_mount_attempt acts.

Lemma no_attempt_refl st : no_attempt st st.
Proof. repeat split. exists []. by rewrite app_nil_r. Qed.

Lemma no_attempt_trans st1 st2 st3 :
  no_attempt st1 st2 → no_attempt st2 st3 → no_attempt st1 st3.
Proof.
  intros (?&?&?&?&a1&T1&F1) (?&?&?&?&a2&T2&F2).
  repeat split; try congruence.
  exists (a1 ++ a2). split; [by rewrite T2, T1, app_assoc|by apply Forall_app].
Qed.

Lemma acts_only_no_attempt P st st' :
  (∀ a, P a → no_mount_attempt a) → acts_only P st st' → no_attempt st st'.
Proof.
  intros HP [(?&?&?&?&?) (acts&T&F)]. repeat split; try done.
  exists acts. split; [done|]. eapply Forall_impl; eauto.
Qed.

Lemma no_attempt_set_heap f st : no_attempt st (set_heap f st).
Proof. repeat split. exists []. by rewrite app_nil_r. Qed.

(** Discharges a goal saying that a computation ending in [ret None] does
    not return an error. *)
Ltac never_error :=
  repeat (unfold bind at 1;
          match goal with
          | |- context [match ?m ?s with _ => _ end] => destruct (m s) as [[?|?] ?]
          end; try discriminate).

Section MountFacts.

Variable host : Host.
Variable config : Config.

(** What follows the command in [unlockDevice] when it succeeded. *)
Definition unlock_tail (l : loc) (path : string) : M (option string) :=
  run log ("Successfully unlocked " +:+ path);
  run notify_if config (DeviceUnlocked (Notifications config)) "Device Unlocked"
        (do name <- displayName l; ret (name +:+ " unlocked"));
  ret None.

Lemma only_unlock_tail l path : only talk (unlock_tail l path).
Proof.
  unfold unlock_tail, log.
  apply only_bind; [by apply only_do|]. intros _.
  apply only_bind; [|intros; apply only_ret].
  apply only_notify_if; [done|].
  apply only_bind; [apply only_displayName|intros; apply only_ret].
Qed.

(** What a run of the unlocker leaves behind, by its result. *)
Definition unlock_post (l : loc) (st : State) (o : Outcome (option string))
           (st' : State) : Prop :=
  no_attempt st st'
  ∧ match o with
    | Ret (Some _) => heap st' = heap st
    | Ret None =>
        ∃ dev, heap st !! l = Some dev
               ∧ heap st' = <[l := set_IsUnlocked true dev]> (heap st)
    | Panic _ => True
    end.

Lemma attach_post l path c st o st' :
  cmd_name c ≠ "mount" →
  attach host config l path c st = (o, st') → unlock_post l st o st'.
Proof.
  intros Hc. unfold attach, bind at 1, exec.
  set (st1 := add_trace _ st).
  assert (H1 : no_attempt st st1).
  { eapply acts_only_no_attempt; [|by apply (acts_only_add no_mount_attempt)]. done. }
  destruct (exec_err _).
  - intros [= <- <-]. split; [done|reflexivity].
  - unfold bind at 1, update, bind at 1, load.
    change (heap st1) with (heap st).
    destruct (heap st !! l) as [dev|] eqn:Hd.
    + fold (unlock_tail l path).
      set (st2 := set_heap _ st1). intros E.
      pose proof (only_run _ _ _ _ _ (only_unlock_tail l path) E) as Ht.
      split.
      * eapply no_attempt_trans; [exact H1|].
        eapply no_attempt_trans; [apply no_attempt_set_heap|].
        eapply acts_only_no_attempt; [apply talk_no_mount_attempt|exact Ht].
      * destruct o as [[e|]|]; [|exists dev; split; [done|apply Ht]|done].
        exfalso. revert E. unfold unlock_tail. never_error.
    + intros [= <- <-]. split; [done|done].
Qed.

Lemma unlockDevice_post l st o st' :
  unlockDevice host config l st = (o, st') → unlock_post l st o st'.
Proof.
  unfold unlockDevice. destruct (negb _).
  { intros [= <- <-]. split; [apply no_attempt_refl|reflexivity]. }
  unfold bind at 1, load. destruct (heap st !! l) as [dev|] eqn:Hd.
  2:{ intros [= <- <-]. split; [apply no_attempt_refl|done]. }
  unfold bind at 1, log. cbn [do_].
  set (st1 := add_trace _ st).
  assert (H1 : no_attempt st st1).
  { eapply acts_only_no_attempt; [|by apply (acts_only_add no_mount_attempt)]. done. }
  assert (Hpost : ∀ o st2 st', no_attempt st1 st2 → heap st2 = heap st →
                               unlock_post l st2 o st' → unlock_post l st o st').
  { intros o' st2 st'' H2 Hh [H3 H4]. split.
    - eapply no_attempt_trans; [exact H1|]. by eapply no_attempt_trans.
    - destruct o' as [[e|]|]; [congruence| |done].
      destruct H4 as (d&?&?). exists d. split; congruence. }
  destruct (KeyFiles (GELI config) !! UUID dev) as [keyfile|].
  - intros E. apply attach_post in E; [|done].
    eapply Hpost; [apply no_attempt_refl|reflexivity|exact E].
  - unfold bind at 1.
    destruct (getPassword host config l st1) as [[pw|msg] st2] eqn:Ep.
    + pose proof (only_run _ _ _ _ _ (only_getPassword host config l) Ep) as Hp.
      assert (H2 : no_attempt st1 st2) by (by eapply acts_only_no_attempt; [|exact Hp]).
      assert (Hh : heap st2 = heap st) by apply Hp.
      destruct (pw.2).
      * intros [= <- <-]. eapply Hpost; [exact H2|exact Hh|].
        split; [apply no_attempt_refl|reflexivity].
      * intros E. apply attach_post in E; [|done]. by eapply Hpost.
    + pose proof (only_run _ _ _ _ _ (only_getPassword host config l) Ep) as Hp.
      intros [= <- <-]. split; [|done].
      eapply no_attempt_trans; [exact H1|]. by eapply acts_only_no_attempt; [|exact Hp].
Qed.

(** The unlocking step of [mountDevice]. *)
Definition unlock_if_needed (l : loc) (dev : Device) : M (option string) :=
  if IsEncrypted dev && negb (IsUnlocked dev) then unlockDevice host config l
  else ret None.

Lemma mountDevice_eq st l dev :
  heap st !! l = Some dev →
  mountDevice host config l st
  = if IsMounted dev
    then (Ret (Some ("device already mounted at " +:+ MountPoint dev)), st)
    else match unlock_if_needed l dev st with
         | (Ret (Some err), st1) => (Ret (Some ("failed to unlock device: " +:+ err)), st1)
         | (Ret None, st1) => mountUnlocked host config l st1
         | (Panic msg, st1) => (Panic msg, st1)
         end.
Proof.
  intros Hd. unfold mountDevice, bind at 1, load. rewrite Hd.
  destruct (IsMounted dev); [reflexivity|].
  unfold bind at 1. fold (unlock_if_needed l dev).
  destruct (unlock_if_needed l dev st) as [[[e|]|msg] st1]; reflexivity.
Qed.

(** C9: for an encrypted record that is not unlocked, [mountDevice] runs
    the unlocker first (unless the record already counts as mounted, in
    which case it refuses at once and does nothing). Up to the end of the
    unlocker's run no directory is made, the mount tool is not run and
    [mounted] is not touched. If the unlocker returns an error, that is
    where [mountDevice] stops: it returns the error, wrapped, and the
    records are as before. If the unlocker succeeds, the mount proper
    starts from the state the unlocker left. *)
Theorem mountDevice_unlocks_first st l dev :
  heap st !! l = Some dev →
  IsEncrypted dev = true →
  IsUnlocked dev = false →
  if IsMounted dev
  then mountDevice host config l st
       = (Ret (Some ("device already mounted at " +:+ MountPoint dev)), st)
  else ∃ o st1,
      unlockDevice host config l st = (o, st1)
      ∧ no_attempt st st1
      ∧ match o with
        | Ret (Some err) =>
            mountDevice host config l st
            = (Ret (Some ("failed to unlock device: " +:+ err)), st1)
            ∧ heap st1 = heap st
        | Ret None =>
            mountDevice host config l st = mountUnlocked host config l st1
        | Panic msg => mountDevice host config l st = (Panic msg, st1)
        end.
Proof.
  intros Hd He Hu. rewrite (mountDevice_eq _ _ _ Hd).
  destruct (IsMounted dev); [reflexivity|].
  unfold unlock_if_needed. rewrite He, Hu. cbn [andb negb].
  destruct (unlockDevice host config l st) as [o st1] eqn:E.
  exists o, st1. split; [reflexivity|].
  apply unlockDevice_post in E as [Hn Hh]. split; [exact Hn|].
  destruct o as [[err|]|msg]; [|reflexivity..]. by split.
Qed.

End MountFacts.

(** ** The file system *)

Section FsFacts.

Import fsys.

Implicit Types (fs : gmap string Node) (p q : string).

Lemma HasPrefix_length s pre :
  strings.HasPrefix s pre = true → (String.length pre ≤ String.length s)%nat.
Proof.
  revert s. induction pre as [|c pre IH]; intros [|d s]; simpl; try lia; try done.
  destruct (Ascii.eqb c d); [|done]. intros H. apply IH in H. lia.
Qed.

Lemma length_append (a b : string) :
  String.length (a +:+ b) = (String.length a + String.length b)%nat.
Proof. induction a as [|c a IH]; simpl; [done|]. by rewrite IH. Qed.

(** A directory above [path] has a shorter name than [path]. *)
Lemma parents_from_length seen path q :
  q ∈ parents_from seen path →
  (String.length q < String.length seen + String.length path)%nat.
Proof.
  revert seen. induction path as [|c rest IH]; intros seen; simpl.
  - by intros ?%elem_of_nil.
  - rewrite elem_of_app. intros [H|H].
    + destruct (_ && _); [|by apply elem_of_nil in H].
      apply list_elem_of_singleton in H as ->. lia.
    + apply IH in H. rewrite length_append in H. simpl in H. lia.
Qed.

Lemma parents_shorter path q :
  q ∈ parents path → (String.length q < String.length path)%nat.
Proof. intros H%parents_from_length. simpl in H. lia. Qed.

Lemma has_child_true fs p :
  has_child fs p = true ↔ ∃ q, is_Some (fs !! q) ∧ below p q = true.
Proof.
  unfold has_child. rewrite existsb_exists. split.
  - intros (q&Hin&Hq). exists q. split; [|done].
    apply list_elem_of_In, list_elem_of_fmap in Hin as ([q' n]&->&Hin).
    apply elem_of_map_to_list in Hin. simpl. eauto.
  - intros (q&[n Hn]&Hq). exists q. split; [|done].
    apply list_elem_of_In, list_elem_of_fmap. exists (q, n).
    split; [done|]. by apply elem_of_map_to_list.
Qed.

Lemma has_child_false fs p :
  has_child fs p = false ↔ ∀ q, is_Some (fs !! q) → below p q = false.
Proof.
  rewrite <- not_true_iff_false, has_child_true. split.
  - intros H q Hq. destruct (below p q) eqn:E; [|done].
    destruct H. eauto.
  - intros H (q&Hq&E). rewrite (H q Hq) in E. done.
Qed.

(** A name below a directory is longer than the directory's, or the
    directory is the root and the name another one. *)
Lemma below_longer p q :
  below p q = true → q ≠ p ∧ (String.length p ≤ String.length q)%nat.
Proof.
  unfold below. destruct (String.eqb_spec p "/") as [->|Hp].
  - intros [H1 H2]%andb_prop. apply HasPrefix_length in H1.
    destruct (String.eqb_spec q "/"); [done|]. by split.
  - intros H%HasPrefix_length. rewrite length_append in H. simpl in H.
    split; [|lia]. intros ->. lia.
Qed.

(** The directories [MkdirAll] makes. *)
Definition made path fs : gmap string Node :=
  foldr (fun p m => <[p := Dir]> m) fs (parents path ++ [path]).

Lemma lookup_mkdirs (ps : list string) fs q :
  foldr (fun p m => <[p := Dir]> m) fs ps !! q
  = if decide (q ∈ ps) then Some Dir else fs !! q.
Proof.
  induction ps as [|p ps IH]; simpl; [done|].
  rewrite lookup_insert. destruct (decide (p = q)) as [->|Hne].
  - rewrite decide_True; [done|]. by left.
  - rewrite IH. destruct (decide (q ∈ ps)).
    + rewrite decide_True; [done|]. by right.
    + rewrite decide_False; [done|]. rewrite elem_of_cons. logic.
Qed.

Lemma MkdirAll_ok fs path fs' :
  MkdirAll fs path = (fs', None) → fs' = made path fs.
Proof.
  unfold MkdirAll. destruct (String.eqb path ""); [done|].
  destruct (List.find _ _); [done|]. by intros [= <-].
Qed.

Lemma MkdirAll_error fs path fs' err :
  MkdirAll fs path = (fs', Some err) → fs' = fs.
Proof.
  unfold MkdirAll. destruct (String.eqb path ""); [by intros [= <-]|].
  destruct (List.find _ _); [by intros [= <-]|done].
Qed.

(** [MkdirAll] fails exactly for the empty name and when the name or a
    directory above it is a file; the error names the first such file. *)
Lemma MkdirAll_fails fs path :
  (MkdirAll fs path).2 ≠ None
  ↔ path = "" ∨ ∃ q, q ∈ parents path ++ [path] ∧ is_file fs q = true.
Proof.
  unfold MkdirAll. destruct (String.eqb_spec path "") as [->|Hne].
  - simpl. split; [by left|done].
  - destruct (List.find _ _) as [q|] eqn:E; simpl.
    + apply find_some in E as [Hin Hq]. split; [|done]. intros _. right.
      exists q. split; [by apply list_elem_of_In|done].
    + split; [done|]. intros [?|(q&Hin&Hq)]; [done|].
      apply list_elem_of_In in Hin.
      by rewrite (find_none _ _ E q Hin) in Hq.
Qed.

(** Making a directory puts nothing below it. *)
Lemma has_child_made fs path :
  has_child (made path fs) path = has_child fs path.
Proof.
  destruct (has_child fs path) eqn:E.
  - apply has_child_true in E as (q&[n Hq]&Hp). apply has_child_true.
    exists q. split; [|done]. unfold made. rewrite lookup_mkdirs.
    destruct (decide _); eauto.
  - rewrite has_child_false in E. apply has_child_false. intros q.
    unfold made. rewrite lookup_mkdirs. destruct (decide _) as [Hin|Hin]; [|apply E].
    intros _. destruct (below path q) eqn:Hp; [|done].
    apply below_longer in Hp as [Hne Hlen].
    apply elem_of_app in Hin as [Hin|Hin].
    + apply parents_shorter in Hin. lia.
    + by apply list_elem_of_singleton in Hin.
Qed.

Lemma lookup_made_self fs path : made path fs !! path = Some Dir.
Proof.
  unfold made. rewrite lookup_mkdirs, decide_True; [done|].
  apply elem_of_app. right. by apply list_elem_of_singleton.
Qed.

(** A name that [MkdirAll] leaves alone: not the directory and not above
    it. *)
Lemma lookup_made_other fs path q :
  q ≠ path → q ∉ parents path → made path fs !! q = fs !! q.
Proof.
  intros Hne Hp. unfold made. rewrite lookup_mkdirs, decide_False; [done|].
  rewrite elem_of_app, list_elem_of_singleton. logic.
Qed.

(** The root and the working directory stay, and [os.Remove] says so. *)
Lemma Remove_fixed fs path :
  fixed path = true → ∃ err, Remove fs path = (fs, Some err).
Proof. intros H. unfold Remove. rewrite H. eauto. Qed.

(** What [os.Remove] leaves alone: every other name, and the file system
    as a whole when it returns an error. *)
Lemma Remove_other fs path q : q ≠ path → (Remove fs path).1 !! q = fs !! q.
Proof.
  intros Hne. unfold Remove. destruct (fixed path); [done|].
  destruct (fs !! path) as [[]|]; [destruct (has_child fs path)| |];
    cbn [fst]; try done; by rewrite lookup_delete_ne.
Qed.

Lemma Remove_error fs path err : (Remove fs path).2 = Some err → (Remove fs path).1 = fs.
Proof.
  unfold Remove. destruct (fixed path); [done|].
  destruct (fs !! path) as [[]|]; [destruct (has_child fs path)| |]; by cbn.
Qed.

Lemma Remove_ok fs path :
  (Remove fs path).2 = None → (Remove fs path).1 = delete path fs.
Proof.
  unfold Remove. destruct (fixed path); [done|].
  destruct (fs !! path) as [[]|]; [destruct (has_child fs path)| |]; by cbn.
Qed.

Lemma Remove_cases fs path :
  (Remove fs path).1
  = match (Remove fs path).2 with
    | None => delete path fs
    | Some _ => fs
    end.
Proof.
  destruct ((Remove fs path).2) as [e|] eqn:E;
    [by apply Remove_error in E|by apply Remove_ok].
Qed.

(** A directory that was made, is not one of those that stay and has
    nothing below it is gone after [os.Remove]; the rest of the file
    system stays. *)
Lemma Remove_made fs path :
  fixed path = false →
  has_child fs path = false →
  Remove (made path fs) path = (delete path (made path fs), None).
Proof.
  intros Hf H. unfold Remove. by rewrite Hf, lookup_made_self, has_child_made, H.
Qed.

(** If moreover the directory was not there before and the directories
    above it were, the file system is as it was. *)
Lemma Remove_made_restores fs path :
  fixed path = false →
  has_child fs path = false →
  fs !! path = None →
  (∀ q, q ∈ parents path → fs !! q = Some Dir) →
  (Remove (made path fs) path).1 = fs.
Proof.
  intros Hf H Hn Hp. rewrite (Remove_made _ _ Hf H). simpl. apply map_eq. intros q.
  rewrite lookup_delete. destruct (decide (path = q)) as [<-|Hne]; [done|].
  unfold made. rewrite lookup_mkdirs. destruct (decide _) as [Hin|]; [|done].
  apply elem_of_app in Hin as [Hin|Hin]; [by rewrite Hp|].
  apply list_elem_of_singleton in Hin. congruence.
Qed.

End FsFacts.

(** ** Mount, then unmount *)

Section RoundTrip.

Variable host : Host.
Variable config : Config.

(** What follows the bookkeeping in [mountDevice]. *)
Definition mount_tail (l : loc) (dev : Device) (mountPoint : string) : M (option string) :=
  run log ("Successfully mounted " +:+ Path dev +:+ " at " +:+ mountPoint);
  run notify_if config (DeviceMounted (Notifications config)) "Device Mounted"
        (do name <- displayName l; ret (name +:+ " mounted at " +:+ mountPoint));
  run executeEventHook config "device_mounted" l;
  run (if negb (String.eqb (FileManager config) "")
       then go (mkCmd (FileManager config) [mountPoint] None)
       else ret tt);
  ret None.

Lemma only_mount_tail l dev mp : only talk (mount_tail l dev mp).
Proof.
  unfold mount_tail, log.
  apply only_bind; [by apply only_do|]. intros _.
  apply only_bind;
    [apply only_notify_if; [done|];
     apply only_bind; [apply only_displayName|intros; apply only_ret]|].
  intros _.
  apply only_bind; [by apply only_executeEventHook|]. intros _.
  apply only_bind; [|intros; apply only_ret].
  destruct (negb _); [by apply only_do|apply only_ret].
Qed.

(** A successful [mountUnlocked]: the directory was made, and the record
    and [mounted] say so. *)
Lemma mountUnlocked_success st l st' :
  mountUnlocked host config l st = (Ret None, st') →
  ∃ dev mp,
    heap st !! l = Some dev
    ∧ GetMountDirectory dev (MountBase config) = Ret mp
    ∧ fs st' = made mp (fs st)
    ∧ heap st' = <[l := set_MountPoint mp true dev]> (heap st)
    ∧ mounted st' = <[Path dev := l]> (mounted st)
    ∧ devices st' = devices st.
Proof.
  unfold mountUnlocked, bind at 1, load.
  destruct (heap st !! l) as [dev|] eqn:Hd; [|discriminate].
  unfold bind at 1, lift.
  destruct (GetMountDirectory dev (MountBase config)) as [mp|] eqn:Hmp; [|discriminate].
  unfold bind at 1, MkdirAll.
  destruct (fsys.MkdirAll (fs st) mp) as [fs1 [e|]] eqn:Hmk; [discriminate|].
  apply MkdirAll_ok in Hmk. subst fs1.
  unfold bind at 1, log. cbn [do_]. unfold bind at 1, exec.
  destruct (exec_err _); [discriminate|].
  unfold bind at 1, update, bind at 1, load. cbn [heap add_trace set_fs].
  rewrite Hd. unfold bind at 1. fold (mount_tail l dev mp).
  intros E.
  apply (only_run _ _ _ _ _ (only_mount_tail l dev mp)) in E as [(H1&_&H3&H4&H5) _].
  exists dev, mp. by repeat split.
Qed.

(** The record as the unlocking step of [mountDevice] leaves it. *)
Definition unlocked (dev : Device) : Device :=
  if IsEncrypted dev && negb (IsUnlocked dev) then set_IsUnlocked true dev else dev.

Lemma Path_unlocked dev : Path (unlocked dev) = Path dev.
Proof. unfold unlocked. by destruct (_ && _). Qed.

Lemma GetMountDirectory_unlocked dev base :
  GetMountDirectory (unlocked dev) base = GetMountDirectory dev base.
Proof. unfold unlocked. by destruct (_ && _). Qed.

(** A successful [mountDevice]. *)
Lemma mountDevice_success st l dev st' :
  heap st !! l = Some dev →
  mountDevice host config l st = (Ret None, st') →
  IsMounted dev = false
  ∧ ∃ mp,
      GetMountDirectory dev (MountBase config) = Ret mp
      ∧ fs st' = made mp (fs st)
      ∧ heap st' = <[l := set_MountPoint mp true (unlocked dev)]> (heap st)
      ∧ mounted st' = <[Path dev := l]> (mounted st)
      ∧ devices st' = devices st.
Proof.
  intros Hd Hmd. rewrite (mountDevice_eq _ _ _ _ _ Hd) in Hmd.
  destruct (IsMounted dev); [discriminate|]. split; [reflexivity|].
  revert Hmd. unfold unlock_if_needed, unlocked.
  destruct (IsEncrypted dev && negb (IsUnlocked dev)).
  - destruct (unlockDevice host config l st) as [[[e|]|msg] st1] eqn:Eu; try discriminate.
    intros Hmu.
    apply unlockDevice_post in Eu as [(Hf&Hm&Hv&_) (d&Hd'&Hh)].
    assert (Heq : d = dev) by congruence. subst d.
    apply mountUnlocked_success in Hmu as (d1&mp&Hd1&Hmp&H1&H2&H3&H4).
    rewrite Hh, lookup_insert_eq in Hd1. injection Hd1 as <-.
    exists mp. rewrite H1, H2, H3, H4, Hh, Hf, Hm, Hv, insert_insert_eq.
    by repeat split.
  - unfold ret. intros Hmu.
    apply mountUnlocked_success in Hmu as (d1&mp&Hd1&Hmp&H1&H2&H3&H4).
    assert (Heq : d1 = dev) by congruence. subst d1.
    exists mp. by repeat split.
Qed.

(** C8: when [mountDevice] and then [unmountDevice] succeed on a record,
    [mounted] has no entry for its path (and is the map from before the
    mount without that path), the record has no mount point and does not
    count as mounted, and the mount directory has been made and then given
    to [os.Remove], whose result is dropped: the directory is gone when
    [os.Remove] returned [nil] and is there when it returned an error. If
    the directory was made by this mount and nothing is below it, it is
    gone, and if it is the only directory that had to be made, the file
    system is as before. The root and the working directory, which a label
    [..] makes the mount directory, stay. No other name of the file system
    is touched, apart from the directories above the mount directory. A
    record that had no stale mount point and needed no unlocking is as it
    was before the mount. *)
Theorem mount_unmount_round_trip st l dev st1 st2 :
  heap st !! l = Some dev →
  mountDevice host config l st = (Ret None, st1) →
  unmountDevice host config l st1 = (Ret None, st2) →
  ∃ mp,
    GetMountDirectory dev (MountBase config) = Ret mp
    ∧ mounted st2 !! Path dev = None
    ∧ mounted st2 = delete (Path dev) (mounted st)
    ∧ (mounted st !! Path dev = None → mounted st2 = mounted st)
    ∧ heap st2 = <[l := set_MountPoint "" false (unlocked dev)]> (heap st)
    ∧ (∃ dev2, heap st2 !! l = Some dev2
               ∧ MountPoint dev2 = "" ∧ IsMounted dev2 = false)
    ∧ (MountPoint dev = "" → unlocked dev = dev → heap st2 = heap st)
    ∧ devices st2 = devices st
    ∧ (∃ r acts,
         trace st2 = trace st1 ++ acts
         ∧ ARemove mp r ∈ acts
         ∧ fs st2 = match r with
                    | None => delete mp (made mp (fs st))
                    | Some _ => made mp (fs st)
                    end)
    ∧ (fsys.fixed mp = false → fs st !! mp = None →
       fsys.has_child (fs st) mp = false →
       fs st2 !! mp = None
       ∧ ((∀ q, q ∈ fsys.parents mp → fs st !! q = Some fsys.Dir) → fs st2 = fs st))
    ∧ (fsys.fixed mp = true → fs st2 = made mp (fs st))
    ∧ (∀ q, q ≠ mp → q ∉ fsys.parents mp → fs st2 !! q = fs st !! q).
Proof.
  intros Hd Hm Hu.
  apply (mountDevice_success _ _ _ _ Hd) in Hm as (Hnm&mp&Hmp&F1&H1&M1&D1).
  pose proof Hu as Hu'.
  apply unmountDevice_success in Hu as (d1&Hd1&_&_&H2&M2&D2&F2).
  apply (unmountDevice_success_trace _ _ _ _ _ _ Hd1) in Hu' as (acts&Ht&_).
  rewrite H1, lookup_insert_eq in Hd1. injection Hd1 as <-.
  cbn [Path MountPoint set_MountPoint] in *.
  rewrite Path_unlocked in M2.
  assert (HM : mounted st2 = delete (Path dev) (mounted st)).
  { by rewrite M2, M1, delete_insert_eq. }
  assert (HH : heap st2 = <[l := set_MountPoint "" false (unlocked dev)]> (heap st)).
  { rewrite H2, H1, insert_insert_eq. reflexivity. }
  assert (HF : fs st2 = (fsys.Remove (made mp (fs st)) mp).1) by (by rewrite F2, F1).
  exists mp. split; [exact Hmp|]. split; [by rewrite HM, lookup_delete_eq|].
  split; [exact HM|]. split; [by intros Hn; rewrite HM, delete_id|].
  split; [exact HH|]. split.
  { eexists. split; [by rewrite HH, lookup_insert_eq|]. by split. }
  split.
  { intros Hmp0 Hun. rewrite HH, Hun. apply insert_id. rewrite Hd. f_equal.
    destruct dev. simpl in *. by subst. }
  split; [congruence|]. split; [|split; [|split]].
  - eexists (fsys.Remove (fs st1) mp).2, _. split; [exact Ht|].
    split; [apply elem_of_app; left; do 2 right; by left|].
    rewrite HF, F1. apply Remove_cases.
  - intros Hx Hn Hc. rewrite HF. split.
    + rewrite (Remove_made _ _ Hx Hc). simpl. apply lookup_delete_eq.
    + intros Hp. by apply Remove_made_restores.
  - intros Hx. rewrite HF. by destruct (Remove_fixed (made mp (fs st)) mp Hx) as [err ->].
  - intros q Hne Hp. rewrite HF, Remove_other by done. by apply lookup_made_other.
Qed.

End RoundTrip.

(** ** Mount all *)

Section MountAllFacts.

Variable host : Host.
Variable config : Config.

(** The loop runs its body on the first records and then on the rest. *)
Lemma for_each_app {A} (xs ys : list A) (body : A → M unit) st :
  for_each (xs ++ ys) body st
  = match for_each xs body st with
    | (Ret _, st1) => for_each ys body st1
    | (Panic msg, st1) => (Panic msg, st1)
    end.
Proof.
  revert st. induction xs as [|x xs IH]; intros st; [reflexivity|].
  cbn [app for_each]. unfold bind.
  destruct (body x st) as [[[]|msg] st1]; [apply IH|reflexivity].
Qed.

(** A failing [mountUnlocked] has not touched the records or [mounted]. *)
Lemma mountUnlocked_error st l err st' :
  mountUnlocked host config l st = (Ret (Some err), st') →
  heap st' = heap st ∧ mounted st' = mounted st.
Proof.
  unfold mountUnlocked, bind at 1, load.
  destruct (heap st !! l) as [dev|] eqn:Hd; [|discriminate].
  unfold bind at 1, lift.
  destruct (GetMountDirectory dev (MountBase config)) as [mp|] eqn:Hmp; [|discriminate].
  unfold bind at 1, MkdirAll.
  destruct (fsys.MkdirAll (fs st) mp) as [fs1 [e|]] eqn:Hmk.
  { by intros [= _ <-]. }
  unfold bind at 1, log. cbn [do_]. unfold bind at 1, exec.
  destruct (exec_err _).
  { by intros [= _ <-]. }
  unfold bind at 1, update, bind at 1, load. cbn [heap add_trace set_fs].
  rewrite Hd. unfold bind at 1. fold (mount_tail config l dev mp).
  intros E. exfalso. revert E. unfold mount_tail. never_error.
Qed.

(** A failing [mountDevice] leaves [mounted] as it was, and the record
    where it was and with the path it had. *)
Lemma mountDevice_error st l dev err st' :
  heap st !! l = Some dev →
  mountDevice host config l st = (Ret (Some err), st') →
  mounted st' = mounted st
  ∧ ∃ dev', heap st' !! l = Some dev' ∧ Path dev' = Path dev.
Proof.
  intros Hd. rewrite (mountDevice_eq _ _ _ _ _ Hd).
  destruct (IsMounted dev).
  { intros [= _ <-]. eauto. }
  unfold unlock_if_needed. destruct (_ && _).
  - destruct (unlockDevice host config l st) as [[[e|]|msg] st1] eqn:Eu;
      [| |discriminate];
      apply unlockDevice_post in Eu as [(_&Hm&_) Hh].
    + intros [= _ <-]. split; [done|]. exists dev. by rewrite Hh.
    + destruct Hh as (d&Hd'&Hh). intros [H1 H2]%mountUnlocked_error.
      split; [congruence|]. exists (set_IsUnlocked true d).
      rewrite H1, Hh, lookup_insert_eq. split; [done|]. simpl. congruence.
  - unfold ret. intros [H1 H2]%mountUnlocked_error.
    split; [done|]. exists dev. by rewrite H1.
Qed.

Definition failed_log (path err : string) : Action :=
  ALog ("Failed to mount " +:+ path +:+ ": " +:+ err).

(** The body of the loop: a record that is no partition or counts as
    mounted is skipped; for any other, [mountDevice] is run, an error it
    returns is logged, and the body returns all the same. *)
Lemma mountAll_body_eq st l dev :
  heap st !! l = Some dev →
  mountAll_body host config l st
  = if IsPartition dev && negb (IsMounted dev)
    then match mountDevice host config l st with
         | (Ret None, st1) => (Ret tt, st1)
         | (Ret (Some err), st1) => (Ret tt, add_trace (failed_log (Path dev) err) st1)
         | (Panic msg, st1) => (Panic msg, st1)
         end
    else (Ret tt, st).
Proof.
  intros Hd. unfold mountAll_body, bind at 1, load. rewrite Hd.
  destruct (_ && _); [|reflexivity]. unfold bind at 1.
  destruct (mountDevice host config l st) as [[[err|]|msg] st1] eqn:E; try reflexivity.
  apply (mountDevice_error _ _ _ _ _ Hd) in E as (_&d&Hd'&HP).
  unfold bind, load. rewrite Hd', HP. reflexivity.
Qed.

Lemma place_returns devs st : ∃ ls st', place devs st = (Ret ls, st').
Proof.
  revert st. induction devs as [|dev devs IH]; intros st; simpl; [by eexists _, _|].
  unfold bind at 1. cbn [alloc]. unfold bind at 1. unfold bind at 1.
  destruct (IH (set_devices (insert (Path dev) (next st))
                  (set_next (Pos.succ (next st))
                     (set_heap (insert (next st) dev) st)))) as (ls&st'&->).
  by eexists _, _.
Qed.

(** What [MountAll] can return: the error of a failed scan, and after a
    scan that succeeded nothing but [nil], however many mounts failed. *)
Lemma MountAll_returns st o st' :
  MountAll host config st = (o, st') →
  match (host_scan host (trace st)).2 with
  | Some err => o = Ret (Some ("failed to scan devices: " +:+ err))
  | None => o = Ret None ∨ ∃ msg, o = Panic msg
  end.
Proof.
  unfold MountAll, bind at 1, deviceMgr_Scan.
  destruct ((host_scan host (trace st)).2) as [err|]; [by intros [= <- _]|].
  unfold bind at 1.
  destruct (place_returns (host_scan host (trace st)).1
              (add_trace (AScan (host_scan host (trace st)).1 None) st)) as (ls&st1&->).
  unfold ret at 1. cbn [fst snd]. unfold bind at 1.
  destruct (for_each ls _ st1) as [[[]|msg] st2]; intros [= <- _]; eauto.
Qed.

End MountAllFacts.

(** ** Scenarios *)

Section Scenarios.

(** Three partitions with labels, as a scan reports them. *)
Definition three_partitions : list Device :=
  [named "da0p1" "A" ""; named "da1p1" "B" ""; named "da2p1" "C" ""].

(** A host whose scan finds the three partitions and on which the mount
    tool fails for the device paths in [bad]; every other command
    succeeds. *)
Definition mount_fails_for (bad : list string) : Host :=
  mkHost
    (fun _ c =>
       if String.eqb (cmd_name c) "mount"
          && existsb (fun a => existsb (String.eqb a) bad) (cmd_args c)
       then mkExecResult "mount: Invalid argument" (Some "exit status 1")
       else mkExecResult "" None)
    (fun _ => ("", None))
    (fun _ => (three_partitions, None)).

Definition plain_config : Config := config_with_hooks ∅.

(** The commands run to their end, in order. *)
Definition commands (tr : list Action) : list (string * list string) :=
  omap (fun a => match a with
                 | AExec c _ => Some (cmd_name c, cmd_args c)
                 | _ => None
                 end) tr.

(** The failures [MountAll] logs. *)
Definition failure_logs (tr : list Action) : list string :=
  omap (fun a => match a with
                 | ALog s => if strings.HasPrefix s "Failed to mount " then Some s else None
                 | _ => None
                 end) tr.

Definition second_fails : Outcome (option string) * State :=
  MountAll (mount_fails_for ["/dev/da1p1"]) plain_config empty_state.

Definition all_fail : Outcome (option string) * State :=
  MountAll (mount_fails_for ["/dev/da0p1"; "/dev/da1p1"; "/dev/da2p1"])
           plain_config empty_state.

(** Mount all over three partitions of which the second fails: the third
    is still mounted, one failure is logged, and the result is [nil]. *)
Example MountAll_second_fails :
  second_fails.1 = Ret None
  ∧ mounted second_fails.2 = {[ "/dev/da0p1" := 1%positive; "/dev/da2p1" := 3%positive ]}
  ∧ commands (trace second_fails.2)
    = [("mount", ["/dev/da0p1"; "/media/A"]);
       ("mount", ["/dev/da1p1"; "/media/B"]);
       ("mount", ["/dev/da2p1"; "/media/C"])]
  ∧ failure_logs (trace second_fails.2)
    = ["Failed to mount /dev/da1p1: mount failed: exit status 1 (output: mount: Invalid argument)"].
Proof. repeat split; vm_compute; reflexivity. Qed.

(** C6 as stated fails: what [MountAll] returns is [nil] when two of three
    mounts succeed and [nil] when none does; it carries neither a count of
    the successes nor the failures, which go to the log only. *)
Lemma MountAll_returns_no_count :
  second_fails.1 = Ret None
  ∧ size (mounted second_fails.2) = 2
  ∧ length (failure_logs (trace second_fails.2)) = 1
  ∧ all_fail.1 = Ret None
  ∧ size (mounted all_fail.2) = 0
  ∧ length (failure_logs (trace all_fail.2)) = 3.
Proof. repeat split; vm_compute; reflexivity. Qed.

(** A partition that counts as mounted at [/media/A], in the daemon's
    books. *)
Definition mounted_A : Device :=
  mkDevice "da0p1" "/dev/da0p1" "A" "" "msdosfs" 0 "/media/A" true
           false false true true 0.

Definition books_A : State :=
  mkState {[ 1%positive := mounted_A ]} 2%positive {[ "/dev/da0p1" := 1%positive ]} ∅
          {[ "/media" := fsys.Dir; "/media/A" := fsys.Dir ]} [].

(** A host on which the unmount tool fails. *)
Definition busy_host : Host :=
  mkHost
    (fun _ c =>
       if String.eqb (cmd_name c) "umount"
       then mkExecResult "umount: Device busy" (Some "exit status 1")
       else mkExecResult "" None)
    (fun _ => ("", None)) (fun _ => ([], None)).

Lemma unmountDevice_failure_keeps_bookkeeping_witness :
  heap books_A !! 1%positive = Some mounted_A
  ∧ IsMounted mounted_A = true
  ∧ exec_err (umount_answer busy_host books_A mounted_A) = Some "exit status 1"
  ∧ unmountDevice busy_host plain_config 1%positive books_A
    = (Ret (Some "unmount failed: exit status 1 (output: umount: Device busy)"),
       after_umount busy_host books_A mounted_A)
  ∧ mounted (after_umount busy_host books_A mounted_A) !! "/dev/da0p1" = Some 1%positive.
Proof.
  assert (H1 : heap books_A !! 1%positive = Some mounted_A) by reflexivity.
  assert (H2 : IsMounted mounted_A = true) by reflexivity.
  assert (H3 : exec_err (umount_answer busy_host books_A mounted_A)
               = Some "exit status 1") by reflexivity.
  split; [exact H1|]. split; [exact H2|]. split; [exact H3|].
  destruct (unmountDevice_failure_keeps_bookkeeping busy_host plain_config
              books_A 1%positive mounted_A "exit status 1" H1 H2 H3)
    as (E&_&_&Hm&_).
  split; [exact E|]. exact Hm.
Defined.

(** A partition that was just scanned, and the daemon's books with it. *)
Definition fresh_A : Device := named "da0p1" "A" "".

Definition books_fresh : State :=
  mkState {[ 1%positive := fresh_A ]} 2%positive ∅ ∅ {[ "/media" := fsys.Dir ]} [].

Definition after_mount : State :=
  (mountDevice quiet_host plain_config 1%positive books_fresh).2.

Definition after_round_trip : State :=
  (unmountDevice quiet_host plain_config 1%positive after_mount).2.

Example mountDevice_books :
  mounted after_mount = {[ "/dev/da0p1" := 1%positive ]}
  ∧ heap after_mount !! 1%positive
    = Some (mkDevice "da0p1" "/dev/da0p1" "A" "" "" 0 "/media/A" true
                     false false true true 0)
  ∧ fs after_mount = {[ "/media" := fsys.Dir; "/media/A" := fsys.Dir ]}
  ∧ commands (trace after_mount) = [("mount", ["/dev/da0p1"; "/media/A"])].
Proof. repeat split; vm_compute; reflexivity. Qed.

Lemma mount_unmount_round_trip_witness :
  heap books_fresh !! 1%positive = Some fresh_A
  ∧ mountDevice quiet_host plain_config 1%positive books_fresh = (Ret None, after_mount)
  ∧ unmountDevice quiet_host plain_config 1%positive after_mount
    = (Ret None, after_round_trip)
  ∧ GetMountDirectory fresh_A (MountBase plain_config) = Ret "/media/A"
  ∧ mounted after_round_trip !! Path fresh_A = None
  ∧ fs after_mount !! "/media/A" = Some fsys.Dir
  ∧ fs after_round_trip !! "/media/A" = None
  ∧ fs after_round_trip = fs books_fresh.
Proof.
  assert (H1 : heap books_fresh !! 1%positive = Some fresh_A) by reflexivity.
  assert (H2 : mountDevice quiet_host plain_config 1%positive books_fresh
               = (Ret None, after_mount)) by (by vm_compute).
  assert (H3 : unmountDevice quiet_host plain_config 1%positive after_mount
               = (Ret None, after_round_trip)) by (by vm_compute).
  assert (H4 : GetMountDirectory fresh_A (MountBase plain_config) = Ret "/media/A")
    by reflexivity.
  split; [exact H1|]. split; [exact H2|]. split; [exact H3|]. split; [exact H4|].
  destruct (mount_unmount_round_trip quiet_host plain_config books_fresh 1%positive
              fresh_A after_mount after_round_trip H1 H2 H3)
    as (mp&Hmp&Hm&_&_&_&_&_&_&_&Hmade&_).
  assert (Heq : mp = "/media/A") by congruence. subst mp.
  split; [exact Hm|]. split; [vm_compute; reflexivity|].
  destruct Hmade as [Hgone Hsame]; [reflexivity|reflexivity|vm_compute; reflexivity|].
  split; [exact Hgone|]. apply Hsame.
  intros q Hq. vm_compute in Hq. apply list_elem_of_singleton in Hq. by subst q.
Defined.

Example round_trip_restores_everything :
  heap after_round_trip = heap books_fresh
  ∧ mounted after_round_trip = mounted books_fresh
  ∧ fs after_round_trip = fs books_fresh.
Proof. repeat split; vm_compute; reflexivity. Qed.

(** A partition whose label is [..]: its mount directory is the root, which
    is there after the round trip. *)
Definition dotdot : Device := named "da0p1" ".." "".

Definition books_dotdot : State :=
  mkState {[ 1%positive := dotdot ]} 2%positive ∅ ∅ {[ "/media" := fsys.Dir ]} [].

Definition after_dotdot : State :=
  (unmountDevice quiet_host plain_config 1%positive
     (mountDevice quiet_host plain_config 1%positive books_dotdot).2).2.

Example round_trip_at_the_root :
  GetMountDirectory dotdot "/media" = Ret "/"
  ∧ fsys.fixed "/" = true
  ∧ commands (trace after_dotdot)
    = [("mount", ["/dev/da0p1"; "/"]); ("umount", ["/"])]
  ∧ last (trace after_dotdot) = Some (ALog "Successfully unmounted /dev/da0p1")
  ∧ ARemove "/" (Some "remove /: device or resource busy") ∈ trace after_dotdot
  ∧ fs after_dotdot !! "/" = Some fsys.Dir
  ∧ mounted after_dotdot = ∅.
Proof.
  repeat split; try (vm_compute; reflexivity).
  vm_compute. do 6 right. by left.
Qed.

(** An encrypted partition that is locked. *)
Definition locked_A : Device :=
  mkDevice "da0p1" "/dev/da0p1" "A" "" "" 0 "" false true false true true 0.

Definition books_locked : State :=
  mkState {[ 1%positive := locked_A ]} 2%positive ∅ ∅ {[ "/media" := fsys.Dir ]} [].

(** A host that is typed a pass phrase and on which [geli] rejects it. *)
Definition wrong_passphrase_host : Host :=
  mkHost
    (fun _ c =>
       if String.eqb (cmd_name c) "geli"
       then mkExecResult "geli: Wrong key for da0p1." (Some "exit status 1")
       else mkExecResult "" None)
    (fun _ => (" guess" +:+ String (ascii_of_nat 10) "", None))
    (fun _ => ([], None)).

Definition after_wrong_passphrase : Outcome (option string) * State :=
  mountDevice wrong_passphrase_host plain_config 1%positive books_locked.

Example mountDevice_wrong_passphrase :
  after_wrong_passphrase.1
  = Ret (Some "failed to unlock device: geli attach failed: exit status 1 (output: geli: Wrong key for da0p1.)")
  ∧ heap after_wrong_passphrase.2 = heap books_locked
  ∧ mounted after_wrong_passphrase.2 = ∅
  ∧ fs after_wrong_passphrase.2 = fs books_locked
  ∧ trace after_wrong_passphrase.2
    = [ALog "Unlocking encrypted device /dev/da0p1";
       APrint "Enter password for A: ";
       AReadLine (" guess" +:+ String (ascii_of_nat 10) "") None;
       AExec (mkCmd "geli" ["attach"; "/dev/da0p1"]
                    (Some ("guess" +:+ String (ascii_of_nat 10) "")))
             (mkExecResult "geli: Wrong key for da0p1." (Some "exit status 1"))].
Proof. repeat split; vm_compute; reflexivity. Qed.

Lemma mountDevice_unlocks_first_witness :
  heap books_locked !! 1%positive = Some locked_A
  ∧ IsEncrypted locked_A = true
  ∧ IsUnlocked locked_A = false
  ∧ ∃ o st1,
      unlockDevice wrong_passphrase_host plain_config 1%positive books_locked = (o, st1)
      ∧ no_attempt books_locked st1
      ∧ match o with
        | Ret (Some err) =>
            mountDevice wrong_passphrase_host plain_config 1%positive books_locked
            = (Ret (Some ("failed to unlock device: " +:+ err)), st1)
            ∧ heap st1 = heap books_locked
        | Ret None =>
            mountDevice wrong_passphrase_host plain_config 1%positive books_locked
            = mountUnlocked wrong_passphrase_host plain_config 1%positive st1
        | Panic msg =>
            mountDevice wrong_passphrase_host plain_config 1%positive books_locked
            = (Panic msg, st1)
        end.
Proof.
  assert (H1 : heap books_locked !! 1%positive = Some locked_A) by reflexivity.
  assert (H2 : IsEncrypted locked_A = true) by reflexivity.
  assert (H3 : IsUnlocked locked_A = false) by reflexivity.
  split; [exact H1|]. split; [exact H2|]. split; [exact H3|].
  exact (mountDevice_unlocks_first wrong_passphrase_host plain_config books_locked
           1%positive locked_A H1 H2 H3).
Defined.

End Scenarios.

(** * More of the program, and what it keeps *)

(** ** Per-device configuration *)

(** Does the entry [e] name the device, by a label, an identifier or a path
    that is not empty? *)
Definition names_device (label uuid path : string) (e : DeviceConfig) : Prop :=
  (IDLabel e ≠ "" ∧ IDLabel e = label)
  ∨ (IDUUID e ≠ "" ∧ IDUUID e = uuid)
  ∨ (DevicePath e ≠ "" ∧ DevicePath e = path).

Lemma GetDeviceConfig_in_cons e rest label uuid path :
  GetDeviceConfig_in (e :: rest) label uuid path
  = if decide (names_device label uuid path e) then Some e
    else GetDeviceConfig_in rest label uuid path.
Proof.
  cbn [GetDeviceConfig_in]. unfold names_device.
  destruct (String.eqb_spec (IDLabel e) ""), (String.eqb_spec (IDLabel e) label),
    (String.eqb_spec (IDUUID e) ""), (String.eqb_spec (IDUUID e) uuid),
    (String.eqb_spec (DevicePath e) ""), (String.eqb_spec (DevicePath e) path);
    cbn [negb andb]; destruct (decide _) as [H|H]; try reflexivity;
    exfalso; first [ by logic | apply H; by eauto 6 ].
Qed.

(** X1: [GetDeviceConfig] returns the first entry that names the device, and
    none when no entry does. *)
Theorem GetDeviceConfig_first_match c label uuid path e :
  GetDeviceConfig c label uuid path = Some e
  ↔ ∃ before after,
      Devices c = before ++ e :: after
      ∧ names_device label uuid path e
      ∧ Forall (fun e' => ¬ names_device label uuid path e') before.
Proof.
  unfold GetDeviceConfig. generalize (Devices c). intros devs.
  induction devs as [|e' devs IH].
  - split; [done|]. intros (before&after&H&_). by destruct before.
  - rewrite GetDeviceConfig_in_cons. destruct (decide _) as [Hn|Hn].
    + split.
      * intros [= ->]. exists [], devs. by repeat split.
      * intros (before&after&H&Hm&Hb). destruct before as [|b before].
        -- by injection H as -> _.
        -- injection H as -> _. by apply Forall_cons in Hb as [? _].
    + rewrite IH. split.
      * intros (before&after&->&Hm&Hb). exists (e' :: before), after.
        repeat split; [done|]. by constructor.
      * intros (before&after&H&Hm&Hb). destruct before as [|b before].
        -- injection H as -> _. done.
        -- injection H as -> ->. apply Forall_cons in Hb as [_ Hb]. eauto.
Qed.

Lemma GetDeviceConfig_none c label uuid path :
  GetDeviceConfig c label uuid path = None
  ↔ Forall (fun e => ¬ names_device label uuid path e) (Devices c).
Proof.
  unfold GetDeviceConfig. generalize (Devices c). intros devs.
  induction devs as [|e devs IH]; [by split|].
  rewrite GetDeviceConfig_in_cons, Forall_cons.
  destruct (decide _) as [Hn|Hn].
  - by split; [|intros [? ?]].
  - rewrite IH. by split; [|intros [? ?]].
Qed.

(** X2: A device with no label, no identifier and no path is named by no entry:
    it is never ignored, follows the global automount setting and gets the
    options of its file system type. *)
Theorem unidentified_device_has_no_entry c fstype :
  GetDeviceConfig c "" "" "" = None
  ∧ ShouldIgnoreDevice c "" "" "" = false
  ∧ ShouldAutomountDevice c "" "" "" = Automount c
  ∧ GetMountOptions c fstype "" "" "" = default [] (MountOptions_Default c !! fstype).
Proof.
  assert (H : GetDeviceConfig c "" "" "" = None).
  { apply GetDeviceConfig_none, Forall_forall. intros e _. unfold names_device.
    intros [[? ?]|[[? ?]|[? ?]]]; congruence. }
  unfold ShouldIgnoreDevice, ShouldAutomountDevice, GetMountOptions. rewrite H.
  by repeat split.
Qed.

(** X3: The first entry that names a device decides everything for it; entries
    after it are not looked at. Its options count only if there are any:
    an entry cannot take the defaults of the file system type away. *)
Theorem first_entry_decides c label uuid path fstype before e after :
  Devices c = before ++ e :: after →
  names_device label uuid path e →
  Forall (fun e' => ¬ names_device label uuid path e') before →
  ShouldIgnoreDevice c label uuid path = Ignore e
  ∧ ShouldAutomountDevice c label uuid path = default (Automount c) (Automount_ e)
  ∧ GetMountOptions c fstype label uuid path
    = match Options e with
      | [] => default [] (MountOptions_Default c !! fstype)
      | _ :: _ => Options e
      end.
Proof.
  intros Hd Hn Hb.
  assert (H : GetDeviceConfig c label uuid path = Some e).
  { unfold GetDeviceConfig. rewrite Hd. clear Hd.
    induction Hb as [|e' before Hne _ IH].
    - cbn [app]. rewrite GetDeviceConfig_in_cons. by rewrite decide_True.
    - cbn [app]. rewrite GetDeviceConfig_in_cons. by rewrite decide_False. }
  unfold ShouldIgnoreDevice, ShouldAutomountDevice, GetMountOptions. rewrite H.
  split; [done|]. split; [by destruct (Automount_ e)|].
  by destruct (Options e).
Qed.

(** ** The poll loop over several ticks *)

Section PollTicks.

Import Poll.

Implicit Types (known : gmap string bool) (devs : list Device)
         (order : list string) (p : string).

Lemma first_new_all_known known devs :
  (∀ p, p ∈ Path <$> devs → get known p = true) → first_new known devs = [].
Proof.
  induction devs as [|d devs IH]; intros H; [reflexivity|].
  cbn [first_new]. rewrite H; [|rewrite fmap_cons; by left].
  apply IH. intros p Hp. apply H. rewrite fmap_cons. by right.
Qed.

Lemma mark_all_known known devs :
  (∀ p, p ∈ Path <$> devs → get known p = true) → mark devs known = known.
Proof.
  intros H. apply map_eq. intros p. rewrite lookup_mark.
  destruct (decide _) as [Hin|]; [|done]. symmetry. by apply get_true, H.
Qed.

Lemma gone_nil devs order :
  (∀ p, p ∈ order → p ∈ Path <$> devs) → gone (mark devs ∅) order = [].
Proof.
  intros H. destruct (gone (mark devs ∅) order) as [|p rest] eqn:E; [done|].
  assert (Hp : p ∈ gone (mark devs ∅) order) by (rewrite E; by left).
  apply gone_elem in Hp as [Hin Hn]. destruct Hn. by apply H.
Qed.

(** X4: After a tick whose scan succeeded the loop knows exactly the paths of
    that scan, whatever it knew before, and every value it holds is [true]. *)
Theorem tick_remembers_the_scan known devs order :
  all_true known →
  range_order (known_after_add known devs) order →
  all_true (tick known devs order).1
  ∧ ∀ p, is_Some ((tick known devs order).1 !! p) ↔ p ∈ Path <$> devs.
Proof.
  intros Hk Ho. destruct (tick_known known devs order Hk Ho) as [Ha Hg].
  split; [exact Ha|]. intros p. by rewrite <- (get_all_true _ _ Ha), Hg.
Qed.

(** X5: A second tick that scans the same devices calls no handler and leaves
    the set of known paths as it is. *)
Theorem tick_same_scan_is_silent known devs order order' :
  all_true known →
  range_order (known_after_add known devs) order →
  range_order (known_after_add (tick known devs order).1 devs) order' →
  tick (tick known devs order).1 devs order' = ((tick known devs order).1, []).
Proof.
  intros Hk Ho Ho'. destruct (tick_known known devs order Hk Ho) as [Ha Hg].
  set (known1 := (tick known devs order).1) in *.
  assert (Hall : ∀ p, p ∈ Path <$> devs → get known1 p = true) by (intros; by apply Hg).
  rewrite known_after_add_eq, (mark_all_known _ _ Hall) in Ho'.
  rewrite tick_eq, (first_new_all_known _ _ Hall), (mark_all_known _ _ Hall).
  rewrite gone_nil; [reflexivity|].
  intros p Hp. apply Hg, get_all_true; [done|]. by apply (range_order_elem _ _ _ Ho').
Qed.

End PollTicks.

(** ** What the daemon does to its books *)

(** One change of the books about the record behind [l]: nothing but talk
    and the file system; the record unlocked; the record mounted and
    entered in [mounted]; the record unmounted and its path taken out. *)
Inductive record_step (l : loc) (st st' : State) : Prop :=
| step_quiet :
    heap st' = heap st → mounted st' = mounted st →
    next st' = next st → devices st' = devices st →
    record_step l st st'
| step_unlocked dev :
    heap st !! l = Some dev →
    heap st' = <[l := set_IsUnlocked true dev]> (heap st) →
    mounted st' = mounted st →
    next st' = next st → devices st' = devices st →
    record_step l st st'
| step_mounted dev mp :
    heap st !! l = Some dev →
    mp ≠ "" →
    heap st' = <[l := set_MountPoint mp true dev]> (heap st) →
    mounted st' = <[Path dev := l]> (mounted st) →
    next st' = next st → devices st' = devices st →
    record_step l st st'
| step_unmounted dev :
    heap st !! l = Some dev →
    IsMounted dev = true →
    heap st' = <[l := set_MountPoint "" false dev]> (heap st) →
    mounted st' = delete (Path dev) (mounted st) →
    next st' = next st → devices st' = devices st →
    record_step l st st'.

(** Any number of such changes. *)
Definition record_steps (l : loc) : State → State → Prop := rtc (record_step l).

Lemma record_steps_quiet l st st' : same_memory st st' → record_steps l st st'.
Proof. intros (?&?&?&?&?). apply rtc_once. by apply step_quiet. Qed.

Lemma record_steps_only {A} P l (m : M A) st : only P m → record_steps l st (m st).2.
Proof. intros Hm. apply record_steps_quiet, Hm. Qed.

Lemma record_steps_trans l st1 st2 st3 :
  record_steps l st1 st2 → record_steps l st2 st3 → record_steps l st1 st3.
Proof. intros H1 H2. by etrans. Qed.

Lemma record_steps_add l a st : record_steps l st (add_trace a st).
Proof. by apply record_steps_quiet. Qed.

(** The record's fields that say what the device is. *)
Definition same_device (d d' : Device) : Prop :=
  Name d' = Name d ∧ Path d' = Path d ∧ Label d' = Label d ∧ UUID d' = UUID d
  ∧ FSType d' = FSType d ∧ Size d' = Size d ∧ IsEncrypted d' = IsEncrypted d
  ∧ IsPartition d' = IsPartition d ∧ IsRemovable d' = IsRemovable d
  ∧ PartitionNum d' = PartitionNum d.

(** The books about [l] changed and nothing else: no other record, no
    pointer handed out, nothing in the manager's map; and the record is
    still about the same device. *)
Definition touches_only (l : loc) (st st' : State) : Prop :=
  next st' = next st
  ∧ devices st' = devices st
  ∧ (∀ l', l' ≠ l → heap st' !! l' = heap st !! l')
  ∧ match heap st !! l with
    | Some dev => ∃ dev', heap st' !! l = Some dev' ∧ same_device dev dev'
    | None => heap st' !! l = None
    end.

Lemma same_device_refl d : same_device d d.
Proof. by repeat split. Qed.

Lemma touches_only_refl l st : touches_only l st st.
Proof.
  repeat split. destruct (heap st !! l) as [dev|]; [|done].
  exists dev. split; [done|apply same_device_refl].
Qed.

Lemma touches_only_trans l st1 st2 st3 :
  touches_only l st1 st2 → touches_only l st2 st3 → touches_only l st1 st3.
Proof.
  intros (N1&D1&O1&R1) (N2&D2&O2&R2). split; [congruence|]. split; [congruence|].
  split; [intros l' Hl; by rewrite O2, O1|].
  destruct (heap st1 !! l) as [dev|].
  - destruct R1 as (d1&H1&S1). rewrite H1 in R2. destruct R2 as (d2&H2&S2).
    exists d2. split; [done|]. unfold same_device in *.
    destruct S1 as (?&?&?&?&?&?&?&?&?&?), S2 as (?&?&?&?&?&?&?&?&?&?).
    repeat split; congruence.
  - by rewrite R1 in R2.
Qed.

Lemma record_step_touches_only l st st' : record_step l st st' → touches_only l st st'.
Proof.
  intros [Hh Hm Hn Hd | dev Hl Hh Hm Hn Hd | dev mp Hl Hmp Hh Hm Hn Hd
         | dev Hl Hi Hh Hm Hn Hd].
  - split; [done|]. split; [done|]. rewrite Hh. split; [done|].
    destruct (heap st !! l) as [dev|]; [|done]. exists dev. split; [done|apply same_device_refl].
  - repeat split; try done; rewrite Hh, ?Hl.
    + intros l' Hne. by rewrite lookup_insert_ne.
    + eexists. split; [apply lookup_insert_eq|]. by repeat split.
  - repeat split; try done; rewrite Hh, ?Hl.
    + intros l' Hne. by rewrite lookup_insert_ne.
    + eexists. split; [apply lookup_insert_eq|]. by repeat split.
  - repeat split; try done; rewrite Hh, ?Hl.
    + intros l' Hne. by rewrite lookup_insert_ne.
    + eexists. split; [apply lookup_insert_eq|]. by repeat split.
Qed.

Lemma record_steps_touches_only l st st' : record_steps l st st' → touches_only l st st'.
Proof.
  induction 1 as [st|st1 st2 st3 H _ IH]; [apply touches_only_refl|].
  eapply touches_only_trans; [by apply record_step_touches_only|exact IH].
Qed.

(** The books are in order: every pointer in use was handed out, and every
    path in [mounted] leads to a record of that path that counts as
    mounted. *)
Definition books_ok (st : State) : Prop :=
  (∀ l, is_Some (heap st !! l) → (l < next st)%positive)
  ∧ ∀ p l, mounted st !! p = Some l →
           ∃ dev, heap st !! l = Some dev ∧ Path dev = p ∧ IsMounted dev = true.

Lemma books_ok_step l st st' : record_step l st st' → books_ok st → books_ok st'.
Proof.
  intros Hs [Hf Hb].
  destruct Hs as [Hh Hm Hn Hd | dev Hl Hh Hm Hn Hd | dev mp Hl Hmp Hh Hm Hn Hd
                 | dev Hl Hi Hh Hm Hn Hd]; split.
  - intros l'. rewrite Hh, Hn. apply Hf.
  - intros p l'. rewrite Hh, Hm. apply Hb.
  - intros l'. rewrite Hh, Hn, lookup_insert_is_Some. intros [<-|[_ ?]]; eauto.
  - intros p l'. rewrite Hh, Hm. intros Hp. destruct (Hb _ _ Hp) as (d&Hd'&HP&HM).
    destruct (decide (l' = l)) as [->|Hne].
    + rewrite lookup_insert_eq. eexists. split; [done|].
      assert (d = dev) by congruence. subst d. by split.
    + rewrite lookup_insert_ne by done. eauto.
  - intros l'. rewrite Hh, Hn, lookup_insert_is_Some. intros [<-|[_ ?]]; eauto.
  - intros p l'. rewrite Hh, Hm, lookup_insert. destruct (decide (Path dev = p)) as [<-|Hne].
    + intros [= <-]. rewrite lookup_insert_eq. eexists. by repeat split.
    + intros Hp. destruct (Hb _ _ Hp) as (d&Hd'&HP&HM).
      destruct (decide (l' = l)) as [->|Hne'].
      * assert (d = dev) by congruence. subst d. done.
      * rewrite lookup_insert_ne by done. eauto.
  - intros l'. rewrite Hh, Hn, lookup_insert_is_Some. intros [<-|[_ ?]]; eauto.
  - intros p l'. rewrite Hh, Hm, lookup_delete. destruct (decide (Path dev = p)) as [<-|Hne]; [done|].
    intros Hp. destruct (Hb _ _ Hp) as (d&Hd'&HP&HM).
    destruct (decide (l' = l)) as [->|Hne'].
    + assert (d = dev) by congruence. subst d. done.
    + rewrite lookup_insert_ne by done. eauto.
Qed.

Lemma books_ok_steps l st st' : record_steps l st st' → books_ok st → books_ok st'.
Proof. induction 1 as [|st1 st2 st3 H _ IH]; [done|]. intros Hb. eapply IH, books_ok_step; eauto. Qed.

Section BookSteps.

Variable host : Host.
Variable config : Config.

Lemma attach_steps l path c st : record_steps l st (attach host config l path c st).2.
Proof.
  unfold attach, bind at 1, exec. cbn [fst snd].
  set (st1 := add_trace _ st).
  assert (H1 : record_steps l st st1) by apply record_steps_add.
  destruct (exec_err _); [exact H1|].
  unfold bind at 1, update, bind at 1, load.
  change (heap st1) with (heap st).
  destruct (heap st !! l) as [dev|] eqn:Hd; [|exact H1].
  fold (unlock_tail config l path).
  set (st2 := set_heap _ st1).
  eapply record_steps_trans; [exact H1|].
  eapply record_steps_trans; [|apply (record_steps_only talk), only_unlock_tail].
  apply rtc_once. by eapply step_unlocked.
Qed.

Lemma unlockDevice_steps l st : record_steps l st (unlockDevice host config l st).2.
Proof.
  unfold unlockDevice. destruct (negb _); [reflexivity|].
  unfold bind at 1, load. destruct (heap st !! l) as [dev|] eqn:Hd; [|reflexivity].
  unfold bind at 1, log. cbn [do_].
  set (st1 := add_trace _ st).
  eapply record_steps_trans; [apply (record_steps_quiet l st st1); by repeat split|].
  destruct (KeyFiles (GELI config) !! UUID dev) as [keyfile|]; [apply attach_steps|].
  unfold bind at 1.
  pose proof (record_steps_only _ l _ st1 (only_getPassword host config l)) as Hp.
  destruct (getPassword host config l st1) as [[pw|msg] st2]; [|exact Hp].
  eapply record_steps_trans; [exact Hp|].
  destruct (pw.2); [reflexivity|apply attach_steps].
Qed.

Lemma MkdirAll_not_empty (fs0 : gmap string fsys.Node) mp fs1 :
  fsys.MkdirAll fs0 mp = (fs1, None) → mp ≠ "".
Proof. unfold fsys.MkdirAll. intros H ->. simpl in H. done. Qed.

Lemma mountUnlocked_steps l st : record_steps l st (mountUnlocked host config l st).2.
Proof.
  unfold mountUnlocked, bind at 1, load.
  destruct (heap st !! l) as [dev|] eqn:Hd; [|reflexivity].
  unfold bind at 1, lift.
  destruct (GetMountDirectory dev (MountBase config)) as [mp|]; [|reflexivity].
  unfold bind at 1, MkdirAll.
  destruct (fsys.MkdirAll (fs st) mp) as [fs1 [e|]] eqn:Hmk.
  { apply rtc_once. by apply step_quiet. }
  apply MkdirAll_not_empty in Hmk.
  unfold bind at 1, log. cbn [do_]. unfold bind at 1, exec.
  destruct (exec_err _).
  { apply rtc_once. by apply step_quiet. }
  unfold bind at 1, update, bind at 1, load. cbn [heap add_trace set_fs].
  rewrite Hd. unfold bind at 1. fold (mount_tail config l dev mp).
  eapply record_steps_trans; [|apply (record_steps_only talk), only_mount_tail].
  apply rtc_once. by eapply (step_mounted _ _ _ dev mp).
Qed.

Lemma mountDevice_steps l st : record_steps l st (mountDevice host config l st).2.
Proof.
  unfold mountDevice, bind at 1, load.
  destruct (heap st !! l) as [dev|] eqn:Hd; [|reflexivity].
  destruct (IsMounted dev); [reflexivity|].
  unfold bind at 1.
  assert (Hu : record_steps l st
                 ((if IsEncrypted dev && negb (IsUnlocked dev)
                   then unlockDevice host config l else ret None) st).2).
  { destruct (_ && _); [apply unlockDevice_steps|reflexivity]. }
  destruct ((if IsEncrypted dev && negb (IsUnlocked dev)
             then unlockDevice host config l else ret None) st) as [[[e|]|msg] st1];
    [exact Hu| |exact Hu].
  eapply record_steps_trans; [exact Hu|apply mountUnlocked_steps].
Qed.

Lemma unmountDevice_steps l st : record_steps l st (unmountDevice host config l st).2.
Proof.
  destruct (heap st !! l) as [dev|] eqn:Hd.
  - rewrite (unmountDevice_eq _ _ _ _ _ Hd).
    destruct (IsMounted dev) eqn:Hm; cbn [negb]; [|reflexivity].
    destruct (exec_err _); [by apply record_steps_quiet|]. cbn zeta.
    eapply record_steps_trans; [|apply (record_steps_only talk), only_unmount_tail].
    apply rtc_once. by eapply (step_unmounted _ _ _ dev).
  - unfold unmountDevice, bind, load. rewrite Hd. reflexivity.
Qed.

Lemma only_automount_failed l err : only talk (automount_failed config l err).
Proof.
  unfold automount_failed.
  apply only_bind; [apply only_load|]. intros dev.
  apply only_bind; [by apply only_do|]. intros _.
  apply only_notify_if; [done|].
  apply only_bind; [apply only_displayName|intros; apply only_ret].
Qed.

(** [onDeviceAdded] up to its decision to mount. *)
Lemma only_added_notice l :
  only talk
    (run notify_if config (DeviceAdded_ (Notifications config)) "Device Added"
           (do name <- displayName l; ret (name +:+ " connected"));
     executeEventHook config "device_added" l).
Proof.
  apply only_bind; [|intros; by apply only_executeEventHook].
  apply only_notify_if; [done|].
  apply only_bind; [apply only_displayName|intros; apply only_ret].
Qed.

Lemma onDeviceAdded_steps l st : record_steps l st (onDeviceAdded host config l st).2.
Proof.
  unfold onDeviceAdded, bind at 1, load.
  destruct (heap st !! l) as [dev|] eqn:Hd; [|reflexivity].
  unfold bind at 1, lift. destruct (GetDisplayName dev) as [name|]; [|reflexivity].
  unfold bind at 1, log. cbn [do_].
  set (st1 := add_trace _ st).
  eapply record_steps_trans; [apply (record_steps_quiet l st st1); by repeat split|].
  destruct (ShouldIgnoreDevice _ _ _ _); [apply record_steps_add|].
  unfold bind at 1.
  pose proof (record_steps_only _ l _ st1
                (only_notify_if talk config (DeviceAdded_ (Notifications config))
                   "Device Added" (do name <- displayName l; ret (name +:+ " connected"))
                   ltac:(done)
                   ltac:(apply only_bind;
                         [apply only_displayName|intros; apply only_ret]))) as Hn.
  destruct (notify_if _ _ _ _ st1) as [[[]|msg] st2]; [|exact Hn].
  eapply record_steps_trans; [exact Hn|]. unfold bind at 1.
  pose proof (record_steps_only _ l _ st2
                (only_executeEventHook talk config "device_added" l
                   ltac:(done) ltac:(done))) as Hh.
  destruct (executeEventHook _ _ _ st2) as [[[]|msg] st3]; [|exact Hh].
  eapply record_steps_trans; [exact Hh|].
  destruct (_ && _); [|reflexivity]. unfold bind at 1.
  pose proof (mountDevice_steps l st3) as Hm.
  destruct (mountDevice host config l st3) as [[[e|]|msg] st4]; [|exact Hm..].
  eapply record_steps_trans; [exact Hm|].
  apply (record_steps_only talk), only_automount_failed.
Qed.

Lemma mountAll_body_steps l st : record_steps l st (mountAll_body host config l st).2.
Proof.
  unfold mountAll_body, bind at 1, load.
  destruct (heap st !! l) as [dev|] eqn:Hd; [|reflexivity].
  destruct (_ && _); [|reflexivity]. unfold bind at 1.
  pose proof (mountDevice_steps l st) as Hm.
  destruct (mountDevice host config l st) as [[[e|]|msg] st1]; [|exact Hm..].
  eapply record_steps_trans; [exact Hm|].
  apply (record_steps_only talk).
  apply only_bind; [apply only_load|]. intros d. by apply only_do.
Qed.

(** [onDeviceRemoved] works on the record that [mounted] holds for the
    path, if there is one, and on none otherwise. *)
Lemma onDeviceRemoved_steps path st :
  match mounted st !! path with
  | Some l => record_steps l st (onDeviceRemoved host config path st).2
  | None => same_memory st (onDeviceRemoved host config path st).2
  end.
Proof.
  destruct (mounted st !! path) as [l|] eqn:Hm;
    unfold onDeviceRemoved, bind at 1, log; cbn [do_];
    set (st1 := add_trace _ st); unfold bind at 1, lookup_mounted;
    change (mounted st1) with (mounted st); rewrite Hm.
  - unfold bind at 1.
    assert (H1 : record_steps l st st1) by (by apply record_steps_quiet).
    assert (H2 : record_steps l st1
                   ((do err <- unmountDevice host config l;
                     match err with
                     | Some err => log ("Failed to unmount " +:+ path +:+ ": " +:+ err)
                     | None => ret tt
                     end) st1).2).
    { unfold bind at 1. pose proof (unmountDevice_steps l st1) as Hu.
      destruct (unmountDevice host config l st1) as [[[e|]|msg] st2]; [|exact Hu..].
      eapply record_steps_trans; [exact Hu|apply record_steps_add]. }
    destruct ((do err <- unmountDevice host config l; _) st1) as [[[]|msg] st2].
    + eapply record_steps_trans; [exact H1|]. eapply record_steps_trans; [exact H2|].
      apply (record_steps_only talk). apply only_notify_if; [done|].
      apply only_bind; [apply only_displayName|intros; apply only_ret].
    + by eapply record_steps_trans.
  - unfold bind at 1, ret at 1.
    assert (Hn : only talk
                   (notify_if config (DeviceRemoved_ (Notifications config))
                      "Device Removed" (ret (path +:+ " disconnected")))).
    { apply only_notify_if; [done|apply only_ret]. }
    destruct (Hn st1) as [(?&?&?&?&?) _]. by repeat split.
Qed.

End BookSteps.

(** ** Scanning into the books *)

Section ScanBooks.

Variable host : Host.
Variable config : Config.

(** What [place] does: it always returns, with one fresh pointer for each
    record, in order; the records are behind them; the older records, the
    [mounted] map, the file system and the trace are as before; and the
    manager's map has gained the paths and lost none. *)
Lemma place_spec devs st :
  books_ok st →
  ∃ ls st',
    place devs st = (Ret ls, st')
    ∧ books_ok st'
    ∧ Forall2 (fun l d => heap st' !! l = Some d) ls devs
    ∧ Forall (fun l => (next st ≤ l)%positive ∧ (l < next st')%positive) ls
    ∧ NoDup ls
    ∧ (next st ≤ next st')%positive
    ∧ (∀ l, (l < next st)%positive → heap st' !! l = heap st !! l)
    ∧ mounted st' = mounted st ∧ fs st' = fs st ∧ trace st' = trace st
    ∧ (∀ p, is_Some (devices st !! p) → is_Some (devices st' !! p))
    ∧ (∀ d, d ∈ devs → is_Some (devices st' !! Path d))
    ∧ (∀ p, p ∉ Path <$> devs → devices st' !! p = devices st !! p)
    ∧ (∀ d, d ∈ devs →
            ∃ l d', l ∈ ls ∧ devices st' !! Path d = Some l
                    ∧ heap st' !! l = Some d' ∧ Path d' = Path d).
Proof.
  revert st. induction devs as [|dev devs IH]; intros st Hb.
  - exists [], st. split; [reflexivity|]. split; [exact Hb|].
    split; [constructor|]. split; [constructor|]. split; [constructor|].
    split; [lia|]. do 5 (split; [done|]). split; [by intros d ?%elem_of_nil|].
    split; [done|]. by intros d ?%elem_of_nil.
  - cbn [place]. unfold bind at 1. cbn [alloc]. unfold bind at 1. unfold bind at 1.
    set (st1 := set_devices _ _).
    assert (Hb1 : books_ok st1).
    { destruct Hb as [Hf Hm]. split.
      - intros l. cbn. rewrite lookup_insert_is_Some.
        intros [<-|[_ H]]; [lia|]. apply Hf in H. lia.
      - intros p l Hp. cbn in Hp. destruct (Hm _ _ Hp) as (d&Hd&?&?).
        exists d. split; [|done]. cbn. rewrite lookup_insert_ne; [done|].
        intros <-. assert (H' : is_Some (heap st !! next st)) by eauto.
        apply Hf in H'. lia. }
    destruct (IH st1 Hb1)
      as (ls&st'&E&Hb'&H2&HF&ND&Hn&Hold&Hm&Hfs&Htr&Hdv&Hnew&Hkeep&Hlast).
    rewrite E. exists (next st :: ls), st'.
    change (next st1) with (Pos.succ (next st)) in *.
    split; [reflexivity|]. split; [exact Hb'|]. split.
    { constructor; [|exact H2]. rewrite Hold by lia. cbn. apply lookup_insert_eq. }
    split.
    { constructor; [lia|]. eapply Forall_impl; [exact HF|]. intros l [? ?]. lia. }
    split.
    { constructor; [|exact ND]. intros Hin.
      apply (proj1 (Forall_forall _ _) HF) in Hin as [? _]. lia. }
    split; [lia|]. split.
    { intros l Hl. rewrite Hold by lia. cbn. apply lookup_insert_ne. lia. }
    split; [exact Hm|]. split; [exact Hfs|]. split; [exact Htr|]. split.
    { intros p Hp. apply Hdv. cbn. rewrite lookup_insert_is_Some'. by right. }
    assert (Hhead : heap st' !! next st = Some dev).
    { rewrite Hold by lia. cbn. apply lookup_insert_eq. }
    split.
    { intros d [->|Hd]%elem_of_cons; [|by apply Hnew].
      apply Hdv. cbn. rewrite lookup_insert_is_Some'. by left. }
    split.
    { intros p Hp. rewrite fmap_cons in Hp. apply not_elem_of_cons in Hp as [Hne Hp].
      rewrite Hkeep by done. cbn. by rewrite lookup_insert_ne. }
    intros d Hd. destruct (decide (Path d ∈ Path <$> devs)) as [Hin|Hnin].
    + apply list_elem_of_fmap in Hin as (d2&HP&Hd2).
      destruct (Hlast d2 Hd2) as (l&d'&Hl&Hdl&Hh&HP').
      exists l, d'. split; [by right|]. rewrite HP. split; [done|]. split; [done|].
      congruence.
    + apply elem_of_cons in Hd as [->|Hd].
      * exists (next st), dev. split; [by left|].
        rewrite Hkeep by done. cbn. rewrite lookup_insert_eq. by repeat split.
      * destruct Hnin. apply list_elem_of_fmap. by exists d.
Qed.

(** The loop of [MountAll] keeps the books in order and touches only the
    records it is given. *)
Lemma mountAll_loop_spec ls st :
  books_ok st →
  books_ok (for_each ls (mountAll_body host config) st).2
  ∧ next (for_each ls (mountAll_body host config) st).2 = next st
  ∧ devices (for_each ls (mountAll_body host config) st).2 = devices st
  ∧ ∀ l, l ∉ ls →
         heap (for_each ls (mountAll_body host config) st).2 !! l = heap st !! l.
Proof.
  revert st. induction ls as [|l ls IH]; intros st Hb; [done|].
  cbn [for_each]. unfold bind at 1 2 3 4.
  pose proof (mountAll_body_steps host config l st) as Hs.
  destruct (mountAll_body host config l st) as [[[]|msg] st1]; cbn [snd] in Hs.
  - destruct (IH st1 (books_ok_steps _ _ _ Hs Hb)) as (Hb'&Hn&Hd&Hh).
    apply record_steps_touches_only in Hs as (Hn1&Hd1&Ho1&_).
    split; [exact Hb'|]. split; [congruence|]. split; [congruence|].
    intros l' Hl'. apply not_elem_of_cons in Hl' as [? ?]. rewrite Hh by done. by apply Ho1.
  - split; [by eapply books_ok_steps|].
    apply record_steps_touches_only in Hs as (Hn1&Hd1&Ho1&_).
    split; [done|]. split; [done|].
    intros l' Hl'. apply not_elem_of_cons in Hl' as [? ?]. by apply Ho1.
Qed.

End ScanBooks.

(** ** What each procedure does to the outside *)

(** From [st] to [st'] every new action satisfies [P]. *)
Definition emits (P : Action → Prop) (st st' : State) : Prop :=
  ∃ acts, trace st' = trace st ++ acts ∧ Forall P acts.

Lemma emits_refl P st : emits P st st.
Proof. exists []. by rewrite app_nil_r. Qed.

Lemma emits_trans P st1 st2 st3 : emits P st1 st2 → emits P st2 st3 → emits P st1 st3.
Proof.
  intros (a1&T1&F1) (a2&T2&F2). exists (a1 ++ a2).
  split; [by rewrite T2, T1, app_assoc|by apply Forall_app].
Qed.

Lemma emits_add P a st : P a → emits P st (add_trace a st).
Proof. intros Ha. exists [a]. split; [done|]. by constructor. Qed.

Lemma emits_same_trace P st st' : trace st' = trace st → emits P st st'.
Proof. intros H. exists []. by rewrite app_nil_r. Qed.

Lemma acts_only_emits P st st' : acts_only P st st' → emits P st st'.
Proof. by intros [_ ?]. Qed.

Lemma emits_weaken (P Q : Action → Prop) st st' :
  (∀ a, P a → Q a) → emits P st st' → emits Q st st'.
Proof. intros H (acts&T&F). exists acts. split; [done|]. eapply Forall_impl; eauto. Qed.

Section Footprints.

Variable host : Host.
Variable config : Config.

(** What [notify_if] sends when its body is the display name of the record
    behind [l] with a suffix. *)
Lemma notify_name_emits (P : Action → Prop) t title (wrap : string → string) l st dev :
  heap st !! l = Some dev →
  (∀ name ms, GetDisplayName dev = Ret name → P (ANotify title (wrap name) ms)) →
  emits P st (notify_if config t title (do name <- displayName l; ret (wrap name)) st).2.
Proof.
  intros Hd HP. unfold notify_if. destruct (_ && _); [|apply emits_refl].
  unfold bind at 1, bind at 1, displayName, bind at 1, load. rewrite Hd.
  unfold lift. destruct (GetDisplayName dev) as [name|] eqn:E; [|apply emits_refl].
  unfold ret. cbn [do_ snd]. apply emits_add. by apply HP.
Qed.

(** The actions of [unlockDevice] on a record: the two log lines that name
    the path, the prompt and the notification that name its display name,
    the password command, the [geli] command and the reading of a line.
    What is typed or what the password command prints goes to [geli] and
    nowhere else. *)
Definition unlock_action (dev : Device) (a : Action) : Prop :=
  match a with
  | ALog s =>
      s = "Unlocking encrypted device " +:+ Path dev
      ∨ s = "Successfully unlocked " +:+ Path dev
  | APrint s =>
      ∃ name, GetDisplayName dev = Ret name ∧ s = "Enter password for " +:+ name +:+ ": "
  | ANotify title body _ =>
      title = "Device Unlocked"
      ∧ ∃ name, GetDisplayName dev = Ret name ∧ body = name +:+ " unlocked"
  | AExec c _ =>
      (cmd_name c = "sh" ∧ cmd_args c = ["-c"; PasswordCmd (GELI config)]
       ∧ cmd_stdin c = None)
      ∨ (cmd_name c = "geli"
         ∧ (cmd_args c = ["attach"; Path dev]
            ∨ ∃ keyfile, KeyFiles (GELI config) !! UUID dev = Some keyfile
                         ∧ cmd_args c = ["attach"; "-k"; keyfile; Path dev]))
  | AReadLine _ _ => True
  | _ => False
  end.

Lemma getPassword_emits l st dev :
  heap st !! l = Some dev →
  emits (unlock_action dev) st (getPassword host config l st).2
  ∧ heap (getPassword host config l st).2 = heap st.
Proof.
  intros Hd. unfold getPassword. destruct (negb _).
  - cbv beta iota zeta delta [bind exec].
    destruct (exec_err (host_exec host _ _)); cbn; (split; [|done]);
      apply emits_add; cbn; by left.
  - cbv beta iota delta [bind displayName load lift]. rewrite Hd.
    destruct (GetDisplayName dev) as [name|] eqn:E; [|split; [apply emits_refl|done]].
    cbv beta iota zeta delta [do_ ReadLine].
    set (st1 := add_trace (APrint _) st).
    assert (H1 : emits (unlock_action dev) st st1).
    { apply emits_add. cbn. by exists name. }
    assert (H2 : emits (unlock_action dev) st1
                   (add_trace (AReadLine (host_readline host (trace st1)).1
                                         (host_readline host (trace st1)).2) st1)).
    { by apply emits_add. }
    destruct ((host_readline host _).2); cbn [fst snd ret];
      (split; [by eapply emits_trans|done]).
Qed.

Lemma attach_emits l c st dev :
  heap st !! l = Some dev →
  (∀ r, unlock_action dev (AExec c r)) →
  emits (unlock_action dev) st (attach host config l (Path dev) c st).2.
Proof.
  intros Hd Hc. unfold attach, bind at 1, exec. cbn [fst snd].
  set (st1 := add_trace _ st).
  assert (H1 : emits (unlock_action dev) st st1) by (by apply emits_add).
  destruct (exec_err _); [exact H1|].
  unfold bind at 1, update, bind at 1, load. change (heap st1) with (heap st).
  rewrite Hd. unfold bind at 1. cbn [do_ log].
  set (st2 := add_trace _ (set_heap _ st1)).
  assert (H2 : emits (unlock_action dev) st st2).
  { eapply emits_trans; [exact H1|]. apply (emits_add _ _ (set_heap _ st1)). cbn. by right. }
  unfold bind at 1.
  assert (H3 : emits (unlock_action dev) st2
                 (notify_if config (DeviceUnlocked (Notifications config)) "Device Unlocked"
                    (do name <- displayName l; ret (name +:+ " unlocked")) st2).2).
  { apply (notify_name_emits _ _ _ (fun name => name +:+ " unlocked") l st2
             (set_IsUnlocked true dev)).
    - cbn. apply lookup_insert_eq.
    - intros name ms E. cbn. split; [done|]. by exists name. }
  destruct (notify_if _ _ _ _ st2) as [[[]|msg] st3]; by eapply emits_trans.
Qed.

(** X7: Whatever [unlockDevice] does to the outside is one of these actions: it
    logs the path but never the pass phrase. *)
Theorem unlockDevice_never_logs_the_passphrase l st dev :
  heap st !! l = Some dev →
  emits (unlock_action dev) st (unlockDevice host config l st).2.
Proof.
  intros Hd. unfold unlockDevice. destruct (negb _); [apply emits_refl|].
  unfold bind at 1, load. rewrite Hd. unfold bind at 1, log. cbn [do_].
  set (st1 := add_trace _ st).
  assert (H1 : emits (unlock_action dev) st st1) by (apply emits_add; cbn; by left).
  destruct (KeyFiles (GELI config) !! UUID dev) as [keyfile|] eqn:Hk.
  - eapply emits_trans; [exact H1|]. apply attach_emits; [done|].
    intros r. cbn. right. split; [done|]. right. by exists keyfile.
  - unfold bind at 1.
    destruct (getPassword_emits l st1 dev Hd) as [Hp Hh].
    destruct (getPassword host config l st1) as [[pw|msg] st2]; cbn [snd] in Hp, Hh.
    + destruct (pw.2).
      * by eapply emits_trans.
      * eapply emits_trans; [exact H1|]. eapply emits_trans; [exact Hp|].
        apply attach_emits; [by rewrite Hh|].
        intros r. cbn. right. split; [done|]. by left.
    + by eapply emits_trans.
Qed.

End Footprints.

(** ** The books stay in order *)

(** [books_ok] as a test. *)
Definition books_okb (st : State) : bool :=
  forallb (fun e : loc * Device => Pos.ltb e.1 (next st)) (map_to_list (heap st))
  && forallb (fun e : string * loc =>
                match heap st !! e.2 with
                | Some dev => String.eqb (Path dev) e.1 && IsMounted dev
                | None => false
                end) (map_to_list (mounted st)).

Lemma books_okb_ok st : books_okb st = true → books_ok st.
Proof.
  unfold books_okb. rewrite andb_true_iff, !forallb_forall.
  intros [H1 H2]. split.
  - intros l [dev Hd]. apply Pos.ltb_lt.
    apply (H1 (l, dev)), list_elem_of_In, elem_of_map_to_list, Hd.
  - intros p l Hp.
    specialize (H2 (p, l)). cbn [fst snd] in H2.
    destruct (heap st !! l) as [dev|].
    + exists dev. split; [done|].
      assert (H : String.eqb (Path dev) p && IsMounted dev = true).
      { by apply H2, list_elem_of_In, elem_of_map_to_list. }
      apply andb_true_iff in H as [H3 H4]. by apply String.eqb_eq in H3.
    + exfalso. assert (H : false = true); [|discriminate].
      by apply H2, list_elem_of_In, elem_of_map_to_list.
Qed.

Lemma books_ok_same_memory st st' : same_memory st st' → books_ok st → books_ok st'.
Proof. intros H. apply (books_ok_steps 1%positive). by apply record_steps_quiet. Qed.

Section BooksKept.

Variable host : Host.
Variable config : Config.

Lemma onDeviceRemoved_keeps_books path st :
  books_ok st → books_ok (onDeviceRemoved host config path st).2.
Proof.
  intros Hb. pose proof (onDeviceRemoved_steps host config path st) as H.
  destruct (mounted st !! path) as [l'|].
  - exact (books_ok_steps l' _ _ H Hb).
  - exact (books_ok_same_memory _ _ H Hb).
Qed.

(** X8: Whatever the host answers and however a procedure ends (with a result,
    an error or a panic), the daemon's procedures on a record and its two
    handlers leave the books in order: no path in [mounted] leads to a
    record that is missing, has another path or does not count as
    mounted. *)
Theorem daemon_keeps_the_books l st :
  books_ok st →
  books_ok (mountDevice host config l st).2
  ∧ books_ok (unmountDevice host config l st).2
  ∧ books_ok (unlockDevice host config l st).2
  ∧ books_ok (onDeviceAdded host config l st).2
  ∧ ∀ path, books_ok (onDeviceRemoved host config path st).2.
Proof.
  intros Hb.
  split; [exact (books_ok_steps l _ _ (mountDevice_steps host config l st) Hb)|].
  split; [exact (books_ok_steps l _ _ (unmountDevice_steps host config l st) Hb)|].
  split; [exact (books_ok_steps l _ _ (unlockDevice_steps host config l st) Hb)|].
  split; [exact (books_ok_steps l _ _ (onDeviceAdded_steps host config l st) Hb)|].
  intros path. by apply onDeviceRemoved_keeps_books.
Qed.

(** X9: A procedure on the record behind [l] changes the books about [l] and
    nothing else: every other record is as before, no pointer is handed
    out, the manager's map is as before, and the record behind [l] still
    names the same device (name, path, label, identifier, file system,
    size, what kind of device it is). [onDeviceRemoved] does so for the
    record that [mounted] holds for the path and changes no record at all
    when there is none. *)
Theorem daemon_touches_one_record l st :
  touches_only l st (mountDevice host config l st).2
  ∧ touches_only l st (unmountDevice host config l st).2
  ∧ touches_only l st (unlockDevice host config l st).2
  ∧ touches_only l st (onDeviceAdded host config l st).2
  ∧ ∀ path,
      match mounted st !! path with
      | Some l' => touches_only l' st (onDeviceRemoved host config path st).2
      | None => same_memory st (onDeviceRemoved host config path st).2
      end.
Proof.
  split; [apply record_steps_touches_only, mountDevice_steps|].
  split; [apply record_steps_touches_only, unmountDevice_steps|].
  split; [apply record_steps_touches_only, unlockDevice_steps|].
  split; [apply record_steps_touches_only, onDeviceAdded_steps|].
  intros path. pose proof (onDeviceRemoved_steps host config path st) as H.
  destruct (mounted st !! path) as [l'|]; [by apply record_steps_touches_only|done].
Qed.

(** What [d.deviceMgr.Scan()] does to the books: it always returns; with an
    error it returns no record and leaves the memory alone; without one it
    returns one record for each device found, in order, each behind a
    pointer that led nowhere before and all of them different. In both
    cases the records that were there, the [mounted] map and the file
    system are as before, the books stay in order, and the manager's map
    forgets no path it had. *)
Lemma deviceMgr_Scan_fresh st :
  books_ok st →
  ∃ ls st',
    deviceMgr_Scan host st = (Ret (ls, (host_scan host (trace st)).2), st')
    ∧ books_ok st'
    ∧ match (host_scan host (trace st)).2 with
      | Some _ => ls = [] ∧ same_memory st st'
      | None =>
          Forall2 (fun l d => heap st' !! l = Some d) ls (host_scan host (trace st)).1
          ∧ ∀ d, d ∈ (host_scan host (trace st)).1 → is_Some (devices st' !! Path d)
      end
    ∧ NoDup ls
    ∧ Forall (fun l => heap st !! l = None) ls
    ∧ (∀ l, is_Some (heap st !! l) → heap st' !! l = heap st !! l)
    ∧ mounted st' = mounted st
    ∧ fs st' = fs st
    ∧ (∀ p, is_Some (devices st !! p) → is_Some (devices st' !! p)).
Proof.
  intros Hb. unfold deviceMgr_Scan. cbv zeta.
  set (r := host_scan host (trace st)).
  set (st0 := add_trace (AScan r.1 r.2) st).
  assert (Hb0 : books_ok st0) by (by apply (books_ok_same_memory st)).
  destruct (r.2) as [err|] eqn:Hr.
  - exists [], st0. split; [reflexivity|]. split; [exact Hb0|].
    split; [split; [done|by repeat split]|].
    split; [constructor|]. split; [constructor|]. by repeat split.
  - destruct (place_spec r.1 st0 Hb0)
      as (ls&st'&E&Hb'&Hf2&Hfr&Hnd&Hn&Hold&Hm&Hfs&Ht&Hdev&Hnew&_).
    exists ls, st'. unfold bind. rewrite E. split; [reflexivity|].
    split; [exact Hb'|]. split; [by split|]. split; [exact Hnd|].
    split.
    { eapply Forall_impl; [exact Hfr|]. intros l [Hl _]. cbn beta in *.
      destruct (heap st !! l) as [d|] eqn:Hd; [|done].
      assert (l < next st)%positive by (apply Hb; eauto).
      change (next st0) with (next st) in Hl. lia. }
    split.
    { intros l Hl. apply Hold. apply Hb, Hl. }
    by repeat split.
Qed.

(** X10: What [d.deviceMgr.Scan()] does to the books: it always returns; with an
    error it returns no record and leaves the memory alone; without one it
    returns one record for each device found, in order, each behind a
    pointer that led nowhere before and all of them different, and the
    manager's map then leads, for each path found, to a record of this scan
    with that path. In both cases the records that were there, the
    [mounted] map and the file system are as before, and for a path that
    the scan has not found the manager's map still leads where it led: to
    the record of an earlier scan, if there was one. *)
Theorem Scan_hands_out_fresh_records st :
  books_ok st →
  ∃ ls st',
    deviceMgr_Scan host st = (Ret (ls, (host_scan host (trace st)).2), st')
    ∧ match (host_scan host (trace st)).2 with
      | Some _ => ls = [] ∧ same_memory st st'
      | None =>
          Forall2 (fun l d => heap st' !! l = Some d) ls (host_scan host (trace st)).1
          ∧ (∀ d, d ∈ (host_scan host (trace st)).1 →
                  ∃ l d', l ∈ ls ∧ devices st' !! Path d = Some l
                          ∧ heap st' !! l = Some d' ∧ Path d' = Path d)
          ∧ (∀ p, p ∉ Path <$> (host_scan host (trace st)).1 →
                  devices st' !! p = devices st !! p)
      end
    ∧ NoDup ls
    ∧ Forall (fun l => heap st !! l = None) ls
    ∧ (∀ l, is_Some (heap st !! l) → heap st' !! l = heap st !! l)
    ∧ mounted st' = mounted st
    ∧ fs st' = fs st.
Proof.
  intros Hb. unfold deviceMgr_Scan. cbv zeta.
  set (r := host_scan host (trace st)).
  set (st0 := add_trace (AScan r.1 r.2) st).
  assert (Hb0 : books_ok st0) by (by apply (books_ok_same_memory st)).
  destruct (r.2) as [err|] eqn:Hr.
  - exists [], st0. split; [reflexivity|].
    split; [split; [done|by repeat split]|].
    split; [constructor|]. split; [constructor|]. by repeat split.
  - destruct (place_spec r.1 st0 Hb0)
      as (ls&st'&E&_&Hf2&Hfr&Hnd&_&Hold&Hm&Hfs&_&_&_&Hkeep&Hlast).
    exists ls, st'. unfold bind. rewrite E. split; [reflexivity|].
    split; [by repeat split|]. split; [exact Hnd|].
    split.
    { eapply Forall_impl; [exact Hfr|]. intros l [Hl _]. cbn beta in *.
      destruct (heap st !! l) as [d|] eqn:Hd; [|done].
      assert (l < next st)%positive by (apply Hb; eauto).
      change (next st0) with (next st) in Hl. lia. }
    split.
    { intros l Hl. apply Hold. apply Hb, Hl. }
    by split.
Qed.

(** X11: [MountAll] keeps the books in order, and it works on the records of
    its own scan only: a record that was there before the call (one that
    [mounted] holds from an earlier mount, say) is not changed by it, and
    the manager's map forgets no path. *)
Theorem MountAll_keeps_the_books st :
  books_ok st →
  books_ok (MountAll host config st).2
  ∧ (∀ l, is_Some (heap st !! l) →
          heap (MountAll host config st).2 !! l = heap st !! l)
  ∧ (∀ p, is_Some (devices st !! p) →
          is_Some (devices (MountAll host config st).2 !! p)).
Proof.
  intros Hb.
  destruct (deviceMgr_Scan_fresh st Hb)
    as (ls&st1&E&Hb1&Hcase&Hnd&Hfresh&Hold&Hm&Hfs&Hdev).
  assert (Hgen : ∀ st2, (MountAll host config st).2 = st2 →
            books_ok st2
            ∧ (∀ l, is_Some (heap st !! l) → heap st2 !! l = heap st !! l)
            ∧ (∀ p, is_Some (devices st !! p) → is_Some (devices st2 !! p)));
    [|by apply Hgen].
  intros st2. unfold MountAll, bind at 1. rewrite E. cbn [fst snd].
  destruct ((host_scan host (trace st)).2) as [err|].
  - cbn [ret snd]. intros <-. split; [exact Hb1|]. split; [exact Hold|exact Hdev].
  - unfold bind.
    destruct (mountAll_loop_spec host config ls st1 Hb1) as (Hb2&Hn2&Hd2&Hh2).
    destruct (for_each ls (mountAll_body host config) st1) as [[[]|msg] st3];
      cbn [ret snd] in *; intros <-; (split; [exact Hb2|]); (split;
        [intros l Hl; rewrite Hh2; [by apply Hold|];
         intros Hin; rewrite Forall_forall in Hfresh;
         rewrite (Hfresh _ Hin) in Hl; by destruct Hl
        |intros p Hp; rewrite Hd2; by apply Hdev]).
Qed.

End BooksKept.

(** ** Mounting that fails, unmounting, and the hooks *)

Lemma ReplaceAll_absent (s old' new : string) (c : ascii) :
  strings.ContainsByte s c = false →
  strings.ReplaceAll s (String c old') new = s.
Proof.
  unfold strings.ReplaceAll. induction s as [|d s IH]; [reflexivity|].
  cbn [strings.ContainsByte strings.replace_from strings.HasPrefix].
  destruct (Ascii.eqb c d); [by intros ?|]. intros H. by rewrite IH.
Qed.

(** A hook line without a brace has no placeholder: it is the line the
    shell is given, whatever the record. *)
Lemma hook_line_verbatim hookCmd dev :
  strings.ContainsByte hookCmd "{" = false → hook_line hookCmd dev = hookCmd.
Proof.
  intros H. unfold hook_line. by do 4 rewrite (ReplaceAll_absent hookCmd _ _ _ H).
Qed.

Section MountOutcomes.

Variable host : Host.
Variable config : Config.

Definition mount_log (dev : Device) (mountPoint : string) : Action :=
  ALog ("Mounting " +:+ Path dev +:+ " at " +:+ mountPoint
          +:+ " (fstype: " +:+ FSType dev +:+ ")").

Definition mount_cmd (dev : Device) (mountPoint : string) : Cmd :=
  mkCmd "mount"
        (mount_args dev
           (GetMountOptions config (FSType dev) (Label dev) (UUID dev) (Path dev))
           mountPoint)
        None.

(** What the mount tool answers when [mountDevice] runs it from [st] for a
    record that needs no unlocking. *)
Definition mount_answer (st : State) (dev : Device) (mountPoint : string) : ExecResult :=
  host_exec host (trace st ++ [AMkdirAll mountPoint None; mount_log dev mountPoint])
            (mount_cmd dev mountPoint).

(** X12: When the mount tool fails, [mountDevice] returns its error and output
    and stops: the records and [mounted] are as before, but the directory
    it has made for the mount stays behind; nothing removes it. *)
Theorem failed_mount_leaves_the_directory st l dev mp err :
  heap st !! l = Some dev →
  IsMounted dev = false →
  IsEncrypted dev && negb (IsUnlocked dev) = false →
  GetMountDirectory dev (MountBase config) = Ret mp →
  (fsys.MkdirAll (fs st) mp).2 = None →
  exec_err (mount_answer st dev mp) = Some err →
  ∃ st',
    mountDevice host config l st
    = (Ret (Some ("mount failed: " +:+ err +:+ " (output: "
                    +:+ output (mount_answer st dev mp) +:+ ")")), st')
    ∧ heap st' = heap st
    ∧ mounted st' = mounted st
    ∧ fs st' = made mp (fs st)
    ∧ fs st' !! mp = Some fsys.Dir
    ∧ trace st'
      = trace st ++ [AMkdirAll mp None; mount_log dev mp;
                     AExec (mount_cmd dev mp) (mount_answer st dev mp)].
Proof.
  intros Hd Hm Hu Hmp Hmk He.
  rewrite (mountDevice_eq host config st l dev Hd), Hm.
  unfold unlock_if_needed. rewrite Hu. unfold ret.
  unfold mountUnlocked, bind at 1, load. rewrite Hd.
  unfold bind at 1, lift. rewrite Hmp.
  unfold bind at 1, MkdirAll.
  destruct (fsys.MkdirAll (fs st) mp) as [fs1 e] eqn:Emk. cbn [snd] in Hmk. subst e.
  apply MkdirAll_ok in Emk. subst fs1.
  unfold bind at 1, log. cbn [do_]. unfold bind at 1, exec.
  cbn [trace add_trace set_fs].
  rewrite <- app_assoc. cbn [app].
  change (host_exec host _ _) with (mount_answer st dev mp).
  rewrite He. eexists. split; [reflexivity|].
  cbn [heap mounted fs trace add_trace set_fs].
  split; [done|]. split; [done|]. split; [done|].
  split; [apply lookup_made_self|].
  by rewrite <- !app_assoc.
Qed.

(** The actions of [unmountDevice] on a record: the unmount tool on the
    record's mount point, the removal of that directory, logs and a
    notification, and the hook. It makes no directory, runs no other tool
    and removes nothing else. *)
Definition unmount_action (dev : Device) (a : Action) : Prop :=
  match a with
  | AExec c _ => c = umount_cmd dev
  | ARemove path _ => path = MountPoint dev
  | ALog _ | ANotify _ _ _ => True
  | AGo c =>
      ∃ hookCmd, EventHooks config !! "device_unmounted" = Some hookCmd
                 ∧ c = mkCmd "sh" ["-c"; hook_line hookCmd (set_MountPoint "" false dev)] None
  | _ => False
  end.

Lemma unmount_hook_emits l dev st :
  heap st !! l = Some (set_MountPoint "" false dev) →
  emits (unmount_action dev) st (executeEventHook config "device_unmounted" l st).2.
Proof.
  intros Hd. destruct (EventHooks config !! "device_unmounted") as [h|] eqn:Hh.
  - rewrite (executeEventHook_runs_shell config _ l st _ h Hh Hd). cbn [snd].
    eapply (emits_trans _ _ (add_trace (ALog _) st)); [by apply emits_add|].
    apply emits_add. cbn. eauto.
  - unfold executeEventHook. rewrite Hh. apply emits_refl.
Qed.

(** X13: Whatever [unmountDevice] does to the outside is one of these actions,
    however it ends: it runs no tool but [umount] on the record's mount
    point, makes no directory and removes nothing but that mount point. *)
Theorem unmountDevice_footprint st l dev :
  heap st !! l = Some dev →
  emits (unmount_action dev) st (unmountDevice host config l st).2.
Proof.
  intros Hd. rewrite (unmountDevice_eq host config st l dev Hd).
  destruct (IsMounted dev); cbn [negb]; [|apply emits_refl].
  assert (H0 : emits (unmount_action dev) st (after_umount host st dev)).
  { eapply (emits_trans _ _ (add_trace (unmount_log dev) st)); by apply emits_add. }
  destruct (exec_err _); [exact H0|]. cbv zeta.
  set (st1 := add_trace (ARemove _ _) _).
  assert (H1 : emits (unmount_action dev) st st1).
  { eapply emits_trans; [exact H0|].
    unfold st1. exists [ARemove (MountPoint dev) (fsys.Remove (fs st) (MountPoint dev)).2].
    split; [done|]. by constructor. }
  assert (Hd1 : heap st1 !! l = Some (set_MountPoint "" false dev)).
  { cbn. apply lookup_insert_eq. }
  eapply emits_trans; [exact H1|].
  unfold unmount_tail, bind at 1, log. cbn [do_].
  set (st2 := add_trace _ st1).
  assert (H2 : emits (unmount_action dev) st1 st2) by (by apply emits_add).
  unfold bind at 1.
  assert (H3 : emits (unmount_action dev) st2
                 (notify_if config (DeviceUnmounted (Notifications config))
                    "Device Unmounted"
                    (do name <- displayName l; ret (name +:+ " unmounted")) st2).2).
  { apply acts_only_emits.
    apply (only_notify_if (unmount_action dev)); [done|].
    apply only_bind; [apply only_displayName|intros; apply only_ret]. }
  assert (H4 : same_memory st2
                 (notify_if config (DeviceUnmounted (Notifications config))
                    "Device Unmounted"
                    (do name <- displayName l; ret (name +:+ " unmounted")) st2).2).
  { apply (only_notify_if talk); [done|].
    apply only_bind; [apply only_displayName|intros; apply only_ret]. }
  destruct (notify_if _ _ _ _ st2) as [[[]|msg] st3]; cbn [snd] in H3, H4.
  - unfold bind at 1.
    assert (H5 : emits (unmount_action dev) st3
                   (executeEventHook config "device_unmounted" l st3).2).
    { apply unmount_hook_emits. destruct H4 as (->&_). exact Hd1. }
    destruct (executeEventHook _ _ _ st3) as [[[]|msg] st4]; cbn [snd ret] in *;
      (eapply emits_trans; [exact H2|]); (eapply emits_trans; [exact H3|exact H5]).
  - by eapply emits_trans.
Qed.

(** X14: The hook for [device_unmounted] is run after the record has lost its
    mount point: when [unmountDevice] succeeds, the last thing it does is
    to start the shell on the hook line in which [{mount_point}] has been
    replaced by the empty string. *)
Theorem unmount_hook_gets_no_mount_point st l dev hookCmd st' :
  heap st !! l = Some dev →
  EventHooks config !! "device_unmounted" = Some hookCmd →
  unmountDevice host config l st = (Ret None, st') →
  ∃ before,
    trace st'
    = before
      ++ [AGo (mkCmd "sh"
                 ["-c";
                  strings.ReplaceAll
                    (strings.ReplaceAll
                       (strings.ReplaceAll
                          (strings.ReplaceAll hookCmd "{device}" (Path dev))
                          "{label}" (Label dev))
                       "{uuid}" (UUID dev))
                    "{mount_point}" ""] None)].
Proof.
  intros Hd Hh. rewrite (unmountDevice_eq host config st l dev Hd).
  destruct (IsMounted dev); cbn [negb]; [|discriminate].
  destruct (exec_err _); [discriminate|]. cbv zeta.
  set (st1 := add_trace (ARemove _ _) _).
  assert (Hd1 : heap st1 !! l = Some (set_MountPoint "" false dev)).
  { cbn. apply lookup_insert_eq. }
  unfold unmount_tail, bind at 1, log. cbn [do_].
  set (st2 := add_trace _ st1). unfold bind at 1.
  assert (H4 : same_memory st2
                 (notify_if config (DeviceUnmounted (Notifications config))
                    "Device Unmounted"
                    (do name <- displayName l; ret (name +:+ " unmounted")) st2).2).
  { apply (only_notify_if talk); [done|].
    apply only_bind; [apply only_displayName|intros; apply only_ret]. }
  destruct (notify_if _ _ _ _ st2) as [[[]|msg] st3]; cbn [snd] in H4; [|discriminate].
  unfold bind at 1.
  rewrite (executeEventHook_runs_shell config _ l st3 (set_MountPoint "" false dev)
             hookCmd Hh).
  - intros [= <-]. eexists. reflexivity.
  - destruct H4 as (->&_). exact Hd1.
Qed.

End MountOutcomes.

(** ** What the handlers do *)

Section HandlerOutcomes.

Variable host : Host.
Variable config : Config.

(** What [onDeviceAdded] does for a record with display name [name] before
    it comes to mounting: the notification, when notifications of this
    kind are on, and the hook [device_added], when there is one. *)
Definition added_notice (name : string) : list Action :=
  if Enabled (Notifications config) && f64_positive (DeviceAdded_ (Notifications config))
  then [ANotify "Device Added" (name +:+ " connected")
          (f64_millis (DeviceAdded_ (Notifications config)))]
  else [].

Definition added_hook (dev : Device) : list Action :=
  match EventHooks config !! "device_added" with
  | Some hookCmd =>
      [ALog ("Executing event hook for device_added: " +:+ hook_line hookCmd dev);
       AGo (mkCmd "sh" ["-c"; hook_line hookCmd dev] None)]
  | None => []
  end.

(** X15: [onDeviceAdded] mounts nothing for a device that the configuration
    ignores, for a device that is no partition, and for a device whose
    automount is off, and it leaves the memory as it is. For an ignored
    device it writes its two log lines and does nothing else: no
    notification is sent and no hook is run. For a device that is not
    ignored but is no partition or has automount off, it writes the log
    line, sends the "Device Added" notification when these are on, and
    starts the hook [device_added] through [sh -c] when there is one; it
    does nothing else: it makes no directory and runs neither [mount] nor
    [geli]. *)
Theorem onDeviceAdded_without_automount st l dev name :
  heap st !! l = Some dev →
  GetDisplayName dev = Ret name →
  (ShouldIgnoreDevice config (Label dev) (UUID dev) (Path dev) = true →
   ∃ st',
     onDeviceAdded host config l st = (Ret tt, st')
     ∧ same_memory st st'
     ∧ trace st'
       = trace st ++ [ALog ("Device added: " +:+ Path dev +:+ " (" +:+ name +:+ ")");
                      ALog ("Ignoring device " +:+ Path dev)])
  ∧ (ShouldIgnoreDevice config (Label dev) (UUID dev) (Path dev) = false →
     IsPartition dev && ShouldAutomountDevice config (Label dev) (UUID dev) (Path dev)
     = false →
     ∃ st',
       onDeviceAdded host config l st = (Ret tt, st')
       ∧ same_memory st st'
       ∧ trace st'
         = trace st ++ ALog ("Device added: " +:+ Path dev +:+ " (" +:+ name +:+ ")")
                    :: added_notice name ++ added_hook dev).
Proof.
  intros Hd Hn. split.
  - intros Hi. eexists. unfold onDeviceAdded, bind at 1, load. rewrite Hd.
    unfold bind at 1, lift. rewrite Hn.
    unfold bind at 1, log. cbn [do_]. rewrite Hi.
    split; [reflexivity|]. split; [by repeat split|].
    cbn [trace add_trace]. by rewrite <- app_assoc.
  - intros Hi Ha. unfold onDeviceAdded, bind at 1, load. rewrite Hd.
    unfold bind at 1, lift. rewrite Hn.
    unfold bind at 1, log. cbn [do_]. rewrite Hi, Ha.
    set (st1 := add_trace _ st).
    assert (Hd1 : heap st1 !! l = Some dev) by exact Hd.
    assert (H1 : ∃ st2,
              notify_if config (DeviceAdded_ (Notifications config)) "Device Added"
                (do name <- displayName l; ret (name +:+ " connected")) st1
              = (Ret tt, st2)
              ∧ same_memory st st2
              ∧ trace st2 = trace st1 ++ added_notice name).
    { unfold notify_if, added_notice.
      destruct (Enabled (Notifications config) && f64_positive _).
      - eexists. unfold bind at 1, bind at 1, displayName, bind at 1, load. rewrite Hd1.
        unfold lift. rewrite Hn. unfold ret, do_. split; [reflexivity|].
        split; [by repeat split|reflexivity].
      - unfold ret. eexists. split; [reflexivity|].
        split; [by repeat split|]. by rewrite app_nil_r. }
    destruct H1 as (st2&E2&M2&T2). unfold bind at 1. rewrite E2.
    assert (Hd2 : heap st2 !! l = Some dev).
    { destruct M2 as (Hh&_). by rewrite Hh. }
    assert (H3 : ∃ st3,
              executeEventHook config "device_added" l st2 = (Ret tt, st3)
              ∧ same_memory st st3
              ∧ trace st3 = trace st2 ++ added_hook dev).
    { unfold added_hook. destruct (EventHooks config !! "device_added") as [h|] eqn:Eh.
      - eexists. rewrite (executeEventHook_runs_shell config _ l st2 dev h Eh Hd2).
        split; [reflexivity|].
        split; [destruct M2 as (?&?&?&?&?); by repeat split|].
        cbn [trace add_trace]. by rewrite <- app_assoc.
      - unfold executeEventHook. rewrite Eh. unfold ret. eexists.
        split; [reflexivity|]. split; [exact M2|]. by rewrite app_nil_r. }
    destruct H3 as (st3&E3&M3&T3). unfold bind at 1. rewrite E3. unfold ret.
    exists st3. split; [reflexivity|]. split; [exact M3|].
    rewrite T3, T2. unfold st1. cbn [trace add_trace].
    by rewrite <- !app_assoc.
Qed.

(** X16: For a record with no label and an identifier of one to seven bytes,
    [onDeviceAdded] panics in its first statement, before it has logged or
    changed anything; and so does [mountDevice], before it makes a
    directory, when the record needs no unlocking. *)
Theorem short_UUID_panics_in_the_daemon st l dev :
  heap st !! l = Some dev →
  Label dev = "" → UUID dev ≠ "" → (String.length (UUID dev) < 8)%nat →
  (∃ msg, onDeviceAdded host config l st = (Panic msg, st))
  ∧ (IsMounted dev = false → IsEncrypted dev && negb (IsUnlocked dev) = false →
     ∃ msg, mountDevice host config l st = (Panic msg, st)).
Proof.
  intros Hd HL HU Hlen.
  assert (Hp : ∃ msg, GetDisplayName dev = Panic msg).
  { unfold GetDisplayName. rewrite HL. cbn [String.eqb negb].
    destruct (String.eqb_spec (UUID dev) "") as [E|_]; [done|]. cbn [negb].
    unfold slice_to. destruct (Nat.leb_spec 8 (String.length (UUID dev))); [lia|].
    eauto. }
  destruct Hp as [msg Hp]. split.
  - exists msg. unfold onDeviceAdded, bind at 1, load. rewrite Hd.
    unfold bind at 1, lift. by rewrite Hp.
  - intros Hm Hu. exists msg.
    rewrite (mountDevice_eq host config st l dev Hd), Hm.
    unfold unlock_if_needed. rewrite Hu. unfold ret.
    unfold mountUnlocked, bind at 1, load. rewrite Hd.
    unfold bind at 1, lift, GetMountDirectory. by rewrite Hp.
Qed.

(** The notification [onDeviceRemoved] sends for a path that [mounted] does
    not hold. *)
Definition removed_notice (path : string) (a : Action) : Prop :=
  ∃ ms, a = ANotify "Device Removed" (path +:+ " disconnected") ms.

(** X17: For a path that [mounted] does not hold, [onDeviceRemoved] returns
    after a log line and at most one notification that names the path: it
    runs no tool and the memory is as before. *)
Theorem onDeviceRemoved_untracked st path :
  mounted st !! path = None →
  ∃ st' acts,
    onDeviceRemoved host config path st = (Ret tt, st')
    ∧ same_memory st st'
    ∧ trace st' = trace st ++ ALog ("Device removed: " +:+ path) :: acts
    ∧ (length acts ≤ 1)%nat
    ∧ Forall (removed_notice path) acts.
Proof.
  intros Hm. unfold onDeviceRemoved, bind at 1, log. cbn [do_].
  unfold bind at 1, lookup_mounted. cbn [mounted add_trace]. rewrite Hm.
  unfold bind at 1, ret at 1. unfold notify_if.
  destruct (_ && _).
  - unfold bind, ret, do_. eexists _, [_]. split; [reflexivity|].
    split; [by repeat split|]. split; [cbn; by rewrite <- app_assoc|].
    split; [cbn; lia|]. constructor; [|constructor]. by eexists.
  - unfold ret. eexists _, []. split; [reflexivity|].
    split; [by repeat split|]. split; [done|]. split; [cbn; lia|]. constructor.
Qed.

(** X18: For a path that [mounted] holds, [onDeviceRemoved] runs the unmount
    tool on the record's mount point. If the tool succeeds the path leaves
    [mounted], the record loses its mount point and the mount point is
    given to [os.Remove], whose result is dropped: the directory is gone
    when [os.Remove] returned [nil] and the file system is as before when
    it returned an error. If the tool fails, the error is logged and the
    records and [mounted] stay as they were: the path of the device that is
    gone stays in [mounted]. *)
Theorem onDeviceRemoved_tracked st path l dev :
  books_ok st →
  mounted st !! path = Some l →
  heap st !! l = Some dev →
  match exec_err (umount_answer host
                    (add_trace (ALog ("Device removed: " +:+ path)) st) dev) with
  | Some err =>
      same_memory st (onDeviceRemoved host config path st).2
      ∧ mounted (onDeviceRemoved host config path st).2 !! path = Some l
      ∧ ALog ("Failed to unmount " +:+ path +:+ ": unmount failed: " +:+ err
                +:+ " (output: "
                +:+ output (umount_answer host
                              (add_trace (ALog ("Device removed: " +:+ path)) st) dev)
                +:+ ")")
        ∈ trace (onDeviceRemoved host config path st).2
  | None =>
      mounted (onDeviceRemoved host config path st).2 = delete path (mounted st)
      ∧ heap (onDeviceRemoved host config path st).2
        = <[l := set_MountPoint "" false dev]> (heap st)
      ∧ ∃ r acts,
          trace (onDeviceRemoved host config path st).2 = trace st ++ acts
          ∧ ARemove (MountPoint dev) r ∈ acts
          ∧ fs (onDeviceRemoved host config path st).2
            = match r with
              | None => delete (MountPoint dev) (fs st)
              | Some _ => fs st
              end
  end.
Proof.
  intros Hb Hm Hd.
  destruct (proj2 Hb _ _ Hm) as (d&Hd'&HP&HM).
  assert (d = dev) by congruence. subst d.
  set (st1 := add_trace (ALog ("Device removed: " +:+ path)) st).
  assert (Hd1 : heap st1 !! l = Some dev) by exact Hd.
  pose proof (unmountDevice_eq host config st1 l dev Hd1) as Eu.
  rewrite HM in Eu. cbn [negb] in Eu.
  assert (Hgen : ∀ r, onDeviceRemoved host config path st = r →
            r = match unmountDevice host config l st1 with
                | (Ret (Some err), st2) =>
                    notify_if config (DeviceRemoved_ (Notifications config))
                      "Device Removed"
                      (do name <- displayName l; ret (name +:+ " disconnected"))
                      (add_trace (ALog ("Failed to unmount " +:+ path +:+ ": " +:+ err)) st2)
                | (Ret None, st2) =>
                    notify_if config (DeviceRemoved_ (Notifications config))
                      "Device Removed"
                      (do name <- displayName l; ret (name +:+ " disconnected")) st2
                | (Panic msg, st2) => (Panic msg, st2)
                end).
  { intros r <-. unfold onDeviceRemoved, bind at 1, log. cbn [do_]. fold st1.
    unfold bind at 1, lookup_mounted. change (mounted st1) with (mounted st).
    rewrite Hm. unfold bind at 1, bind at 1.
    destruct (unmountDevice host config l st1) as [[[e|]|msg] st2]; reflexivity. }
  assert (Hn : ∀ s, acts_only talk s
                  (notify_if config (DeviceRemoved_ (Notifications config))
                     "Device Removed"
                     (do name <- displayName l; ret (name +:+ " disconnected")) s).2).
  { apply only_notify_if; [done|].
    apply only_bind; [apply only_displayName|intros; apply only_ret]. }
  rewrite (Hgen _ eq_refl). clear Hgen.
  destruct (exec_err (umount_answer host st1 dev)) as [err|] eqn:He.
  - rewrite Eu.
    set (st2 := add_trace (ALog _) (after_umount host st1 dev)).
    destruct (Hn st2) as [(H1&H2&H3&H4&H5) (acts&Ht&_)].
    split; [by repeat split|]. split; [by rewrite H3|].
    rewrite Ht. apply elem_of_app. left. cbn. apply elem_of_app. right.
    by apply list_elem_of_singleton.
  - destruct (unmountDevice host config l st1) as [[[e|]|msg] st2] eqn:E.
    + exfalso. symmetry in Eu. revert Eu. unfold unmount_tail. never_error.
    + pose proof (unmountDevice_success_trace host config _ _ _ _ Hd1 E) as (a1&Ht1&_).
      apply unmountDevice_success in E as (d&Hd2&_&_&Hh&Hmm&_&Hfs).
      assert (d = dev) by congruence. subst d.
      destruct (Hn st2) as [(H1&H2&H3&H4&H5) (a2&Ht2&_)].
      rewrite H1, H3, H5, Hh, Hmm, Hfs, HP.
      split; [done|]. split; [done|].
      eexists (fsys.Remove (fs st1) (MountPoint dev)).2, _. split.
      { rewrite Ht2, Ht1. unfold st1. cbn [trace add_trace].
        rewrite <- !app_assoc. reflexivity. }
      split.
      { rewrite !elem_of_app, !elem_of_cons. right. left. by do 2 right; left. }
      exact (Remove_cases (fs st) (MountPoint dev)).
    + cbn [snd]. cbv zeta in Eu.
      set (s0 := add_trace (ARemove _ _) _) in Eu.
      pose proof (only_unmount_tail config l dev s0) as [(H1&H2&H3&H4&H5) (a2&Ht2&_)].
      rewrite <- Eu in H1, H3, H5, Ht2. cbn [snd] in H1, H3, H5, Ht2.
      rewrite H1, H3, H5. unfold s0, unmounted.
      cbn [heap mounted fs add_trace set_fs set_mounted set_heap after_umount].
      rewrite HP. split; [done|]. split; [done|].
      eexists (fsys.Remove (fs st1) (MountPoint dev)).2, _. split.
      { rewrite Ht2. unfold s0, st1.
        cbn [trace add_trace set_fs unmounted set_mounted set_heap after_umount].
        rewrite <- !app_assoc. reflexivity. }
      split.
      { rewrite !elem_of_app, !elem_of_cons. tauto. }
      exact (Remove_cases (fs st) (MountPoint dev)).
Qed.

(** X19: A hook line without a placeholder is given to the shell as it stands,
    whatever the record says; a line with one is changed only by the four
    replacements. *)
Theorem hook_without_placeholder_runs_verbatim st l dev event hookCmd :
  EventHooks config !! event = Some hookCmd →
  heap st !! l = Some dev →
  strings.ContainsByte hookCmd "{" = false →
  executeEventHook config event l st
  = (Ret tt,
     add_trace (AGo (mkCmd "sh" ["-c"; hookCmd] None))
       (add_trace (ALog ("Executing event hook for " +:+ event +:+ ": " +:+ hookCmd)) st)).
Proof.
  intros Hh Hd Hc.
  rewrite (executeEventHook_runs_shell config event l st dev hookCmd Hh Hd).
  by rewrite hook_line_verbatim.
Qed.

End HandlerOutcomes.

(** ** One tick of the poll loop, with its handlers *)

Lemma for_each_fmap {A B} (f : A → B) (xs : list A) (body : B → M unit) st :
  for_each (f <$> xs) body st = for_each xs (fun x => body (f x)) st.
Proof.
  revert st. induction xs as [|x xs IH]; intros st; [reflexivity|].
  cbn [fmap list_fmap for_each]. unfold bind.
  destruct (body (f x) st) as [[[]|msg] st1]; [apply IH|reflexivity].
Qed.

Lemma Forall2_impl_elem {A B} (P Q : A → B → Prop) (xs : list A) (ys : list B) :
  Forall2 P xs ys → (∀ x y, x ∈ xs → P x y → Q x y) → Forall2 Q xs ys.
Proof.
  induction 1 as [|x y xs ys H _ IH]; intros HPQ; constructor.
  - apply HPQ; [by left|done].
  - apply IH. intros x' y' Hin. apply HPQ. by right.
Qed.

Section PollLoopFacts.

Variable host : Host.
Variable config : Config.
Variable visit : gmap string bool → list string.

(** A call of a handler: [onDeviceAdded] on a record or [onDeviceRemoved]
    on a path. *)
Definition handle (call : loc + string) : M unit :=
  match call with
  | inl l => onDeviceAdded host config l
  | inr path => onDeviceRemoved host config path
  end.

(** The computation that makes the calls one after the other and then
    returns [known]. *)
Definition calls_then (calls : list (loc + string)) (known : gmap string bool)
  : M (gmap string bool) :=
  run for_each calls handle; ret known.

(** The call [call] is the call the event [e] stands for, the records
    being those of [st]. *)
Definition call_for (st : State) (call : loc + string) (e : Poll.Event) : Prop :=
  match call, e with
  | inl l, Poll.DeviceAdded dev => heap st !! l = Some dev
  | inr path, Poll.DeviceRemoved path' => path = path'
  | _, _ => False
  end.

Lemma handle_keeps_books call st : books_ok st → books_ok (handle call st).2.
Proof.
  intros Hb. destruct call as [l|path]; cbn [handle].
  - exact (books_ok_steps l _ _ (onDeviceAdded_steps host config l st) Hb).
  - by apply onDeviceRemoved_keeps_books.
Qed.

Lemma calls_keep_books calls st : books_ok st → books_ok (for_each calls handle st).2.
Proof.
  revert st. induction calls as [|c calls IH]; intros st Hb; [done|].
  cbn [for_each]. unfold bind. pose proof (handle_keeps_books c st Hb) as H.
  destruct (handle c st) as [[[]|msg] st1]; [by apply IH|done].
Qed.

(** The first loop: the handler is called on the records that are new when
    their turn comes, in the order of the scan, and the two maps are those
    of the loop without handlers. *)
Lemma poll_added_loop ls devs known current st :
  NoDup ls →
  Forall2 (fun l d => heap st !! l = Some d) ls devs →
  ∃ calls,
    Forall2 (fun l d => heap st !! l = Some d) calls (first_new known devs)
    ∧ (∀ l, l ∈ calls → l ∈ ls)
    ∧ fold_M ls (poll_added host config) (known, current) st
      = match for_each calls (onDeviceAdded host config) st with
        | (Ret _, st') => (Ret (mark devs known, mark devs current), st')
        | (Panic msg, st') => (Panic msg, st')
        end.
Proof.
  intros Hnd Hf. revert ls known current st Hnd Hf.
  induction devs as [|d devs IH]; intros ls known current st Hnd Hf.
  - apply Forall2_nil_inv_r in Hf as ->. exists []. split; [constructor|].
    split; [by intros l ?%elem_of_nil|]. reflexivity.
  - apply Forall2_cons_inv_r in Hf as (l&ls'&Hd&Hf&->).
    apply NoDup_cons in Hnd as [Hl Hnd].
    rewrite !mark_cons. cbn [fold_M first_new].
    unfold bind at 1, poll_added at 1, bind at 1, load. rewrite Hd. cbn [fst snd].
    destruct (Poll.get known (Path d)) eqn:Hg; cbn [negb].
    + destruct (IH ls' known (<[Path d := true]> current) st Hnd Hf) as (calls&H1&H2&H3).
      exists calls. split; [done|]. split; [intros l' ?; right; by apply H2|].
      unfold ret at 1. rewrite H3. apply get_true in Hg. by rewrite (insert_id known).
    + unfold bind at 1.
      pose proof (record_steps_touches_only _ _ _ (onDeviceAdded_steps host config l st))
        as Ht.
      destruct Ht as (_&_&Hother&Hrec). rewrite Hd in Hrec.
      destruct Hrec as (d'&Hd'&_&HP&_).
      assert (Hf1 : Forall2 (fun l0 d0 => heap (onDeviceAdded host config l st).2 !! l0 = Some d0)
                      ls' devs).
      { eapply Forall2_impl_elem; [exact Hf|]. intros l' d0 Hin Hl'.
        cbn beta in *. rewrite Hother; [done|]. by intros ->. }
      destruct (IH ls' (<[Path d := true]> known) (<[Path d := true]> current) _ Hnd Hf1)
        as (calls&H1&H2&H3).
      exists (l :: calls). split.
      { constructor; [done|].
        eapply Forall2_impl_elem; [exact H1|]. intros l' d0 Hin Hl'.
        cbn beta in *. rewrite <- Hother; [done|].
        intros ->. by apply Hl, H2. }
      split.
      { intros l' [->|Hin]%elem_of_cons; [by left|right; by apply H2]. }
      cbn [for_each]. unfold bind at 2.
      destruct (onDeviceAdded host config l st) as [[[]|msg] st1]; [|reflexivity].
      cbn [snd] in *.
      unfold bind at 1, load. rewrite Hd'. unfold ret at 1. by rewrite HP, H3.
Qed.

(** The second loop: the handler is called on the keys that the scan did
    not list, in the order of the visit, and these keys are deleted. *)
Lemma poll_removed_loop current order known st :
  fold_M order (poll_removed host config current) known st
  = match for_each (gone current order) (onDeviceRemoved host config) st with
    | (Ret _, st') =>
        (Ret (fold_left (fun m p => delete p m) (gone current order) known), st')
    | (Panic msg, st') => (Panic msg, st')
    end.
Proof.
  revert known st. unfold gone.
  induction order as [|p order IH]; intros known st; [reflexivity|].
  cbn [fold_M]. rewrite filter_cons. unfold bind at 1, poll_removed at 1.
  destruct (decide (Poll.get current p = false)) as [Hg|Hg].
  - rewrite Hg. cbn [negb for_each fold_left]. unfold bind.
    destruct (onDeviceRemoved host config p st) as [[[]|msg] st1]; [|reflexivity].
    unfold ret at 1. apply IH.
  - apply not_false_is_true in Hg. rewrite Hg. cbn [negb]. unfold ret at 1. apply IH.
Qed.

(** The devices the scan of a tick that starts in [st] finds. *)
Definition scanned (st : State) : list Device := (host_scan host (trace st)).1.

(** The tick without its handlers: the new [knownDevices] and the calls
    that are due. *)
Definition pure_tick (known : gmap string bool) (st : State)
  : gmap string bool * list Poll.Event :=
  Poll.tick known (scanned st) (visit (Poll.known_after_add known (scanned st))).

(** The paths a tick that starts in [st] finds gone, in the order of the
    visit. *)
Definition found_gone (known : gmap string bool) (st : State) : list string :=
  gone (mark (scanned st) ∅) (visit (mark (scanned st) known)).

Lemma pure_tick_eq known st :
  pure_tick known st
  = (fold_left (fun m p => delete p m) (found_gone known st) (mark (scanned st) known),
     (Poll.DeviceAdded <$> first_new known (scanned st))
       ++ (Poll.DeviceRemoved <$> found_gone known st)).
Proof. unfold pure_tick, found_gone. by rewrite tick_eq, known_after_add_eq. Qed.

Lemma deviceMgr_Scan_trace st :
  trace (deviceMgr_Scan host st).2
  = trace st ++ [AScan (host_scan host (trace st)).1 (host_scan host (trace st)).2].
Proof.
  unfold deviceMgr_Scan. cbv zeta.
  destruct ((host_scan host (trace st)).2) as [err|]; [reflexivity|].
  set (st0 := add_trace _ st).
  assert (H : ∀ devs s, trace (place devs s).2 = trace s).
  { induction devs as [|d devs IH]; intros s; [reflexivity|].
    cbn [place]. unfold bind at 1. cbn [alloc]. unfold bind at 1. unfold bind at 1.
    specialize (IH (set_devices (insert (Path d) (next s))
                      (set_next (Pos.succ (next s)) (set_heap (insert (next s) d) s)))).
    destruct (place devs _) as [[ls|msg] s']; exact IH. }
  specialize (H (host_scan host (trace st)).1 st0). unfold bind.
  by destruct (place _ st0) as [[ls|msg] s'].
Qed.

(** A tick whose scan succeeded, as the calls it makes: [onDeviceAdded] on
    the records of the devices that are new, in the order of the scan, and
    then [onDeviceRemoved] on the paths found gone, in the order of the
    visit; each call is made when the one before it has returned. *)
Lemma pollDevices_tick_calls known st :
  books_ok st →
  (host_scan host (trace st)).2 = None →
  ∃ ls st1 added,
    deviceMgr_Scan host st = (Ret (ls, None), st1)
    ∧ books_ok st1
    ∧ Forall2 (fun l d => heap st1 !! l = Some d) added (first_new known (scanned st))
    ∧ pollDevices_tick host config visit known st
      = calls_then ((inl <$> added) ++ (inr <$> found_gone known st))
                   (pure_tick known st).1 st1.
Proof.
  intros Hb Hs.
  destruct (deviceMgr_Scan_fresh host st Hb) as (ls&st1&E&Hb1&Hcase&Hnd&_).
  rewrite Hs in E, Hcase. destruct Hcase as [Hf _].
  destruct (poll_added_loop ls (scanned st) known ∅ st1 Hnd Hf) as (calls&H1&H2&H3).
  exists ls, st1, calls. split; [exact E|]. split; [exact Hb1|]. split; [exact H1|].
  unfold pollDevices_tick, bind at 1. rewrite E. cbn [fst snd].
  unfold bind at 1. rewrite H3.
  unfold calls_then, bind at 1.
  rewrite for_each_app, for_each_fmap. cbn [handle fst snd].
  change (for_each calls (fun x => onDeviceAdded host config x) st1)
    with (for_each calls (onDeviceAdded host config) st1).
  destruct (for_each calls (onDeviceAdded host config) st1) as [[[]|msg] st2];
    [|reflexivity].
  cbn [fst snd].
  rewrite poll_removed_loop, for_each_fmap. cbn [handle].
  fold (found_gone known st).
  change (for_each (found_gone known st) (fun x => onDeviceRemoved host config x) st2)
    with (for_each (found_gone known st) (onDeviceRemoved host config) st2).
  destruct (for_each (found_gone known st) (onDeviceRemoved host config) st2)
    as [[[]|msg] st3]; [|reflexivity].
  unfold ret. by rewrite pure_tick_eq.
Qed.

(** X20: One tick of [pollDevices], whatever the order in which the second loop
    visits the keys. After a scan that failed, the error is logged, no
    handler is called, and [knownDevices] and the memory are as before.
    After a scan that succeeded, the tick makes exactly the calls of the
    loop taken by itself, in that order, each [onDeviceAdded] on the record
    the scan made for the device, and ends with the [knownDevices] of that
    loop (unless a handler panics, which ends the tick there). In both
    cases the books are in order afterwards. *)
Theorem pollDevices_tick_calls_the_handlers known st :
  books_ok st →
  books_ok (pollDevices_tick host config visit known st).2
  ∧ match (host_scan host (trace st)).2 with
    | Some err =>
        (pollDevices_tick host config visit known st).1 = Ret known
        ∧ same_memory st (pollDevices_tick host config visit known st).2
        ∧ trace (pollDevices_tick host config visit known st).2
          = trace st ++ [AScan (scanned st) (Some err);
                         ALog ("Failed to scan devices: " +:+ err)]
    | None =>
        ∃ ls st1 calls,
          deviceMgr_Scan host st = (Ret (ls, None), st1)
          ∧ Forall2 (call_for st1) calls (pure_tick known st).2
          ∧ pollDevices_tick host config visit known st
            = calls_then calls (pure_tick known st).1 st1
    end.
Proof.
  intros Hb.
  destruct (deviceMgr_Scan_fresh host st Hb)
    as (ls&st1&E&Hb1&Hcase&Hnd&_).
  assert (Hgen : ∀ r, pollDevices_tick host config visit known st = r →
            books_ok r.2
            ∧ match (host_scan host (trace st)).2 with
              | Some err =>
                  r.1 = Ret known
                  ∧ same_memory st r.2
                  ∧ trace r.2
                    = trace st ++ [AScan (scanned st) (Some err);
                                   ALog ("Failed to scan devices: " +:+ err)]
              | None =>
                  ∃ ls st1 calls,
                    deviceMgr_Scan host st = (Ret (ls, None), st1)
                    ∧ Forall2 (call_for st1) calls (pure_tick known st).2
                    ∧ r = calls_then calls (pure_tick known st).1 st1
              end); [|by apply Hgen].
  intros r. unfold pollDevices_tick, bind at 1. rewrite E. cbn [fst snd].
  destruct ((host_scan host (trace st)).2) as [err|] eqn:Hs.
  - destruct Hcase as [-> Hsame].
    unfold bind, log, do_, ret. intros <-. cbn [fst snd].
    split; [apply (books_ok_same_memory st1); [by repeat split|done]|].
    split; [done|].
    split; [destruct Hsame as (?&?&?&?&?); by repeat split|].
    cbn [trace add_trace]. revert E. unfold deviceMgr_Scan. cbv zeta. rewrite Hs.
    intros [= <-]. cbn [trace add_trace]. unfold scanned. by rewrite <- app_assoc.
  - destruct Hcase as [Hf _].
    destruct (poll_added_loop ls (scanned st) known ∅ st1 Hnd Hf) as (calls&H1&H2&H3).
    unfold bind at 1. rewrite H3.
    set (order := visit (Poll.known_after_add known (scanned st))).
    set (removed := gone (mark (scanned st) ∅) order).
    assert (Hev : Forall2 (call_for st1) ((inl <$> calls) ++ (inr <$> removed))
                    (pure_tick known st).2).
    { unfold pure_tick. fold order. rewrite tick_eq. cbn [snd]. fold removed.
      apply Forall2_app.
      - apply Forall2_fmap. eapply Forall2_impl; [exact H1|]. by intros l d.
      - apply Forall2_fmap, Forall_Forall2_diag, Forall_forall. by intros p _. }
    match goal with
    | |- ?lhs = r → _ =>
        assert (Heq : lhs = calls_then ((inl <$> calls) ++ (inr <$> removed))
                              (pure_tick known st).1 st1)
    end.
    { unfold calls_then, bind at 1.
      rewrite for_each_app, for_each_fmap. cbn [handle fst snd].
      change (for_each calls (fun x => onDeviceAdded host config x) st1)
        with (for_each calls (onDeviceAdded host config) st1).
      destruct (for_each calls (onDeviceAdded host config) st1) as [[[]|msg] st2];
        [|reflexivity].
      cbn [fst snd].
      rewrite poll_removed_loop, for_each_fmap. cbn [handle].
      rewrite <- (known_after_add_eq known (scanned st)). fold order. fold removed.
      change (for_each removed (fun x => onDeviceRemoved host config x) st2)
        with (for_each removed (onDeviceRemoved host config) st2).
      destruct (for_each removed (onDeviceRemoved host config) st2) as [[[]|msg] st3];
        [|reflexivity].
      unfold ret, pure_tick. fold order. rewrite tick_eq. cbn [fst].
      fold removed. by rewrite (known_after_add_eq known (scanned st)). }
    rewrite Heq. intros <-. split.
    + unfold calls_then, bind.
      pose proof (calls_keep_books ((inl <$> calls) ++ (inr <$> removed)) st1 Hb1) as Hk.
      by destruct (for_each _ handle st1) as [[[]|msg] st2].
    + by exists ls, st1, ((inl <$> calls) ++ (inr <$> removed)).
Qed.

(** A record with no label and an identifier of one to seven bytes has no
    display name: [GetDisplayName] panics. *)
Lemma GetDisplayName_panics dev :
  Label dev = "" → UUID dev ≠ "" → (String.length (UUID dev) < 8)%nat →
  ∃ msg, GetDisplayName dev = Panic msg.
Proof.
  intros HL HU Hlen. unfold GetDisplayName. rewrite HL. cbn [String.eqb negb].
  destruct (String.eqb_spec (UUID dev) "") as [E|_]; [done|]. cbn [negb].
  unfold slice_to. destruct (Nat.leb_spec 8 (String.length (UUID dev))); [lia|].
  eauto.
Qed.

(** C3: a tick in which the first new device of the scan has no label and an
    identifier of one to seven bytes ends in the panic of [GetDisplayName],
    in the first statement of [onDeviceAdded]: all that has happened by
    then is the scan. No handler has run, so the other new devices of the
    scan get no call of [onDeviceAdded] and the known paths that the scan
    lacks get no call of [onDeviceRemoved], although both are due. *)
Theorem tick_stops_at_a_panicking_handler known st d rest :
  books_ok st →
  (host_scan host (trace st)).2 = None →
  first_new known (scanned st) = d :: rest →
  Label d = "" → UUID d ≠ "" → (String.length (UUID d) < 8)%nat →
  ∃ ls st1 msg,
    deviceMgr_Scan host st = (Ret (ls, None), st1)
    ∧ trace st1 = trace st ++ [AScan (scanned st) None]
    ∧ pollDevices_tick host config visit known st = (Panic msg, st1)
    ∧ (pure_tick known st).2
      = Poll.DeviceAdded d
          :: (Poll.DeviceAdded <$> rest) ++ (Poll.DeviceRemoved <$> found_gone known st).
Proof.
  intros Hb Hs Hn HL HU Hlen.
  destruct (pollDevices_tick_calls known st Hb Hs) as (ls&st1&added&E&_&Hf&Ht).
  destruct (GetDisplayName_panics d HL HU Hlen) as [msg Hp].
  rewrite Hn in Hf. apply Forall2_cons_inv_r in Hf as (l&added'&Hd&_&->).
  exists ls, st1, msg. split; [exact E|]. split.
  { pose proof (deviceMgr_Scan_trace st) as H. rewrite E, Hs in H. exact H. }
  split.
  - rewrite Ht. unfold calls_then, bind at 1. cbn [fmap list_fmap app for_each handle].
    unfold bind at 1, onDeviceAdded, bind at 1, load. rewrite Hd.
    unfold bind at 1, lift. by rewrite Hp.
  - by rewrite pure_tick_eq, Hn.
Qed.

(** C4, as the code has it: in a tick whose scan succeeded the handlers are
    called one after the other, each when the one before it has returned:
    first [onDeviceAdded] on the records of the new devices, in the order
    of the scan result, one for each new path at its first occurrence;
    then [onDeviceRemoved] on the known paths that the scan lacks, once
    each, in the order in which the map is visited. The paths themselves
    play no part in the order. A tick that visits the map in another order makes the
    same calls of [onDeviceAdded] on the same records, is due the same
    calls of [onDeviceRemoved] in another order, and remembers the same
    paths. *)
Theorem pollDevices_calls_in_scan_then_visit_order known st :
  books_ok st →
  (host_scan host (trace st)).2 = None →
  ∃ ls st1 added,
    deviceMgr_Scan host st = (Ret (ls, None), st1)
    ∧ Forall2 (fun l d => heap st1 !! l = Some d) added (first_new known (scanned st))
    ∧ first_new known (scanned st) `sublist_of` scanned st
    ∧ NoDup (Path <$> first_new known (scanned st))
    ∧ (∀ p, p ∈ Path <$> first_new known (scanned st)
            ↔ p ∈ Path <$> scanned st ∧ Poll.get known p = false)
    ∧ found_gone known st `sublist_of` visit (mark (scanned st) known)
    ∧ (Poll.range_order (mark (scanned st) known) (visit (mark (scanned st) known)) →
       NoDup (found_gone known st)
       ∧ ∀ p, p ∈ found_gone known st
              ↔ is_Some (known !! p) ∧ p ∉ Path <$> scanned st)
    ∧ pollDevices_tick host config visit known st
      = calls_then ((inl <$> added) ++ (inr <$> found_gone known st))
                   (pure_tick known st).1 st1
    ∧ ∀ visit' : gmap string bool → list string,
        visit' (mark (scanned st) known) ≡ₚ visit (mark (scanned st) known) →
        ∃ removed',
          removed' ≡ₚ found_gone known st
          ∧ removed' `sublist_of` visit' (mark (scanned st) known)
          ∧ pollDevices_tick host config visit' known st
            = calls_then ((inl <$> added) ++ (inr <$> removed'))
                         (pure_tick known st).1 st1.
Proof.
  intros Hb Hs.
  destruct (deviceMgr_Scan_fresh host st Hb) as (ls&st1&E&Hb1&Hcase&Hnd&_).
  rewrite Hs in E, Hcase. destruct Hcase as [Hf _].
  destruct (poll_added_loop ls (scanned st) known ∅ st1 Hnd Hf) as (added&H1&H2&H3).
  assert (Hrun : ∀ v : gmap string bool → list string,
            pollDevices_tick host config v known st
            = calls_then
                ((inl <$> added)
                   ++ (inr <$> gone (mark (scanned st) ∅) (v (mark (scanned st) known))))
                (fold_left (fun m p => delete p m)
                   (gone (mark (scanned st) ∅) (v (mark (scanned st) known)))
                   (mark (scanned st) known)) st1).
  { intros v. unfold pollDevices_tick, bind at 1. rewrite E. cbn [fst snd].
    unfold bind at 1. rewrite H3.
    unfold calls_then, bind at 1.
    rewrite for_each_app, for_each_fmap. cbn [handle fst snd].
    change (for_each added (fun x => onDeviceAdded host config x) st1)
      with (for_each added (onDeviceAdded host config) st1).
    destruct (for_each added (onDeviceAdded host config) st1) as [[[]|msg] st2];
      [|reflexivity].
    cbn [fst snd]. rewrite poll_removed_loop, for_each_fmap. cbn [handle].
    set (removed := gone (mark (scanned st) ∅) (v (mark (scanned st) known))).
    change (for_each removed (fun x => onDeviceRemoved host config x) st2)
      with (for_each removed (onDeviceRemoved host config) st2).
    by destruct (for_each removed (onDeviceRemoved host config) st2)
      as [[[]|msg] st3]. }
  exists ls, st1, added. split; [exact E|]. split; [exact H1|].
  split; [apply first_new_sublist|]. split; [apply first_new_NoDup|].
  split; [intros p; apply first_new_paths|].
  split; [apply sublist_filter|]. split.
  { intros Ho. split.
    - unfold found_gone, gone. apply NoDup_filter. by eapply range_order_NoDup.
    - intros p. unfold found_gone. rewrite gone_elem, (range_order_elem _ _ _ Ho).
      rewrite lookup_mark. destruct (decide (p ∈ Path <$> scanned st)); logic. }
  split.
  { rewrite (Hrun visit). fold (found_gone known st). by rewrite pure_tick_eq. }
  intros visit' Hp.
  exists (gone (mark (scanned st) ∅) (visit' (mark (scanned st) known))).
  assert (Hperm : gone (mark (scanned st) ∅) (visit' (mark (scanned st) known))
                  ≡ₚ found_gone known st).
  { unfold found_gone, gone. by rewrite Hp. }
  split; [exact Hperm|]. split; [apply sublist_filter|].
  rewrite (Hrun visit'), pure_tick_eq. cbn [fst]. f_equal.
  apply map_eq. intros p. rewrite !lookup_delete_all.
  destruct (decide (p ∈ gone (mark (scanned st) ∅) (visit' (mark (scanned st) known))))
    as [Hi|Hi];
    destruct (decide (p ∈ found_gone known st)) as [Hj|Hj]; try done;
    rewrite Hperm in Hi; done.
Qed.

(** X6: Two ticks of [pollDevices] in a row, the first of which returns. A
    device that the first scan shows and the second does not is handed to
    [onDeviceAdded] in the first tick, if its path was not known, and its
    path gets no call of [onDeviceRemoved] there; in the second tick the
    call of [onDeviceRemoved] for its path is among the calls the tick makes
    one after the other (it is made unless a call before it panics), no
    record with that path is handed to [onDeviceAdded], and the path is
    not known afterwards. *)
Theorem tick_added_then_removed known st known1 st1 p :
  books_ok st →
  (∀ m, Poll.range_order m (visit m)) →
  (host_scan host (trace st)).2 = None →
  pollDevices_tick host config visit known st = (Ret known1, st1) →
  (host_scan host (trace st1)).2 = None →
  p ∈ Path <$> scanned st →
  p ∉ Path <$> scanned st1 →
  (∃ ls st0 calls,
     deviceMgr_Scan host st = (Ret (ls, None), st0)
     ∧ for_each calls handle st0 = (Ret tt, st1)
     ∧ (Poll.get known p = false →
        ∃ l d, inl l ∈ calls ∧ heap st0 !! l = Some d ∧ Path d = p)
     ∧ inr p ∉ calls)
  ∧ (∃ ls st2 calls known2,
       deviceMgr_Scan host st1 = (Ret (ls, None), st2)
       ∧ pollDevices_tick host config visit known1 st1 = calls_then calls known2 st2
       ∧ inr p ∈ calls
       ∧ (∀ l d, inl l ∈ calls → heap st2 !! l = Some d → Path d ≠ p)
       ∧ known2 !! p = None).
Proof.
  intros Hb Hv Hs1 Ht1 Hs2 Hin Hout.
  destruct (pollDevices_tick_calls known st Hb Hs1) as (ls&st0&added&E&Hb0&Hf&Ht).
  rewrite Ht in Ht1. unfold calls_then, bind in Ht1.
  pose proof (calls_keep_books ((inl <$> added) ++ (inr <$> found_gone known st)) st0 Hb0)
    as Hb1.
  destruct (for_each _ handle st0) as [[[]|msg] st'] eqn:Ef; [|discriminate].
  unfold ret in Ht1. injection Ht1 as Hk <-. cbn [snd] in Hb1.
  assert (Hk1 : known1 !! p = Some true).
  { rewrite <- Hk, pure_tick_eq. cbn [fst]. rewrite lookup_delete_all.
    rewrite decide_False; [|unfold found_gone; rewrite gone_elem; logic].
    by rewrite lookup_mark, decide_True. }
  split.
  - exists ls, st0, ((inl <$> added) ++ (inr <$> found_gone known st)).
    split; [exact E|]. split; [exact Ef|]. split.
    + intros Hg.
      assert (Hp : p ∈ Path <$> first_new known (scanned st)) by (by apply first_new_paths).
      apply list_elem_of_fmap in Hp as (d&->&Hd).
      apply list_elem_of_lookup in Hd as [i Hi].
      destruct (Forall2_lookup_r _ _ _ _ _ Hf Hi) as (l&Hl&Hld).
      exists l, d. split; [|by split].
      apply elem_of_app. left. apply list_elem_of_fmap. exists l.
      split; [done|]. by eapply list_elem_of_lookup_2.
    + rewrite elem_of_app, !list_elem_of_fmap.
      intros [(l&[=]&_)|(q&[= <-]&Hq)].
      unfold found_gone in Hq. apply gone_elem in Hq as [_ Hq]. by destruct Hq.
  - destruct (pollDevices_tick_calls known1 st' Hb1 Hs2) as (ls2&st2&added2&E2&_&Hf2&Ht2).
    exists ls2, st2, ((inl <$> added2) ++ (inr <$> found_gone known1 st')),
      (pure_tick known1 st').1.
    split; [exact E2|]. split; [exact Ht2|]. split; [|split].
    + apply elem_of_app. right. apply list_elem_of_fmap. exists p. split; [done|].
      unfold found_gone. apply gone_elem. split; [|done].
      apply (range_order_elem _ _ _ (Hv _)).
      rewrite lookup_mark, decide_False by done. eauto.
    + intros l d. rewrite elem_of_app, !list_elem_of_fmap.
      intros [(l'&[= <-]&Hl)|(q&[=]&_)] Hd HP.
      apply list_elem_of_lookup in Hl as [i Hi].
      destruct (Forall2_lookup_l _ _ _ _ _ Hf2 Hi) as (d'&Hd'&Hld).
      assert (d' = d) by congruence. subst d'.
      assert (Hp : Path d ∈ Path <$> first_new known1 (scanned st')).
      { apply list_elem_of_fmap. exists d. split; [done|].
        by eapply list_elem_of_lookup_2. }
      apply first_new_paths in Hp as [Hp _]. rewrite HP in Hp. by destruct Hout.
    + rewrite pure_tick_eq. cbn [fst]. rewrite lookup_delete_all, decide_True; [done|].
      unfold found_gone. apply gone_elem. split; [|done].
      apply (range_order_elem _ _ _ (Hv _)).
      rewrite lookup_mark, decide_False by done. eauto.
Qed.

End PollLoopFacts.

(** ** The tray's "Mount All" *)

Lemma filter_ext_elem {A} (P Q : A → Prop) `{!∀ x, Decision (P x), !∀ x, Decision (Q x)}
      (xs : list A) :
  (∀ x, x ∈ xs → (P x ↔ Q x)) → filter P xs = filter Q xs.
Proof.
  induction xs as [|x xs IH]; intros Hx; [reflexivity|].
  rewrite !filter_cons. rewrite IH; [|intros y Hy; apply Hx; by right].
  destruct (decide (P x)) as [HP|HP], (decide (Q x)) as [HQ|HQ]; try done.
  - destruct HQ. apply Hx; [by left|done].
  - destruct HP. apply Hx; [by left|done].
Qed.

Section TrayFacts.

Variable host : Host.
Variable config : Config.

(** A [mountDevice] that returns an error leaves the record as one that
    does not count as mounted. *)
Lemma mountDevice_error_not_mounted st l dev err st' :
  heap st !! l = Some dev →
  IsMounted dev = false →
  mountDevice host config l st = (Ret (Some err), st') →
  ∃ dev', heap st' !! l = Some dev' ∧ IsMounted dev' = false ∧ Path dev' = Path dev.
Proof.
  intros Hd Hm. rewrite (mountDevice_eq host config st l dev Hd), Hm.
  unfold unlock_if_needed. destruct (_ && _).
  - destruct (unlockDevice host config l st) as [[[e|]|msg] st1] eqn:Eu;
      [| |discriminate];
      apply unlockDevice_post in Eu as [_ Hh].
    + intros [= _ <-]. exists dev. by rewrite Hh.
    + destruct Hh as (d&Hd'&Hh). intros [H1 H2]%mountUnlocked_error.
      assert (d = dev) by congruence. subst d.
      exists (set_IsUnlocked true dev). rewrite H1, Hh, lookup_insert_eq. by repeat split.
  - unfold ret. intros [H1 H2]%mountUnlocked_error. exists dev. by rewrite H1.
Qed.

(** Does the record behind [l] count as mounted in [st2] and not in
    [st1]? *)
Definition newly_mounted (st1 st2 : State) (l : loc) : bool :=
  match heap st1 !! l, heap st2 !! l with
  | Some d1, Some d2 => negb (IsMounted d1) && IsMounted d2
  | _, _ => false
  end.

(** The records of [ls] that got mounted between [st1] and [st2]. *)
Definition mounted_between (st1 st2 : State) (ls : list loc) : list loc :=
  filter (fun l => newly_mounted st1 st2 l = true) ls.

Lemma onMountAll_body_steps l n st :
  record_steps l st (onMountAll_body host config l n st).2.
Proof.
  unfold onMountAll_body, bind at 1, load.
  destruct (heap st !! l) as [dev|] eqn:Hd; [|reflexivity].
  destruct (_ && _); [|reflexivity]. unfold bind at 1, MountDevice.
  pose proof (mountDevice_steps host config l st) as Hm.
  destruct (mountDevice host config l st) as [[[e|]|msg] st1]; [|exact Hm..].
  eapply record_steps_trans; [exact Hm|].
  apply (record_steps_only talk).
  apply only_bind; [apply only_load|]. intros d.
  apply only_bind; [by apply only_do|]. intros _. apply only_ret.
Qed.

(** One turn of the loop adds one to the counter exactly when it has
    mounted the record. *)
Lemma onMountAll_body_counts l n st n' st' :
  onMountAll_body host config l n st = (Ret n', st') →
  n' = (n + if newly_mounted st st' l then 1 else 0)%nat.
Proof.
  unfold onMountAll_body, bind at 1, load, newly_mounted.
  destruct (heap st !! l) as [dev|] eqn:Hd; [|discriminate].
  destruct (IsMounted dev) eqn:Hm.
  { rewrite andb_false_r. cbn [andb]. intros [= <- <-]. rewrite Hd, Hm. cbn. lia. }
  destruct (_ && _).
  - unfold bind at 1, MountDevice.
    destruct (mountDevice host config l st) as [[[e|]|msg] st1] eqn:E; [| |discriminate].
    + apply (mountDevice_error_not_mounted _ _ _ _ _ Hd Hm) in E as (d'&Hd'&Hm'&_).
      unfold bind, load. rewrite Hd'. cbn [log do_ ret]. intros [= <- <-].
      cbn [heap add_trace]. rewrite Hd', Hm'. cbn. lia.
    + apply (mountDevice_success host config _ _ _ _ Hd) in E as (_&mp&_&_&Hh&_).
      intros [= <- <-]. rewrite Hh, lookup_insert_eq. cbn. lia.
  - intros [= <- <-]. rewrite Hd, Hm. cbn. lia.
Qed.

Lemma newly_mounted_ext st1 st2 st1' st2' l :
  heap st1' !! l = heap st1 !! l → heap st2' !! l = heap st2 !! l →
  newly_mounted st1' st2' l = newly_mounted st1 st2 l.
Proof. unfold newly_mounted. by intros -> ->. Qed.

(** The loop of [onMountAll] over records behind different pointers: its
    counter grows by the number of records that it mounted. *)
Lemma onMountAll_loop ls n st n' st' :
  NoDup ls →
  fold_M ls (onMountAll_body host config) n st = (Ret n', st') →
  n' = (n + length (mounted_between st st' ls))%nat
  ∧ (∀ l, l ∉ ls → heap st' !! l = heap st !! l).
Proof.
  revert n st. induction ls as [|l ls IH]; intros n st Hnd.
  - intros [= <- <-]. split; [cbn; lia|done].
  - apply NoDup_cons in Hnd as [Hl Hnd]. cbn [fold_M]. unfold bind at 1.
    pose proof (onMountAll_body_steps l n st) as Hs.
    apply record_steps_touches_only in Hs.
    destruct (onMountAll_body host config l n st) as [[n1|msg] st1] eqn:Eb; [|discriminate].
    cbn [snd] in Hs. destruct Hs as (_&_&Hother&_).
    apply onMountAll_body_counts in Eb.
    intros E. apply IH in E as [Hn Hrest]; [|done].
    split.
    + subst n' n1. unfold mounted_between. rewrite filter_cons.
      rewrite (newly_mounted_ext st st1 st st' l eq_refl (Hrest l Hl)).
      assert (Hf : filter (fun l0 => newly_mounted st1 st' l0 = true) ls
                   = filter (fun l0 => newly_mounted st st' l0 = true) ls).
      { apply filter_ext_elem. intros l0 Hin.
        rewrite (newly_mounted_ext st st' st1 st' l0); [done| |done].
        apply Hother. by intros ->. }
      unfold mounted_between in *. rewrite Hf.
      destruct (newly_mounted st st1 l).
      * rewrite decide_True by done. cbn [length]. lia.
      * rewrite decide_False by done. lia.
    + intros l' Hl'. apply not_elem_of_cons in Hl' as [Hne Hl'].
      rewrite Hrest by done. by apply Hother.
Qed.

(** X21: "Mount All" from the tray counts what it mounts. After a scan that
    succeeded, and unless a record makes it panic, [onMountAll] has mounted
    [n] of the records of the scan, and it ends by sending the notification
    "Mounted [n] device(s)" when [n] is positive and by sending none when
    [n] is zero: the failures are in the log only. *)
Theorem onMountAll_counts_its_mounts st o st' :
  books_ok st →
  (host_scan host (trace st ++ [ALog "Tray: Mount All clicked"])).2 = None →
  onMountAll host config st = (o, st') →
  (∃ msg, o = Panic msg)
  ∨ ∃ ls st1 st2,
      deviceMgr_Scan host (add_trace (ALog "Tray: Mount All clicked") st)
      = (Ret (ls, None), st1)
      ∧ fold_M ls (onMountAll_body host config) 0%nat st1
        = (Ret (length (mounted_between st1 st2 ls)), st2)
      ∧ (o, st')
        = if Nat.ltb 0 (length (mounted_between st1 st2 ls))
          then showNotification host "Mount All"
                 ("Mounted " +:+ pretty (length (mounted_between st1 st2 ls))
                    +:+ " device(s)") st2
          else (Ret tt, st2).
Proof.
  intros Hb Hs. unfold onMountAll, bind at 1, log. cbn [do_].
  set (st0 := add_trace (ALog "Tray: Mount All clicked") st).
  assert (Hb0 : books_ok st0) by (by apply (books_ok_same_memory st)).
  destruct (deviceMgr_Scan_fresh host st0 Hb0) as (ls&st1&E&_&_&Hnd&_).
  change (trace st0) with (trace st ++ [ALog "Tray: Mount All clicked"]) in E.
  rewrite Hs in E. unfold bind at 1. rewrite E. cbn [fst snd]. unfold bind at 1.
  destruct (fold_M ls (onMountAll_body host config) 0%nat st1) as [[n|msg] st2] eqn:El.
  - apply onMountAll_loop in El as Hn; [|done]. destruct Hn as [Hn _]. cbn in Hn.
    intros Hr. right. exists ls, st1, st2. split; [done|]. rewrite <- Hn.
    split; [done|]. rewrite <- Hr. by destruct (Nat.ltb 0 n).
  - intros [= <- _]. left. eauto.
Qed.

(** Does the record behind [l] count as mounted in [st1] and not in
    [st2]? *)
Definition newly_unmounted (st1 st2 : State) (l : loc) : bool :=
  match heap st1 !! l, heap st2 !! l with
  | Some d1, Some d2 => IsMounted d1 && negb (IsMounted d2)
  | _, _ => false
  end.

(** The records of [ls] that got unmounted between [st1] and [st2]. *)
Definition unmounted_between (st1 st2 : State) (ls : list loc) : list loc :=
  filter (fun l => newly_unmounted st1 st2 l = true) ls.

Lemma onUnmountAll_body_steps l n st :
  record_steps l st (onUnmountAll_body host config l n st).2.
Proof.
  unfold onUnmountAll_body, bind at 1, load.
  destruct (heap st !! l) as [dev|] eqn:Hd; [|reflexivity].
  destruct (_ && _); [|reflexivity]. unfold bind at 1, UnmountDevice.
  pose proof (unmountDevice_steps host config l st) as Hm.
  destruct (unmountDevice host config l st) as [[[e|]|msg] st1]; [|exact Hm..].
  eapply record_steps_trans; [exact Hm|].
  apply (record_steps_only talk).
  apply only_bind; [apply only_load|]. intros d.
  apply only_bind; [by apply only_do|]. intros _. apply only_ret.
Qed.

(** One turn of the loop adds one to the counter exactly when it has
    unmounted the record. *)
Lemma onUnmountAll_body_counts l n st n' st' :
  onUnmountAll_body host config l n st = (Ret n', st') →
  n' = (n + if newly_unmounted st st' l then 1 else 0)%nat.
Proof.
  unfold onUnmountAll_body, bind at 1, load, newly_unmounted.
  destruct (heap st !! l) as [dev|] eqn:Hd; [|discriminate].
  destruct (IsMounted dev) eqn:Hm.
  - destruct (_ && _).
    + unfold bind at 1, UnmountDevice.
      destruct (unmountDevice host config l st) as [[[e|]|msg] st1] eqn:E; [| |discriminate].
      * apply unmountDevice_error_keeps_memory in E as (Hh&_).
        unfold bind, load. rewrite Hh, Hd. cbn [log do_ ret]. intros [= <- <-].
        cbn [heap add_trace]. rewrite Hh, Hd. cbn [andb]. rewrite Hm. cbn. lia.
      * apply unmountDevice_success in E as (d&Hd'&_&_&Hh&_).
        intros [= <- <-]. rewrite Hh, lookup_insert_eq. cbn. lia.
    + intros [= <- <-]. rewrite Hd, Hm. cbn. lia.
  - rewrite andb_false_r. cbn [andb]. intros [= <- <-]. rewrite Hd. cbn. lia.
Qed.

Lemma newly_unmounted_ext st1 st2 st1' st2' l :
  heap st1' !! l = heap st1 !! l → heap st2' !! l = heap st2 !! l →
  newly_unmounted st1' st2' l = newly_unmounted st1 st2 l.
Proof. unfold newly_unmounted. by intros -> ->. Qed.

(** The loop of [onUnmountAll] over records behind different pointers: its
    counter grows by the number of records that it unmounted. *)
Lemma onUnmountAll_loop ls n st n' st' :
  NoDup ls →
  fold_M ls (onUnmountAll_body host config) n st = (Ret n', st') →
  n' = (n + length (unmounted_between st st' ls))%nat
  ∧ (∀ l, l ∉ ls → heap st' !! l = heap st !! l).
Proof.
  revert n st. induction ls as [|l ls IH]; intros n st Hnd.
  - intros [= <- <-]. split; [cbn; lia|done].
  - apply NoDup_cons in Hnd as [Hl Hnd]. cbn [fold_M]. unfold bind at 1.
    pose proof (onUnmountAll_body_steps l n st) as Hs.
    apply record_steps_touches_only in Hs.
    destruct (onUnmountAll_body host config l n st) as [[n1|msg] st1] eqn:Eb; [|discriminate].
    cbn [snd] in Hs. destruct Hs as (_&_&Hother&_).
    apply onUnmountAll_body_counts in Eb.
    intros E. apply IH in E as [Hn Hrest]; [|done].
    split.
    + subst n' n1. unfold unmounted_between. rewrite filter_cons.
      rewrite (newly_unmounted_ext st st1 st st' l eq_refl (Hrest l Hl)).
      assert (Hf : filter (fun l0 => newly_unmounted st1 st' l0 = true) ls
                   = filter (fun l0 => newly_unmounted st st' l0 = true) ls).
      { apply filter_ext_elem. intros l0 Hin.
        rewrite (newly_unmounted_ext st st' st1 st' l0); [done| |done].
        apply Hother. by intros ->. }
      unfold unmounted_between in *. rewrite Hf.
      destruct (newly_unmounted st st1 l).
      * rewrite decide_True by done. cbn [length]. lia.
      * rewrite decide_False by done. lia.
    + intros l' Hl'. apply not_elem_of_cons in Hl' as [Hne Hl'].
      rewrite Hrest by done. by apply Hother.
Qed.

(** X22: "Unmount All" from the tray counts what it unmounts, in the same way:
    the notification "Unmounted [n] device(s)" is sent when [n], the number
    of records of the scan that it has unmounted, is positive. *)
Theorem onUnmountAll_counts_its_unmounts st o st' :
  books_ok st →
  (host_scan host (trace st ++ [ALog "Tray: Unmount All clicked"])).2 = None →
  onUnmountAll host config st = (o, st') →
  (∃ msg, o = Panic msg)
  ∨ ∃ ls st1 st2,
      deviceMgr_Scan host (add_trace (ALog "Tray: Unmount All clicked") st)
      = (Ret (ls, None), st1)
      ∧ fold_M ls (onUnmountAll_body host config) 0%nat st1
        = (Ret (length (unmounted_between st1 st2 ls)), st2)
      ∧ (o, st')
        = if Nat.ltb 0 (length (unmounted_between st1 st2 ls))
          then showNotification host "Unmount All"
                 ("Unmounted " +:+ pretty (length (unmounted_between st1 st2 ls))
                    +:+ " device(s)") st2
          else (Ret tt, st2).
Proof.
  intros Hb Hs. unfold onUnmountAll, bind at 1, log. cbn [do_].
  set (st0 := add_trace (ALog "Tray: Unmount All clicked") st).
  assert (Hb0 : books_ok st0) by (by apply (books_ok_same_memory st)).
  destruct (deviceMgr_Scan_fresh host st0 Hb0) as (ls&st1&E&_&_&Hnd&_).
  change (trace st0) with (trace st ++ [ALog "Tray: Unmount All clicked"]) in E.
  rewrite Hs in E. unfold bind at 1. rewrite E. cbn [fst snd]. unfold bind at 1.
  destruct (fold_M ls (onUnmountAll_body host config) 0%nat st1) as [[n|msg] st2] eqn:El.
  - apply onUnmountAll_loop in El as Hn; [|done]. destruct Hn as [Hn _]. cbn in Hn.
    intros Hr. right. exists ls, st1, st2. split; [done|]. rewrite <- Hn.
    split; [done|]. rewrite <- Hr. by destruct (Nat.ltb 0 n).
  - intros [= <- _]. left. eauto.
Qed.

End TrayFacts.

(** ** Names of disks and partitions *)

Lemma append_cons (c : ascii) (a b : string) : String c a +:+ b = String c (a +:+ b).
Proof. reflexivity. Qed.

Lemma append_nil_l (b : string) : "" +:+ b = b.
Proof. reflexivity. Qed.

Lemma append_nil_r (s : string) : s +:+ "" = s.
Proof. induction s as [|c s IH]; [done|]. by rewrite append_cons, IH. Qed.

Lemma append_assoc (a b c : string) : (a +:+ b) +:+ c = a +:+ (b +:+ c).
Proof. induction a as [|x a IH]; [done|]. by rewrite !append_cons, IH. Qed.

Lemma append_not_empty (a b : string) : b ≠ "" → a +:+ b ≠ "".
Proof. destruct a; [done|]. by rewrite append_cons. Qed.

Lemma take_bytes_append (a b : string) : take_bytes (String.length a) (a +:+ b) = a.
Proof.
  induction a as [|x a IH]; [by destruct b|].
  rewrite append_cons. cbn [String.length take_bytes]. by rewrite IH.
Qed.

(** Where a partition number or a slice number starts: [p] or [s] and then a
    digit. *)
Definition partition_mark (c d : ascii) : bool :=
  (Ascii.eqb c "p" || Ascii.eqb c "s") && is_digit d.

Lemma parent_from_spec before s :
  (parent_from before s = ""
   ∧ ∀ pre c d rest, s = pre +:+ String c (String d rest) → before +:+ pre ≠ "" →
                     partition_mark c d = false)
  ∨ ∃ pre c d rest,
      s = pre +:+ String c (String d rest)
      ∧ parent_from before s = before +:+ pre
      ∧ before +:+ pre ≠ ""
      ∧ partition_mark c d = true
      ∧ ∀ pre' c' d' rest',
          s = pre' +:+ String c' (String d' rest') →
          (String.length pre' < String.length pre)%nat →
          before +:+ pre' ≠ "" → partition_mark c' d' = false.
Proof.
  revert before. induction s as [|c s IH]; intros before.
  - left. split; [done|]. intros [|x pre] c d rest; discriminate.
  - cbn [parent_from].
    destruct ((Ascii.eqb c "p" || Ascii.eqb c "s") && negb (String.eqb before "")
              && match s with String d _ => is_digit d | EmptyString => false end)
      eqn:Hc.
    + right. apply andb_true_iff in Hc as [Hc Hd]. apply andb_true_iff in Hc as [Hc Hb].
      destruct s as [|d rest]; [discriminate|].
      exists "", c, d, rest. rewrite append_nil_r. split; [done|]. split; [done|].
      split; [by destruct (String.eqb_spec before "")|].
      split; [unfold partition_mark; by rewrite Hc, Hd|].
      intros pre' c' d' rest' _ Hlen. cbn [String.length] in Hlen. lia.
    + assert (Hhere : ∀ d rest, s = String d rest → before ≠ "" →
                       partition_mark c d = false).
      { intros d rest -> Hb. unfold partition_mark.
        destruct (Ascii.eqb c "p" || Ascii.eqb c "s"); [|done].
        destruct (String.eqb_spec before ""); [done|]. exact Hc. }
      destruct (IH (before +:+ String c "")) as [[E Hno]|(pre&c1&d1&rest1&Hs&E&Hne&Hm&Hmin)].
      * left. split; [done|]. intros [|x pre] c0 d0 rest0.
        -- rewrite append_nil_l, append_nil_r. intros [= <- Hs] Hb.
           by apply (Hhere d0 rest0).
        -- rewrite append_cons. intros [= <- ->] _. apply (Hno pre c0 d0 rest0); [done|].
           rewrite append_assoc. by apply append_not_empty.
      * right. exists (String c pre), c1, d1, rest1.
        rewrite append_assoc, append_cons, append_nil_l in E, Hne.
        split; [by rewrite append_cons, Hs|]. split; [done|]. split; [done|].
        split; [done|].
        intros [|x pre'] c' d' rest'.
        -- rewrite append_nil_l, append_nil_r. intros [= <- Hs'] _ Hb.
           by apply (Hhere d' rest').
        -- rewrite append_cons. cbn [String.length]. intros [= <- Hs'] Hlen _.
           apply (Hmin pre' c' d' rest'); [done|lia|].
           rewrite append_assoc. by apply append_not_empty.
Qed.

(** X23: [getParentDiskName] returns what is before the first [p] or [s] that is
    not the first byte of the name and is followed by a digit, and the
    empty string when there is none. A name it returns is never empty. *)
Theorem getParentDiskName_cuts_at_the_first_mark name :
  (getParentDiskName name = ""
   ∧ ∀ pre c d rest, name = pre +:+ String c (String d rest) → pre ≠ "" →
                     partition_mark c d = false)
  ∨ ∃ disk c d rest,
      name = disk +:+ String c (String d rest)
      ∧ getParentDiskName name = disk
      ∧ disk ≠ ""
      ∧ partition_mark c d = true
      ∧ ∀ pre' c' d' rest',
          name = pre' +:+ String c' (String d' rest') →
          (String.length pre' < String.length disk)%nat →
          pre' ≠ "" → partition_mark c' d' = false.
Proof. exact (parent_from_spec "" name). Qed.

(** Is there a mark in [s], at any index? *)
Fixpoint has_mark (s : string) : bool :=
  match s with
  | EmptyString => false
  | String c rest =>
      match rest with
      | String d _ => partition_mark c d || has_mark rest
      | EmptyString => false
      end
  end.

Lemma parent_from_clean before disk c d rest :
  before ≠ "" →
  has_mark (disk +:+ String c "") = false →
  partition_mark c d = true →
  parent_from before (disk +:+ String c (String d rest)) = before +:+ disk.
Proof.
  revert before. induction disk as [|x disk IH]; intros before Hb Hclean Hm.
  - rewrite append_nil_l, append_nil_r. cbn [parent_from].
    apply andb_true_iff in Hm as [-> ->].
    by destruct (String.eqb_spec before "").
  - rewrite !append_cons in *. cbn [parent_from].
    assert (Hx : (Ascii.eqb x "p" || Ascii.eqb x "s") && negb (String.eqb before "")
                 && match disk +:+ String c (String d rest) with
                    | String d0 _ => is_digit d0
                    | EmptyString => false
                    end = false
                 ∧ has_mark (disk +:+ String c "") = false).
    { cbn [has_mark] in Hclean. destruct disk as [|y disk].
      - rewrite !append_nil_l in *. apply orb_false_iff in Hclean as [Hp _].
        split; [|done]. unfold partition_mark in Hp.
        destruct (Ascii.eqb x "p" || Ascii.eqb x "s"); [|done].
        cbn [andb] in Hp. rewrite Hp. by rewrite andb_false_r.
      - rewrite !append_cons in *. apply orb_false_iff in Hclean as [Hp Hr].
        split; [|done]. unfold partition_mark in Hp.
        destruct (Ascii.eqb x "p" || Ascii.eqb x "s"); [|done].
        cbn [andb] in Hp. rewrite Hp. by rewrite andb_false_r. }
    destruct Hx as [-> Hr].
    rewrite (IH (before +:+ String x "")); [|by apply append_not_empty|done|done].
    by rewrite append_assoc.
Qed.

Lemma digit_not_p d : is_digit d = true → Ascii.eqb d "p" = false.
Proof.
  intros H. destruct (Ascii.eqb_spec d "p") as [->|]; [|done].
  vm_compute in H. discriminate.
Qed.

Lemma get_after (a b : string) (n : nat) :
  String.get (String.length a + n) (a +:+ b) = String.get n b.
Proof. by rewrite Nat.add_comm, <- append_correct2. Qed.

Lemma diskName_two (D : string) (x y : ascii) :
  D ≠ "" →
  diskName (D +:+ String x (String y ""))
  = if Ascii.eqb x "p" then D else D +:+ String x (String y "").
Proof.
  intros HD. unfold diskName.
  assert (Hlen : String.length (D +:+ String x (String y "")) = (String.length D + 2)%nat).
  { by rewrite length_append. }
  rewrite Hlen.
  assert (H2 : (2 <? String.length D + 2)%nat = true).
  { apply Nat.ltb_lt. destruct D; [done|]. cbn [String.length]. lia. }
  rewrite H2.
  replace (String.length D + 2 - 2)%nat with (String.length D + 0)%nat by lia.
  rewrite get_after. cbn [String.get]. rewrite Nat.add_0_r.
  destruct (Ascii.eqb x "p"); [apply take_bytes_append|done].
Qed.

Lemma diskName_three (D : string) (x y z : ascii) :
  Ascii.eqb y "p" = false →
  diskName (D +:+ String x (String y (String z "")))
  = D +:+ String x (String y (String z "")).
Proof.
  intros Hy. unfold diskName.
  assert (Hlen : String.length (D +:+ String x (String y (String z "")))
                 = (String.length D + 3)%nat).
  { by rewrite length_append. }
  rewrite Hlen.
  assert (H2 : (2 <? String.length D + 3)%nat = true) by (apply Nat.ltb_lt; lia).
  rewrite H2.
  replace (String.length D + 3 - 2)%nat with (String.length D + 1)%nat by lia.
  rewrite get_after. cbn [String.get]. by rewrite Hy.
Qed.

(** X24: For a disk name without a mark after its first byte, the tray finds
    the disk of every partition and slice of it, whatever the number. The
    heuristic of [pgumount] finds it for a partition with a one-digit
    number only: it leaves the name of a slice, and of a partition with a
    number of two digits, as it is, so that [detachDevice] gives the name
    of the partition to [camcontrol eject]. *)
Theorem disk_of_partition a disk c d rest :
  has_mark (disk +:+ String c "") = false →
  partition_mark c d = true →
  getParentDiskName (String a disk +:+ String c (String d rest)) = String a disk
  ∧ diskName (String a disk +:+ String "p" (String d "")) = String a disk
  ∧ (∀ d2, diskName (String a disk +:+ String "p" (String d (String d2 "")))
           = String a disk +:+ String "p" (String d (String d2 "")))
  ∧ diskName (String a disk +:+ String "s" (String d ""))
    = String a disk +:+ String "s" (String d "").
Proof.
  intros Hclean Hm.
  assert (Hd : is_digit d = true) by (by apply andb_true_iff in Hm as [_ ?]).
  split; [|split; [|split]].
  - unfold getParentDiskName. rewrite append_cons. cbn [parent_from String.eqb negb].
    rewrite andb_false_r. cbn [andb]. rewrite append_nil_l.
    by rewrite (parent_from_clean (String a "") disk c d rest).
  - by rewrite diskName_two.
  - intros d2. apply diskName_three, digit_not_p, Hd.
  - by rewrite diskName_two.
Qed.

(** X25: [truncateString] is the checked form of the slice in [GetDisplayName]:
    for a limit that is not negative it returns for every string, what it
    returns is at most three bytes longer than the limit, and a string
    within the limit comes back as it is. With the limit 8, as [pginfo]
    calls it on an identifier: for an identifier of more than 8 bytes it
    returns what [GetDisplayName] returns for a record without a label;
    for one of 8 bytes it returns the identifier where [GetDisplayName]
    adds three dots; and for a shorter one it returns the identifier where
    [GetDisplayName] panics. *)
Theorem truncateString_is_the_checked_slice s maxLen :
  (0 ≤ maxLen)%Z →
  ∃ r, truncateString s maxLen = Ret r
       ∧ (String.length r ≤ Z.to_nat maxLen + 3)%nat
       ∧ ((String.length s ≤ Z.to_nat maxLen)%nat → r = s)
       ∧ ((Z.to_nat maxLen < String.length s)%nat →
          r = take_bytes (Z.to_nat maxLen) s +:+ "...")
       ∧ ∀ d, Label d = "" → UUID d = s → s ≠ "" → maxLen = 8%Z →
              ((8 < String.length s)%nat → GetDisplayName d = Ret r)
              ∧ (String.length s = 8%nat → GetDisplayName d = Ret (r +:+ "..."))
              ∧ ((String.length s < 8)%nat → ∃ msg, GetDisplayName d = Panic msg).
Proof.
  intros Hmax. unfold truncateString.
  assert (Hdisp : ∀ d, Label d = "" → UUID d = s → s ≠ "" →
            GetDisplayName d
            = match slice_to s 8 with Ret p => Ret (p +:+ "...") | Panic m => Panic m end).
  { intros d HL HU Hs. unfold GetDisplayName. rewrite HL, HU. cbn [String.eqb negb].
    by destruct (String.eqb_spec s ""). }
  destruct (Z.leb_spec (Z.of_nat (String.length s)) maxLen) as [Hle|Hgt].
  - exists s. split; [done|]. split; [lia|]. split; [done|]. split; [lia|].
    intros d HL HU Hs ->. rewrite (Hdisp d HL HU Hs). unfold slice_to.
    split; [lia|]. split.
    + intros H8. rewrite H8. cbn [Nat.leb]. rewrite <- H8 at 1.
      f_equal. f_equal. rewrite <- (append_nil_r s) at 2. apply take_bytes_append.
    + intros Hlt. destruct (Nat.leb_spec 8 (String.length s)); [lia|eauto].
  - destruct (Z.ltb_spec maxLen 0) as [?|_]; [lia|].
    unfold slice_to. destruct (Nat.leb_spec (Z.to_nat maxLen) (String.length s)); [|lia].
    eexists. split; [reflexivity|].
    split; [rewrite length_append, length_take_bytes by lia; cbn; lia|].
    split; [lia|]. split; [done|].
    intros d HL HU Hs ->. rewrite (Hdisp d HL HU Hs). unfold slice_to.
    split; [|lia].
    intros H8. destruct (Nat.leb_spec 8 (String.length s)); [done|lia].
Qed.

(** ** Reading the output of [mount] *)

Lemma HasPrefix_append (s pre : string) :
  strings.HasPrefix s pre = true ↔ ∃ rest, s = pre +:+ rest.
Proof.
  revert s. induction pre as [|c pre IH]; intros s.
  - rewrite HasPrefix_empty. split; [by exists s|done].
  - destruct s as [|d s]; cbn [strings.HasPrefix].
    + split; [done|]. intros [rest H]. by rewrite append_cons in H.
    + destruct (Ascii.eqb_spec c d) as [->|Hne].
      * rewrite IH. split; intros [rest H]; exists rest.
        -- by rewrite append_cons, H.
        -- rewrite append_cons in H. by injection H.
      * split; [done|]. intros [rest H]. rewrite append_cons in H. by injection H.
Qed.

(** [strings.Contains] finds [sub] exactly when [s] is some bytes, then
    [sub], then some bytes. *)
Lemma Contains_append (s sub : string) :
  strings.Contains s sub = true ↔ ∃ before after, s = before +:+ sub +:+ after.
Proof.
  induction s as [|c s IH].
  - cbn [strings.Contains]. destruct (strings.HasPrefix "" sub) eqn:E.
    + split; [|done]. intros _. apply HasPrefix_append in E as [rest ->].
      by exists "", rest.
    + split; [done|]. intros ([|x before]&after&H); [|by rewrite append_cons in H].
      rewrite append_nil_l in H. assert (strings.HasPrefix "" sub = true); [|congruence].
      apply HasPrefix_append. eauto.
  - cbn [strings.Contains]. destruct (strings.HasPrefix (String c s) sub) eqn:E.
    + split; [|done]. intros _. apply HasPrefix_append in E as [rest ->].
      by exists "", rest.
    + rewrite IH. split.
      * intros (before&after&->). by exists (String c before), after.
      * intros ([|x before]&after&H).
        -- rewrite append_nil_l in H.
           assert (strings.HasPrefix (String c s) sub = true); [|congruence].
           apply HasPrefix_append. eauto.
        -- rewrite append_cons in H. injection H as _ ->. by exists before, after.
Qed.

Lemma Contains_trans (s t u : string) :
  strings.Contains s t = true → strings.Contains t u = true → strings.Contains s u = true.
Proof.
  rewrite !Contains_append. intros (a&b&->) (a'&b'&->).
  exists (a +:+ a'), (b' +:+ b). by rewrite !append_assoc.
Qed.

Lemma split_from_length (sep : string) skip cur s :
  sep ≠ "" →
  (1 ≤ length (strings_more.split_from sep skip cur s))%nat
  ∧ ((2 ≤ length (strings_more.split_from sep skip cur s))%nat
     ↔ strings.Contains (gostd.drop_bytes skip s) sep = true).
Proof.
  intros Hsep. revert skip cur. induction s as [|c s IH]; intros skip cur.
  - cbn [strings_more.split_from length]. split; [lia|].
    replace (gostd.drop_bytes skip "") with "" by (by destruct skip).
    cbn [strings.Contains]. destruct sep; [done|]. cbn [strings.HasPrefix].
    split; [lia|done].
  - cbn [strings_more.split_from]. destruct skip as [|k].
    + cbn [gostd.drop_bytes strings.Contains].
      destruct (strings.HasPrefix (String c s) sep).
      * cbn [length]. destruct (IH (String.length sep - 1)%nat "") as [H1 _].
        split; [lia|]. split; [done|lia].
      * apply IH.
    + cbn [gostd.drop_bytes]. apply IH.
Qed.

(** [strings.Split] with a separator that is not empty returns at least
    one piece, and more than one exactly when the separator occurs. *)
Lemma Split_length (s sep : string) :
  sep ≠ "" →
  (1 ≤ length (strings_more.Split s sep))%nat
  ∧ ((2 ≤ length (strings_more.Split s sep))%nat ↔ strings.Contains s sep = true).
Proof.
  intros Hsep. unfold strings_more.Split. destruct sep as [|x sep]; [done|].
  apply (split_from_length (String x sep) 0 "" s Hsep).
Qed.

(** Does the line mark a device with this path as mounted? *)
Definition marks (path line : string) : bool :=
  strings.Contains line path && strings.Contains line " on ".

Lemma parseMountLine_marks dev line :
  (marks (Path dev) line = true →
   ∃ mp, parseMountLine dev line = set_MountPoint mp true dev)
  ∧ (marks (Path dev) line = false → parseMountLine dev line = dev).
Proof.
  unfold marks, parseMountLine.
  destruct (Split_length line " on " ltac:(done)) as [_ H2].
  destruct (strings.Contains line (Path dev)); cbn [andb]; [|by split].
  destruct (strings.Contains line " on ").
  - assert (Hl : (2 <=? length (strings_more.Split line " on "))%nat = true).
    { apply Nat.leb_le. by apply H2. }
    rewrite Hl.
    destruct (Split_length (nth 1 (strings_more.Split line " on ") "") " (" ltac:(done))
      as [H1 _].
    apply Nat.leb_le in H1. rewrite H1. split; [eauto|done].
  - assert (Hl : (2 <=? length (strings_more.Split line " on "))%nat = false).
    { apply Nat.leb_gt. destruct (Nat.le_gt_cases 2 (length (strings_more.Split line " on ")))
        as [Hle|Hgt]; [|done]. apply H2 in Hle. done. }
    rewrite Hl. by split.
Qed.

Lemma parseMountOutput_path dev lines :
  same_device dev (parseMountOutput dev lines)
  ∧ IsMounted (parseMountOutput dev lines)
    = IsMounted dev || existsb (marks (Path dev)) lines.
Proof.
  unfold parseMountOutput. revert dev. induction lines as [|line lines IH]; intros dev.
  - cbn. split; [apply same_device_refl|by rewrite orb_false_r].
  - cbn [fold_left existsb].
    destruct (parseMountLine_marks dev line) as [Hy Hn].
    destruct (marks (Path dev) line) eqn:Hm.
    + destruct (Hy eq_refl) as [mp ->].
      destruct (IH (set_MountPoint mp true dev)) as [Hs Hi].
      split; [exact Hs|]. rewrite Hi. cbn. by rewrite orb_true_r.
    + rewrite (Hn eq_refl). destruct (IH dev) as [Hs Hi]. split; [exact Hs|].
      by rewrite Hi.
Qed.

(** X26: [parseMountOutput] looks for the path of the device anywhere in a
    line. It marks the record as mounted exactly when the record counted
    as mounted before or some line holds both the path and [" on "], and
    it changes nothing else of what the record says about the device. So
    a device is marked as mounted whenever a device is whose path holds
    its own path, as [/dev/da0p10] holds [/dev/da0p1]. *)
Theorem parseMountOutput_matches_substrings dev lines :
  same_device dev (parseMountOutput dev lines)
  ∧ IsMounted (parseMountOutput dev lines)
    = IsMounted dev || existsb (marks (Path dev)) lines
  ∧ ∀ other,
      strings.Contains (Path other) (Path dev) = true →
      IsMounted other = false →
      IsMounted (parseMountOutput other lines) = true →
      IsMounted (parseMountOutput dev lines) = true.
Proof.
  destruct (parseMountOutput_path dev lines) as [Hs Hi].
  split; [exact Hs|]. split; [exact Hi|].
  intros other Hc Ho Hm. rewrite Hi.
  destruct (parseMountOutput_path other lines) as [_ Hio].
  rewrite Hio, Ho in Hm. cbn [orb] in Hm.
  apply existsb_exists in Hm as (line&Hin&Hl).
  apply orb_true_iff. right. apply existsb_exists. exists line. split; [done|].
  unfold marks in *. apply andb_true_iff in Hl as [H1 H2].
  apply andb_true_iff. split; [|done]. by apply (Contains_trans _ (Path other)).
Qed.

(** ** Defaults and flags *)

(** X27: What [applyFlags] makes of the configuration file. Automounting is
    off with [-no-automount], and otherwise on when [-automount] is [true],
    which is its default: the file's [automount: false] counts only when
    [-automount=false] is given without [-no-automount]. So with the
    default flags every device without an entry of its own is automounted,
    whatever the file says. It is the same for [-no-notify], [-notify] and
    the file's [notifications.enabled]. Nothing else of what the daemon's
    procedures read is changed, whatever the flags: the mount base, the
    file manager, the device entries, the hooks, the mount options, the
    GELI settings and the other notification settings are the file's. *)
Theorem applyFlags_overrides_the_file f cfg :
  Automount (settings (applyFlags f cfg))
  = (if flag_noAutomount f then false
     else if flag_automount f then true
          else Automount (settings cfg))
  ∧ Enabled (Notifications (settings (applyFlags f cfg)))
    = (if flag_noNotify f then false
       else if flag_notify f then true
            else Enabled (Notifications (settings cfg)))
  ∧ (flag_noAutomount f = false → flag_automount f = true →
     ∀ label uuid path,
       GetDeviceConfig (settings cfg) label uuid path = None →
       ShouldAutomountDevice (settings (applyFlags f cfg)) label uuid path = true)
  ∧ (∀ label uuid path,
       GetDeviceConfig (settings cfg) label uuid path = None →
       ShouldAutomountDevice (settings (applyFlags no_flags cfg)) label uuid path = true)
  ∧ MountBase (settings (applyFlags f cfg)) = MountBase (settings cfg)
  ∧ FileManager (settings (applyFlags f cfg)) = FileManager (settings cfg)
  ∧ Devices (settings (applyFlags f cfg)) = Devices (settings cfg)
  ∧ EventHooks (settings (applyFlags f cfg)) = EventHooks (settings cfg)
  ∧ MountOptions_Default (settings (applyFlags f cfg))
    = MountOptions_Default (settings cfg)
  ∧ GELI (settings (applyFlags f cfg)) = GELI (settings cfg)
  ∧ Notifications (settings (applyFlags f cfg))
    = Notifications
        (set_Enabled (Enabled (Notifications (settings (applyFlags f cfg))))
           (settings cfg)).
Proof.
  assert (Hd : ∀ g, Devices (settings (applyFlags g cfg)) = Devices (settings cfg)).
  { intros g. unfold applyFlags. cbn [settings].
    by destruct (flag_noAutomount g), (flag_automount g), (flag_noNotify g),
         (flag_notify g). }
  assert (Ha : Automount (settings (applyFlags f cfg))
               = (if flag_noAutomount f then false
                  else if flag_automount f then true
                       else Automount (settings cfg))).
  { unfold applyFlags. cbn [settings].
    by destruct (flag_noAutomount f), (flag_automount f), (flag_noNotify f),
         (flag_notify f). }
  assert (Hs : ∀ g label uuid path,
            Automount (settings (applyFlags g cfg)) = true →
            GetDeviceConfig (settings cfg) label uuid path = None →
            ShouldAutomountDevice (settings (applyFlags g cfg)) label uuid path = true).
  { intros g label uuid path Hg Hn. unfold ShouldAutomountDevice, GetDeviceConfig in *.
    by rewrite Hd, Hn. }
  split; [exact Ha|]. split.
  { unfold applyFlags. cbn [settings].
    by destruct (flag_noAutomount f), (flag_automount f), (flag_noNotify f),
         (flag_notify f). }
  split.
  { intros Hno Hyes label uuid path. apply Hs. by rewrite Ha, Hno, Hyes. }
  split.
  { intros label uuid path. by apply Hs. }
  unfold applyFlags. cbn [settings].
  by destruct (flag_noAutomount f), (flag_automount f), (flag_noNotify f),
       (flag_notify f), (settings cfg) as [? ? ? [] ? ? ? ?].
Qed.

(** X28: With the default configuration, the options that [Default] lists for
    FAT file systems are never used for a file system that
    [detectFilesystem] has recognised: it calls FAT [msdosfs], and
    [Default] has options for [vfat] and [msdos] only. For every output of
    [file -s], the type read off it gets no options at all, or it is
    [ntfs] and gets the one option of [ntfs]; and a record of a FAT file
    system is mounted with [-t msdosfs] and no [-o]. *)
Theorem detected_FAT_gets_no_options fsInfo label uuid path :
  (GetMountOptions (settings Default) (detectFSType fsInfo "") label uuid path = []
   ∨ (detectFSType fsInfo "" = "ntfs"
      ∧ GetMountOptions (settings Default) (detectFSType fsInfo "") label uuid path
        = ["locale=en_US.UTF-8"]))
  ∧ (strings.Contains fsInfo "ext2" || strings.Contains fsInfo "ext3"
     || strings.Contains fsInfo "ext4" = false →
     strings.Contains fsInfo "FAT" = true →
     detectFSType fsInfo "" = "msdosfs"
     ∧ ∀ dev mountPoint,
         FSType dev = detectFSType fsInfo "" →
         mount_args dev
           (GetMountOptions (settings Default) (FSType dev) (Label dev) (UUID dev) (Path dev))
           mountPoint
         = ["-t"; "msdosfs"; Path dev; mountPoint]).
Proof.
  assert (Hopt : ∀ t l u p,
            GetMountOptions (settings Default) t l u p
            = default [] (MountOptions_Default (settings Default) !! t)).
  { intros. reflexivity. }
  split.
  - rewrite Hopt. unfold detectFSType.
    destruct (_ || _ || _).
    + left. by destruct (strings.Contains fsInfo "ext4"), (strings.Contains fsInfo "ext3").
    + destruct (strings.Contains fsInfo "FAT"); [by left|].
      destruct (strings.Contains fsInfo "NTFS"); [by right|].
      destruct (strings.Contains fsInfo "UFS"); [by left|].
      destruct (strings.Contains fsInfo "ZFS"); by left.
  - intros Hext Hfat. unfold detectFSType. rewrite Hext, Hfat. split; [done|].
    intros dev mp Hfs. unfold mount_args. rewrite Hfs, Hopt.
    assert (Hm : MountOptions_Default (settings Default) !! "msdosfs" = None)
      by (vm_compute; reflexivity).
    by rewrite Hm.
Qed.

(** ** Detaching a device ([pgumount --detach]) *)

Section PgumountFacts.

Variable host : Host.
Variable verbose : bool.

Definition eject_cmd (dev : Device) : Cmd :=
  mkCmd "camcontrol" ["eject"; diskName (Name dev)] None.

Definition power_off_cmd (dev : Device) : Cmd :=
  mkCmd "usbconfig" ["-d"; diskName (Name dev); "power_off"] None.

(** The commands run to their end, each with what it answered. *)
Definition runs (tr : list Action) : list (Cmd * ExecResult) :=
  omap (fun a => match a with
                 | AExec c r => Some (c, r)
                 | _ => None
                 end) tr.

(** X29: [detachDevice] runs [camcontrol eject] on the disk name and, only when
    that fails, [usbconfig power_off]; it returns [nil] when one of the two
    succeeds, and otherwise an error made of the error and the output of
    [usbconfig]: what [camcontrol] answered is dropped. It runs nothing
    else and leaves the records as they are. *)
Theorem detachDevice_tries_two_tools st l dev :
  heap st !! l = Some dev →
  ∃ o st' acts,
    detachDevice host verbose l st = (Ret o, st')
    ∧ same_memory st st'
    ∧ trace st' = trace st ++ acts
    ∧ ((∃ r1, runs acts = [(eject_cmd dev, r1)]
              ∧ exec_err r1 = None ∧ o = None)
       ∨ (∃ r1 e1 r2,
            runs acts = [(eject_cmd dev, r1); (power_off_cmd dev, r2)]
            ∧ exec_err r1 = Some e1
            ∧ o = match exec_err r2 with
                  | Some e2 =>
                      Some ("detach failed: " +:+ e2 +:+ " (output: "
                              +:+ output r2 +:+ ")")
                  | None => None
                  end)).
Proof.
  intros Hd. unfold detachDevice, bind at 1, load. rewrite Hd.
  set (st0 := if verbose then add_trace (ALog ("Detaching device " +:+ Name dev)) st else st).
  set (pre := if verbose then [ALog ("Detaching device " +:+ Name dev)] else []).
  assert (H0 : (run (if verbose then log ("Detaching device " +:+ Name dev) else ret tt);
                do r <- exec host (eject_cmd dev);
                match exec_err r with
                | Some _ =>
                    do r0 <- exec host (power_off_cmd dev);
                    match exec_err r0 with
                    | Some err =>
                        ret (Some ("detach failed: " +:+ err +:+ " (output: "
                                     +:+ output r0 +:+ ")"))
                    | None => ret None
                    end
                | None => ret None
                end) st
               = (do r <- exec host (eject_cmd dev);
                  match exec_err r with
                  | Some _ =>
                      do r0 <- exec host (power_off_cmd dev);
                      match exec_err r0 with
                      | Some err =>
                          ret (Some ("detach failed: " +:+ err +:+ " (output: "
                                       +:+ output r0 +:+ ")"))
                      | None => ret None
                      end
                  | None => ret None
                  end) st0).
  { unfold st0, bind at 1. by destruct verbose. }
  fold (eject_cmd dev) (power_off_cmd dev). rewrite H0.
  assert (Hm0 : same_memory st st0) by (unfold st0; by destruct verbose).
  assert (Ht0 : trace st0 = trace st ++ pre).
  { unfold st0, pre. destruct verbose; [done|]. by rewrite app_nil_r. }
  assert (Hr0 : runs pre = []) by (unfold pre; by destruct verbose).
  unfold bind at 1, exec at 1.
  set (r1 := host_exec host (trace st0) (eject_cmd dev)).
  destruct (exec_err r1) as [e1|] eqn:E1.
  - unfold bind, exec.
    set (st1 := add_trace (AExec (eject_cmd dev) r1) st0).
    set (r2 := host_exec host (trace st1) (power_off_cmd dev)).
    destruct (exec_err r2) as [e2|] eqn:E2; unfold ret;
      eexists _, _, (pre ++ [AExec (eject_cmd dev) r1; AExec (power_off_cmd dev) r2]);
      (split; [reflexivity|]);
      (split; [destruct Hm0 as (?&?&?&?&?); by repeat split|]);
      (split; [unfold st1; cbn [trace add_trace]; rewrite Ht0, <- !app_assoc; reflexivity|]);
      right; exists r1, e1, r2; unfold runs; rewrite omap_app; fold (runs pre);
      rewrite Hr0; cbn [omap list_omap app]; rewrite E2; by repeat split.
  - unfold ret. eexists _, _, (pre ++ [AExec (eject_cmd dev) r1]).
    split; [reflexivity|].
    split; [destruct Hm0 as (?&?&?&?&?); by repeat split|].
    split; [cbn [trace add_trace]; by rewrite Ht0, <- !app_assoc|].
    left. exists r1. unfold runs. rewrite omap_app. fold (runs pre). rewrite Hr0.
    by cbn [omap list_omap app].
Qed.

End PgumountFacts.

(** ** The pass phrase that reaches [geli] *)

Lemma drop_bytes_length n s :
  String.length (gostd.drop_bytes n s) = (String.length s - n)%nat.
Proof.
  revert s. induction n as [|n IH]; intros [|c s]; cbn [gostd.drop_bytes String.length];
    try lia. apply IH.
Qed.

Lemma leading_space_Some runes s n :
  gostd.leading_space runes s = Some n →
  ∃ r, r ∈ runes ∧ strings.HasPrefix s r = true ∧ n = String.length r.
Proof.
  unfold gostd.leading_space.
  destruct (filter (fun r => strings.HasPrefix s r = true) runes) as [|r rest] eqn:E;
    [discriminate|].
  intros [= <-]. exists r.
  assert (Hin : r ∈ filter (fun r => strings.HasPrefix s r = true) runes)
    by (rewrite E; by left).
  apply list_elem_of_filter in Hin as [? ?]. done.
Qed.

Lemma leading_space_None runes s r :
  gostd.leading_space runes s = None → r ∈ runes → strings.HasPrefix s r = false.
Proof.
  unfold gostd.leading_space.
  destruct (filter (fun r => strings.HasPrefix s r = true) runes) as [|r' rest] eqn:E;
    [|discriminate].
  intros _ Hin. destruct (strings.HasPrefix s r) eqn:Hp; [|done].
  assert (Hf : r ∈ filter (fun r => strings.HasPrefix s r = true) runes).
  { by apply list_elem_of_filter. }
  rewrite E in Hf. by apply elem_of_nil in Hf.
Qed.

(** With enough fuel [trim_left] stops at a string that starts with none
    of the characters, and what it returns is what is left of the string
    after some bytes. *)
Lemma trim_left_done runes fuel s :
  Forall (fun r => r ≠ "") runes →
  (String.length s ≤ fuel)%nat →
  gostd.leading_space runes (gostd.trim_left runes fuel s) = None
  ∧ ∃ k, gostd.trim_left runes fuel s = gostd.drop_bytes k s.
Proof.
  intros Hne. revert s. induction fuel as [|fuel IH]; intros s Hlen.
  - destruct s; [|cbn in Hlen; lia]. cbn [gostd.trim_left]. split; [|by exists 0%nat].
    destruct (gostd.leading_space runes "") as [n|] eqn:E; [|done].
    apply leading_space_Some in E as (r&Hin&Hp&_).
    rewrite Forall_forall in Hne. specialize (Hne r Hin).
    destruct r; [done|discriminate].
  - cbn [gostd.trim_left]. destruct (gostd.leading_space runes s) as [n|] eqn:E.
    + apply leading_space_Some in E as (r&Hin&Hp&->).
      rewrite Forall_forall in Hne. pose proof (Hne r Hin) as Hr.
      apply HasPrefix_length in Hp as Hl.
      assert (0 < String.length r)%nat by (destruct r; [done|cbn; lia]).
      destruct (IH (gostd.drop_bytes (String.length r) s)) as [H1 [k H2]].
      { rewrite drop_bytes_length. lia. }
      split; [exact H1|]. exists (String.length r + k)%nat. rewrite H2.
      clear. revert s. induction (String.length r) as [|m IHm]; intros s; [done|].
      destruct s as [|c s]; cbn [gostd.drop_bytes Nat.add]; [by destruct k|apply IHm].
    + split; [exact E|]. by exists 0%nat.
Qed.

Lemma rev_string_involutive s : gostd.rev_string (gostd.rev_string s) = s.
Proof.
  unfold gostd.rev_string.
  by rewrite list_ascii_of_string_of_list_ascii, rev_involutive,
    string_of_list_ascii_of_string.
Qed.

Lemma length_list_ascii s : length (list_ascii_of_string s) = String.length s.
Proof. induction s as [|c s IH]; cbn; [done|]. by rewrite IH. Qed.

Lemma rev_string_length s : String.length (gostd.rev_string s) = String.length s.
Proof.
  unfold gostd.rev_string.
  rewrite <- (length_list_ascii (string_of_list_ascii _)),
    list_ascii_of_string_of_list_ascii, length_rev. apply length_list_ascii.
Qed.

Lemma list_ascii_append a b :
  list_ascii_of_string (a +:+ b) = list_ascii_of_string a ++ list_ascii_of_string b.
Proof.
  induction a as [|c a IH]; [done|]. rewrite append_cons. cbn. by rewrite IH.
Qed.

Lemma string_of_list_app (a b : list ascii) :
  string_of_list_ascii (a ++ b) = string_of_list_ascii a +:+ string_of_list_ascii b.
Proof. induction a as [|c a IH]; [done|]. cbn. by rewrite IH, append_cons. Qed.

Lemma rev_string_append a b :
  gostd.rev_string (a +:+ b) = gostd.rev_string b +:+ gostd.rev_string a.
Proof.
  unfold gostd.rev_string. by rewrite list_ascii_append, rev_app_distr, string_of_list_app.
Qed.

Lemma drop_bytes_split k s : ∃ a, s = a +:+ gostd.drop_bytes k s.
Proof.
  revert s. induction k as [|k IH]; intros s; [by exists ""|].
  destruct s as [|c s]; [by exists ""|]. cbn [gostd.drop_bytes].
  destruct (IH s) as [a Ha]. exists (String c a). by rewrite append_cons, <- Ha.
Qed.

Lemma all_space_runes_not_empty : Forall (fun r => r ≠ "") gostd.space_runes.
Proof. apply Forall_forall. intros r Hr. vm_compute in Hr. 
  repeat (apply elem_of_cons in Hr as [->|Hr]; [discriminate|]). by apply elem_of_nil in Hr.
Qed.

Lemma rev_runes_not_empty :
  Forall (fun r => r ≠ "") (map gostd.rev_string gostd.space_runes).
Proof. apply Forall_forall. intros r Hr. vm_compute in Hr.
  repeat (apply elem_of_cons in Hr as [->|Hr]; [discriminate|]). by apply elem_of_nil in Hr.
Qed.

(** [strings.TrimSpace] returns a string that neither starts nor ends with
    a white-space character. *)
Lemma TrimSpace_trimmed s :
  gostd.leading_space gostd.space_runes (gostd.TrimSpace s) = None
  ∧ gostd.leading_space (map gostd.rev_string gostd.space_runes)
      (gostd.rev_string (gostd.TrimSpace s)) = None.
Proof.
  unfold gostd.TrimSpace. cbv zeta.
  set (s1 := gostd.trim_left gostd.space_runes (String.length s) s).
  destruct (trim_left_done gostd.space_runes (String.length s) s
              all_space_runes_not_empty (le_n _)) as [H1 _]. fold s1 in H1.
  assert (Hl : (String.length (gostd.rev_string s1) ≤ String.length s1)%nat)
    by (by rewrite rev_string_length).
  destruct (trim_left_done (map gostd.rev_string gostd.space_runes) (String.length s1)
              (gostd.rev_string s1) rev_runes_not_empty Hl) as [H2 [k Hk]].
  set (t := gostd.trim_left (map gostd.rev_string gostd.space_runes) (String.length s1)
              (gostd.rev_string s1)) in *.
  split; [|by rewrite rev_string_involutive].
  destruct (gostd.leading_space gostd.space_runes (gostd.rev_string t)) as [n|] eqn:E;
    [|reflexivity].
  exfalso. apply leading_space_Some in E as (r&Hin&Hp&_).
  rewrite Hk in Hp.
  destruct (drop_bytes_split k (gostd.rev_string s1)) as [a Ha].
  apply (f_equal gostd.rev_string) in Ha.
  rewrite rev_string_involutive, rev_string_append in Ha.
  apply HasPrefix_append in Hp as [rest Hrest].
  rewrite Hrest, append_assoc in Ha.
  assert (Hs1 : strings.HasPrefix s1 r = true) by (apply HasPrefix_append; eauto).
  by rewrite (leading_space_None _ _ r H1 Hin) in Hs1.
Qed.

Section Passphrase.

Variable host : Host.
Variable config : Config.

(** X30: The pass phrase that [getPassword] returns, typed or printed by the
    password command, never starts or ends with a white-space character:
    a pass phrase with a blank at either end cannot be given to [geli]
    this way. *)
Theorem getPassword_trims_the_passphrase l st pw st' :
  getPassword host config l st = (Ret (pw, None), st') →
  gostd.leading_space gostd.space_runes pw = None
  ∧ gostd.leading_space (map gostd.rev_string gostd.space_runes) (gostd.rev_string pw)
    = None.
Proof.
  unfold getPassword. destruct (negb _).
  - unfold bind, exec. destruct (exec_err _); [discriminate|].
    intros [= <- _]. apply TrimSpace_trimmed.
  - unfold bind at 1, displayName, bind at 1, load.
    destruct (heap st !! l) as [dev|]; [|discriminate].
    unfold lift. destruct (GetDisplayName dev) as [name|]; [|discriminate].
    unfold bind, do_, ReadLine. destruct ((host_readline host _).2); [discriminate|].
    intros [= <- _]. apply TrimSpace_trimmed.
Qed.

End Passphrase.
(** ** Mount all, from the scan to the log *)

(** The trace only grows. *)
Definition grows {A} (m : M A) : Prop := ∀ st, emits (fun _ => True) st (m st).2.

Lemma grows_only {A} P (m : M A) : only P m → grows m.
Proof.
  intros H st. eapply emits_weaken; [|apply acts_only_emits, H]. done.
Qed.

Lemma grows_bind {A B} (m : M A) (f : A → M B) :
  grows m → (∀ a, grows (f a)) → grows (bind m f).
Proof.
  intros Hm Hf st. unfold bind. specialize (Hm st).
  destruct (m st) as [[a|msg] st1]; [|exact Hm].
  eapply emits_trans; [exact Hm|apply Hf].
Qed.

Lemma grows_quiet (g : State → State) :
  (∀ st, trace (g st) = trace st) → grows (fun st => (Ret tt, g st)).
Proof. intros H st. apply emits_same_trace. cbn [snd]. apply H. Qed.

Lemma grows_update l f : grows (update l f).
Proof.
  apply grows_bind; [apply (grows_only (fun _ => True)), only_load|].
  intros dev. by apply grows_quiet.
Qed.

Lemma grows_talk {A} (m : M A) : only talk m → grows m.
Proof. apply grows_only. Qed.

Section MountAllClaims.

Variable host : Host.
Variable config : Config.

Lemma grows_MkdirAll path : grows (MkdirAll path).
Proof.
  intros st. unfold MkdirAll. destruct (fsys.MkdirAll (fs st) path) as [fs' err].
  exists [AMkdirAll path err]. split; [reflexivity|]. by constructor.
Qed.

Lemma grows_attach l path c : grows (attach host config l path c).
Proof.
  unfold attach. apply grows_bind; [by apply (grows_only (fun _ => True)), only_exec|].
  intros r. destruct (exec_err r); [apply (grows_only talk), only_ret|].
  apply grows_bind; [apply grows_update|]. intros _.
  apply grows_talk.
  apply only_bind; [by apply only_do|]. intros _.
  apply only_bind;
    [apply only_notify_if; [done|];
     apply only_bind; [apply only_displayName|intros; apply only_ret]|].
  intros _. apply only_ret.
Qed.

Lemma grows_unlockDevice l : grows (unlockDevice host config l).
Proof.
  unfold unlockDevice. destruct (negb _); [apply (grows_only talk), only_ret|].
  apply grows_bind; [apply (grows_only talk), only_load|]. intros dev.
  apply grows_bind; [by apply (grows_only talk), only_do|]. intros _.
  destruct (_ !! _); [apply grows_attach|].
  apply grows_bind; [apply (grows_only no_mount_attempt), only_getPassword|].
  intros pw. destruct (pw.2); [apply (grows_only talk), only_ret|apply grows_attach].
Qed.

Lemma grows_mountUnlocked l : grows (mountUnlocked host config l).
Proof.
  unfold mountUnlocked.
  apply grows_bind; [apply (grows_only talk), only_load|]. intros dev.
  apply grows_bind; [apply (grows_only talk), only_lift|]. intros mp.
  apply grows_bind; [apply grows_MkdirAll|]. intros [e|];
    [apply (grows_only talk), only_ret|].
  apply grows_bind; [by apply (grows_only talk), only_do|]. intros _.
  apply grows_bind; [by apply (grows_only (fun _ => True)), only_exec|]. intros r.
  destruct (exec_err r); [apply (grows_only talk), only_ret|].
  apply grows_bind; [apply grows_update|]. intros _.
  apply grows_bind; [by apply grows_quiet|]. intros _.
  apply (grows_talk (mount_tail config l dev mp)), only_mount_tail.
Qed.

Lemma grows_mountDevice l : grows (mountDevice host config l).
Proof.
  unfold mountDevice.
  apply grows_bind; [apply (grows_only talk), only_load|]. intros dev.
  destruct (IsMounted dev); [apply (grows_only talk), only_ret|].
  apply grows_bind.
  - destruct (_ && _); [apply grows_unlockDevice|apply (grows_only talk), only_ret].
  - intros [e|]; [apply (grows_only talk), only_ret|apply grows_mountUnlocked].
Qed.

Lemma grows_mountAll_body l : grows (mountAll_body host config l).
Proof.
  unfold mountAll_body.
  apply grows_bind; [apply (grows_only talk), only_load|]. intros dev.
  destruct (_ && _); [|apply (grows_only talk), only_ret].
  apply grows_bind; [apply grows_mountDevice|]. intros [e|];
    [|apply (grows_only talk), only_ret].
  apply grows_bind; [apply (grows_only talk), only_load|]. intros d.
  by apply (grows_only talk), only_do.
Qed.

Lemma grows_for_each {A} (xs : list A) (body : A → M unit) :
  (∀ x, grows (body x)) → grows (for_each xs body).
Proof.
  intros Hb. induction xs as [|x xs IH]; [apply (grows_only talk), only_ret|].
  cbn [for_each]. apply grows_bind; [apply Hb|]. intros _. exact IH.
Qed.

(** The action [a] was added to the trace between [st] and [st']. *)
Definition since (st st' : State) (a : Action) : Prop :=
  ∃ acts, trace st' = trace st ++ acts ∧ a ∈ acts.

Lemma since_later st0 st1 st2 a :
  emits (fun _ => True) st1 st2 → since st0 st1 a → since st0 st2 a.
Proof.
  intros (more&Ht&_) (acts&Ha&Hin). exists (acts ++ more).
  split; [by rewrite Ht, Ha, app_assoc|]. apply elem_of_app. by left.
Qed.

Lemma since_last st0 st a :
  emits (fun _ => True) st0 st → since st0 (add_trace a st) a.
Proof.
  intros (acts&Ht&_). exists (acts ++ [a]). split.
  - cbn [trace add_trace]. by rewrite Ht, app_assoc.
  - apply elem_of_app. right. by apply list_elem_of_singleton.
Qed.

(** What the loop of [MountAll], begun in [st0], has done with the record
    behind [l], which held [dev] then, once the loop is over and the state
    is [st']: a record that is no partition or counted as mounted is as it
    was; any other has been given to [mountDevice] and either counts as
    mounted now, at its mount directory, or its failure has been logged
    and it does not count as mounted. *)
Definition attempted (st0 st' : State) (l : loc) (dev : Device) : Prop :=
  if IsPartition dev && negb (IsMounted dev)
  then (∃ mp, GetMountDirectory dev (MountBase config) = Ret mp
              ∧ heap st' !! l = Some (set_MountPoint mp true (unlocked dev)))
       ∨ (∃ err dev', since st0 st' (failed_log (Path dev) err)
                      ∧ heap st' !! l = Some dev' ∧ IsMounted dev' = false)
  else heap st' !! l = Some dev.

(** One turn of the loop that returns. *)
Lemma mountAll_body_attempts st0 st l dev st' :
  heap st !! l = Some dev →
  emits (fun _ => True) st0 st →
  mountAll_body host config l st = (Ret tt, st') →
  attempted st0 st' l dev.
Proof.
  intros Hd H0. rewrite (mountAll_body_eq host config st l dev Hd). unfold attempted.
  destruct (IsPartition dev && negb (IsMounted dev)) eqn:He.
  - apply andb_prop in He as [_ Hm]. apply negb_true_iff in Hm.
    pose proof (grows_mountDevice l st) as Hg.
    destruct (mountDevice host config l st) as [[[err|]|msg] st1] eqn:E; [| |discriminate].
    + intros [= <-]. right.
      apply (mountDevice_error_not_mounted host config _ _ _ _ _ Hd Hm) in E
        as (d'&Hd'&Hm'&_).
      exists err, d'. split; [|by split].
      apply since_last. eapply emits_trans; [exact H0|exact Hg].
    + intros [= <-]. left.
      apply (mountDevice_success host config _ _ _ _ Hd) in E as (_&mp&Hmp&_&Hh&_).
      exists mp. split; [exact Hmp|]. by rewrite Hh, lookup_insert_eq.
  - by intros [= <-].
Qed.

(** What was done with a record stays done while the loop goes on with
    other records. *)
Lemma attempted_stays st0 st1 st2 l dev :
  heap st2 !! l = heap st1 !! l →
  emits (fun _ => True) st1 st2 →
  attempted st0 st1 l dev → attempted st0 st2 l dev.
Proof.
  intros Hh Ht. unfold attempted. rewrite Hh.
  destruct (_ && _); [|done].
  intros [H|(err&d'&Hlog&Hd'&Hm)]; [by left|right].
  exists err, d'. split; [by eapply since_later|by split].
Qed.

(** The loop of [MountAll] over records behind different pointers: when it
    returns, every record has had its turn. *)
Lemma mountAll_loop_attempts st0 ls devs st st' :
  books_ok st →
  NoDup ls →
  Forall2 (fun l d => heap st !! l = Some d) ls devs →
  emits (fun _ => True) st0 st →
  for_each ls (mountAll_body host config) st = (Ret tt, st') →
  Forall2 (attempted st0 st') ls devs.
Proof.
  intros Hb Hnd Hf. revert ls st Hb Hf Hnd.
  induction devs as [|d devs IH]; intros ls st Hb Hf Hnd H0.
  - apply Forall2_nil_inv_r in Hf as ->. constructor.
  - apply Forall2_cons_inv_r in Hf as (l&ls'&Hd&Hf&->).
    apply NoDup_cons in Hnd as [Hl Hnd]. cbn [for_each]. unfold bind at 1.
    pose proof (mountAll_body_steps host config l st) as Hs.
    pose proof (grows_mountAll_body l st) as Hg.
    destruct (mountAll_body host config l st) as [[[]|msg] st1] eqn:Eb; [|discriminate].
    cbn [snd] in Hs, Hg. intros El.
    pose proof (books_ok_steps _ _ _ Hs Hb) as Hb1.
    apply record_steps_touches_only in Hs as (_&_&Hother&_).
    assert (Hf1 : Forall2 (fun l0 d0 => heap st1 !! l0 = Some d0) ls' devs).
    { eapply Forall2_impl_elem; [exact Hf|]. intros l0 d0 Hin Hl0.
      cbn beta in *. rewrite Hother; [done|]. by intros ->. }
    assert (H1 : emits (fun _ => True) st0 st1) by (eapply emits_trans; eauto).
    constructor; [|by apply (IH ls' st1)].
    apply (attempted_stays st0 st1).
    + destruct (mountAll_loop_spec host config ls' st1 Hb1) as (_&_&_&Hh).
      rewrite El in Hh. by apply Hh.
    + pose proof (grows_for_each ls' _ grows_mountAll_body st1) as H. by rewrite El in H.
    + by apply (mountAll_body_attempts st0 st).
Qed.

(** C6, as the code has it: after a scan that succeeded, [MountAll] runs its
    loop over the records of the scan, in order, and returns [nil] when
    the loop is over: no count and no list of failures. A record that is
    a partition and does not count as mounted is given to [mountDevice];
    an error is logged, leaves [mounted] alone and does not end the loop;
    so when [MountAll] returns, every such record either counts as mounted
    or has had its failure logged by this call, and the other records are
    as the scan left them. After a scan that failed, [MountAll] returns the error and
    has tried nothing. *)
Theorem MountAll_attempts_every_device st :
  books_ok st →
  match (host_scan host (trace st)).2 with
  | Some err =>
      MountAll host config st
      = (Ret (Some ("failed to scan devices: " +:+ err)),
         add_trace (AScan (host_scan host (trace st)).1 (Some err)) st)
  | None =>
      ∃ ls st1,
        deviceMgr_Scan host st = (Ret (ls, None), st1)
        ∧ Forall2 (fun l d => heap st1 !! l = Some d) ls (host_scan host (trace st)).1
        ∧ MountAll host config st
          = match for_each ls (mountAll_body host config) st1 with
            | (Ret _, st2) => (Ret None, st2)
            | (Panic msg, st2) => (Panic msg, st2)
            end
        ∧ (∀ s l dev,
             heap s !! l = Some dev →
             mountAll_body host config l s
             = if IsPartition dev && negb (IsMounted dev)
               then match mountDevice host config l s with
                    | (Ret None, s1) => (Ret tt, s1)
                    | (Ret (Some err), s1) =>
                        (Ret tt, add_trace (failed_log (Path dev) err) s1)
                    | (Panic msg, s1) => (Panic msg, s1)
                    end
               else (Ret tt, s))
        ∧ (∀ s l dev err s1,
             heap s !! l = Some dev →
             mountDevice host config l s = (Ret (Some err), s1) →
             mounted s1 = mounted s)
        ∧ (∀ o st',
             MountAll host config st = (Ret o, st') →
             o = None
             ∧ Forall2 (attempted st1 st') ls (host_scan host (trace st)).1)
  end.
Proof.
  intros Hb.
  destruct (deviceMgr_Scan_fresh host st Hb) as (ls&st1&E&Hb1&Hcase&Hnd&_).
  destruct ((host_scan host (trace st)).2) as [err|] eqn:Hs.
  - destruct Hcase as [-> _]. unfold MountAll, bind. rewrite E. cbn [snd]. unfold ret.
    f_equal. revert E. unfold deviceMgr_Scan. cbv zeta. rewrite Hs. by intros [= <-].
  - destruct Hcase as [Hf _].
    assert (HM : MountAll host config st
                 = match for_each ls (mountAll_body host config) st1 with
                   | (Ret _, st2) => (Ret None, st2)
                   | (Panic msg, st2) => (Panic msg, st2)
                   end).
    { unfold MountAll, bind at 1. rewrite E. cbn [fst snd]. unfold bind.
      by destruct (for_each ls (mountAll_body host config) st1) as [[[]|msg] st2]. }
    exists ls, st1. split; [exact E|]. split; [exact Hf|]. split; [exact HM|].
    split; [intros s l dev; apply mountAll_body_eq|]. split.
    { intros s l dev err s1 Hd Em.
      by apply (mountDevice_error host config _ _ _ _ _ Hd) in Em as [? _]. }
    intros o st'. rewrite HM.
    destruct (for_each ls (mountAll_body host config) st1) as [[[]|msg] st2] eqn:El;
      [|discriminate].
    intros [= <- <-]. split; [reflexivity|].
    apply (mountAll_loop_attempts st1 ls _ st1); try done. apply emits_refl.
Qed.

End MountAllClaims.

(** ** The properties above on examples *)

(** A configuration with an entry for a path and, after it, an entry for
    the label [BACKUP] that turns automounting off and mounts read-only. *)
Definition path_entry : DeviceConfig := mkDeviceConfig "" "" "/dev/da9" true None [].

Definition backup_entry : DeviceConfig :=
  mkDeviceConfig "BACKUP" "" "" false (Some false) ["ro"].

Definition two_entries : Config :=
  mkConfig true "/media" "" no_notifications [path_entry; backup_entry] ∅ ∅
           (mkGELIConfig true "" 0 ∅).

Lemma first_entry_decides_witness :
  Devices two_entries = [path_entry] ++ backup_entry :: []
  ∧ names_device "BACKUP" "" "/dev/da0p1" backup_entry
  ∧ Forall (fun e' => ¬ names_device "BACKUP" "" "/dev/da0p1" e') [path_entry]
  ∧ ShouldAutomountDevice two_entries "BACKUP" "" "/dev/da0p1" = false
  ∧ GetMountOptions two_entries "msdosfs" "BACKUP" "" "/dev/da0p1" = ["ro"].
Proof.
  assert (H1 : Devices two_entries = [path_entry] ++ backup_entry :: []) by reflexivity.
  assert (H2 : names_device "BACKUP" "" "/dev/da0p1" backup_entry).
  { left. split; [discriminate|reflexivity]. }
  assert (H3 : Forall (fun e' => ¬ names_device "BACKUP" "" "/dev/da0p1" e') [path_entry]).
  { constructor; [|constructor]. intros [[H _]|[[H _]|[_ H]]]; [by apply H..|discriminate]. }
  split; [exact H1|]. split; [exact H2|]. split; [exact H3|].
  destruct (first_entry_decides two_entries "BACKUP" "" "/dev/da0p1" "msdosfs"
              [path_entry] backup_entry [] H1 H2 H3) as (_&Ha&Ho).
  split; [exact Ha|exact Ho].
Defined.

Lemma tick_remembers_the_scan_witness :
  Poll.all_true knows_da0
  ∧ Poll.range_order (Poll.known_after_add knows_da0 [da1]) ["/dev/da1"; "/dev/da0"]
  ∧ (is_Some ((Poll.tick knows_da0 [da1] ["/dev/da1"; "/dev/da0"]).1 !! "/dev/da0")
     ↔ "/dev/da0" ∈ Path <$> [da1]).
Proof.
  assert (H1 : Poll.all_true knows_da0) by apply all_true_singleton.
  assert (H2 : Poll.range_order (Poll.known_after_add knows_da0 [da1])
                 ["/dev/da1"; "/dev/da0"])
    by (unfold Poll.range_order; vm_compute; reflexivity).
  split; [exact H1|]. split; [exact H2|].
  apply (tick_remembers_the_scan knows_da0 [da1] ["/dev/da1"; "/dev/da0"] H1 H2).
Defined.

Lemma tick_same_scan_is_silent_witness :
  Poll.all_true knows_da0
  ∧ Poll.range_order (Poll.known_after_add knows_da0 [da1]) ["/dev/da1"; "/dev/da0"]
  ∧ Poll.range_order
      (Poll.known_after_add (Poll.tick knows_da0 [da1] ["/dev/da1"; "/dev/da0"]).1 [da1])
      ["/dev/da1"]
  ∧ (Poll.tick (Poll.tick knows_da0 [da1] ["/dev/da1"; "/dev/da0"]).1 [da1]
        ["/dev/da1"]).2 = [].
Proof.
  assert (H1 : Poll.all_true knows_da0) by apply all_true_singleton.
  assert (H2 : Poll.range_order (Poll.known_after_add knows_da0 [da1])
                 ["/dev/da1"; "/dev/da0"])
    by (unfold Poll.range_order; vm_compute; reflexivity).
  assert (H3 : Poll.range_order
                 (Poll.known_after_add
                    (Poll.tick knows_da0 [da1] ["/dev/da1"; "/dev/da0"]).1 [da1])
                 ["/dev/da1"])
    by (unfold Poll.range_order; vm_compute; reflexivity).
  split; [exact H1|]. split; [exact H2|]. split; [exact H3|].
  by rewrite (tick_same_scan_is_silent knows_da0 [da1] ["/dev/da1"; "/dev/da0"]
                ["/dev/da1"] H1 H2 H3).
Defined.

Lemma unlockDevice_never_logs_the_passphrase_witness :
  heap books_locked !! 1%positive = Some locked_A
  ∧ emits (unlock_action plain_config locked_A) books_locked
      (unlockDevice wrong_passphrase_host plain_config 1%positive books_locked).2.
Proof.
  assert (H1 : heap books_locked !! 1%positive = Some locked_A) by reflexivity.
  split; [exact H1|].
  exact (unlockDevice_never_logs_the_passphrase wrong_passphrase_host plain_config
           1%positive books_locked locked_A H1).
Defined.

Lemma books_ok_books_A : books_ok books_A.
Proof. apply books_okb_ok. vm_compute. reflexivity. Qed.

Lemma books_ok_empty_state : books_ok empty_state.
Proof. apply books_okb_ok. vm_compute. reflexivity. Qed.

Lemma daemon_keeps_the_books_witness :
  books_ok books_A
  ∧ books_ok (unmountDevice quiet_host plain_config 1%positive books_A).2
  ∧ books_ok (onDeviceRemoved busy_host plain_config "/dev/da0p1" books_A).2.
Proof.
  split; [exact books_ok_books_A|].
  destruct (daemon_keeps_the_books quiet_host plain_config 1%positive books_A
              books_ok_books_A) as (_&Hu&_).
  destruct (daemon_keeps_the_books busy_host plain_config 1%positive books_A
              books_ok_books_A) as (_&_&_&_&Hr).
  split; [exact Hu|apply Hr].
Defined.

Lemma Scan_hands_out_fresh_records_witness :
  books_ok books_A
  ∧ ∃ ls st',
      deviceMgr_Scan (mount_fails_for []) books_A = (Ret (ls, None), st')
      ∧ NoDup ls
      ∧ Forall (fun l => heap books_A !! l = None) ls
      ∧ heap st' !! 1%positive = Some mounted_A.
Proof.
  split; [exact books_ok_books_A|].
  destruct (Scan_hands_out_fresh_records (mount_fails_for []) books_A books_ok_books_A)
    as (ls&st'&E&_&Hnd&Hfresh&Hold&_).
  exists ls, st'. split; [exact E|]. split; [exact Hnd|]. split; [exact Hfresh|].
  rewrite Hold; [reflexivity|]. by exists mounted_A.
Defined.

Lemma MountAll_keeps_the_books_witness :
  books_ok books_A
  ∧ books_ok (MountAll (mount_fails_for ["/dev/da1p1"]) plain_config books_A).2
  ∧ heap (MountAll (mount_fails_for ["/dev/da1p1"]) plain_config books_A).2 !! 1%positive
    = Some mounted_A.
Proof.
  split; [exact books_ok_books_A|].
  destruct (MountAll_keeps_the_books (mount_fails_for ["/dev/da1p1"]) plain_config
              books_A books_ok_books_A) as (Hb&Hold&_).
  split; [exact Hb|]. rewrite Hold; [reflexivity|]. by exists mounted_A.
Defined.

Lemma failed_mount_leaves_the_directory_witness :
  heap books_fresh !! 1%positive = Some fresh_A
  ∧ IsMounted fresh_A = false
  ∧ IsEncrypted fresh_A && negb (IsUnlocked fresh_A) = false
  ∧ GetMountDirectory fresh_A (MountBase plain_config) = Ret "/media/A"
  ∧ (fsys.MkdirAll (fs books_fresh) "/media/A").2 = None
  ∧ exec_err (mount_answer (mount_fails_for ["/dev/da0p1"]) plain_config books_fresh
                fresh_A "/media/A") = Some "exit status 1"
  ∧ ∃ st',
      mountDevice (mount_fails_for ["/dev/da0p1"]) plain_config 1%positive books_fresh
      = (Ret (Some "mount failed: exit status 1 (output: mount: Invalid argument)"), st')
      ∧ mounted st' = ∅
      ∧ fs books_fresh !! "/media/A" = None
      ∧ fs st' !! "/media/A" = Some fsys.Dir.
Proof.
  assert (H1 : heap books_fresh !! 1%positive = Some fresh_A) by reflexivity.
  assert (H2 : IsMounted fresh_A = false) by reflexivity.
  assert (H3 : IsEncrypted fresh_A && negb (IsUnlocked fresh_A) = false) by reflexivity.
  assert (H4 : GetMountDirectory fresh_A (MountBase plain_config) = Ret "/media/A")
    by reflexivity.
  assert (H5 : (fsys.MkdirAll (fs books_fresh) "/media/A").2 = None)
    by (vm_compute; reflexivity).
  assert (H6 : exec_err (mount_answer (mount_fails_for ["/dev/da0p1"]) plain_config
                           books_fresh fresh_A "/media/A") = Some "exit status 1")
    by (vm_compute; reflexivity).
  split; [exact H1|]. split; [exact H2|]. split; [exact H3|]. split; [exact H4|].
  split; [exact H5|]. split; [exact H6|].
  destruct (failed_mount_leaves_the_directory (mount_fails_for ["/dev/da0p1"])
              plain_config books_fresh 1%positive fresh_A "/media/A" "exit status 1"
              H1 H2 H3 H4 H5 H6) as (st'&E&_&Hm&_&Hd&_).
  exists st'. split; [exact E|]. split; [exact Hm|]. split; [reflexivity|exact Hd].
Defined.

Lemma unmountDevice_footprint_witness :
  heap books_A !! 1%positive = Some mounted_A
  ∧ emits (unmount_action plain_config mounted_A) books_A
      (unmountDevice quiet_host plain_config 1%positive books_A).2.
Proof.
  assert (H1 : heap books_A !! 1%positive = Some mounted_A) by reflexivity.
  split; [exact H1|].
  exact (unmountDevice_footprint quiet_host plain_config books_A 1%positive mounted_A H1).
Defined.

(** A hook for [device_unmounted] that names the device and the mount
    point. *)
Definition unmount_hook : Config :=
  config_with_hooks {[ "device_unmounted" := "logger {device} left {mount_point}" ]}.

Lemma unmount_hook_gets_no_mount_point_witness :
  heap books_A !! 1%positive = Some mounted_A
  ∧ EventHooks unmount_hook !! "device_unmounted"
    = Some "logger {device} left {mount_point}"
  ∧ unmountDevice quiet_host unmount_hook 1%positive books_A
    = (Ret None, (unmountDevice quiet_host unmount_hook 1%positive books_A).2)
  ∧ ∃ before,
      trace (unmountDevice quiet_host unmount_hook 1%positive books_A).2
      = before ++ [AGo (mkCmd "sh" ["-c"; "logger /dev/da0p1 left "] None)].
Proof.
  assert (H1 : heap books_A !! 1%positive = Some mounted_A) by reflexivity.
  assert (H2 : EventHooks unmount_hook !! "device_unmounted"
               = Some "logger {device} left {mount_point}") by reflexivity.
  assert (H3 : unmountDevice quiet_host unmount_hook 1%positive books_A
               = (Ret None, (unmountDevice quiet_host unmount_hook 1%positive books_A).2))
    by (vm_compute; reflexivity).
  split; [exact H1|]. split; [exact H2|]. split; [exact H3|].
  exact (unmount_hook_gets_no_mount_point quiet_host unmount_hook books_A 1%positive
           mounted_A "logger {device} left {mount_point}" _ H1 H2 H3).
Defined.

(** A whole disk, which is no partition, and the books with it. *)
Definition whole_disk : Device :=
  mkDevice "da0" "/dev/da0" "" "" "" 0 "" false false false false true 0.

Definition books_disk : State :=
  mkState {[ 1%positive := whole_disk ]} 2%positive ∅ ∅ {[ "/media" := fsys.Dir ]} [].

(** A hook without a placeholder. *)
Definition plain_hook : Config :=
  config_with_hooks {[ "device_added" := "logger a device was added" ]}.

Lemma onDeviceAdded_without_automount_witness :
  heap books_disk !! 1%positive = Some whole_disk
  ∧ GetDisplayName whole_disk = Ret "da0"
  ∧ ShouldIgnoreDevice plain_hook (Label whole_disk) (UUID whole_disk) (Path whole_disk)
    = false
  ∧ IsPartition whole_disk
    && ShouldAutomountDevice plain_hook (Label whole_disk) (UUID whole_disk)
         (Path whole_disk) = false
  ∧ ∃ st',
      onDeviceAdded quiet_host plain_hook 1%positive books_disk = (Ret tt, st')
      ∧ same_memory books_disk st'
      ∧ trace st'
        = [ALog "Device added: /dev/da0 (da0)";
           ALog "Executing event hook for device_added: logger a device was added";
           AGo (mkCmd "sh" ["-c"; "logger a device was added"] None)].
Proof.
  assert (H1 : heap books_disk !! 1%positive = Some whole_disk) by reflexivity.
  assert (H2 : GetDisplayName whole_disk = Ret "da0") by reflexivity.
  assert (H3 : ShouldIgnoreDevice plain_hook (Label whole_disk) (UUID whole_disk)
                 (Path whole_disk) = false) by reflexivity.
  assert (H4 : IsPartition whole_disk
               && ShouldAutomountDevice plain_hook (Label whole_disk) (UUID whole_disk)
                    (Path whole_disk) = false) by reflexivity.
  split; [exact H1|]. split; [exact H2|]. split; [exact H3|]. split; [exact H4|].
  destruct (onDeviceAdded_without_automount quiet_host plain_hook books_disk 1%positive
              whole_disk "da0" H1 H2) as [_ Hq].
  destruct (Hq H3 H4) as (st'&E&Hm&Ht).
  exists st'. split; [exact E|]. split; [exact Hm|]. rewrite Ht. reflexivity.
Defined.

(** A partition without a label whose identifier has four bytes. *)
Definition short_uuid : Device := named "sdb1" "" "1234".

Definition books_short : State :=
  mkState {[ 1%positive := short_uuid ]} 2%positive ∅ ∅ {[ "/media" := fsys.Dir ]} [].

Lemma short_UUID_panics_in_the_daemon_witness :
  heap books_short !! 1%positive = Some short_uuid
  ∧ Label short_uuid = ""
  ∧ UUID short_uuid ≠ ""
  ∧ (String.length (UUID short_uuid) < 8)%nat
  ∧ ∃ msg, onDeviceAdded quiet_host plain_config 1%positive books_short
           = (Panic msg, books_short).
Proof.
  assert (H1 : heap books_short !! 1%positive = Some short_uuid) by reflexivity.
  assert (H2 : Label short_uuid = "") by reflexivity.
  assert (H3 : UUID short_uuid ≠ "") by discriminate.
  assert (H4 : (String.length (UUID short_uuid) < 8)%nat) by (simpl; lia).
  split; [exact H1|]. split; [exact H2|]. split; [exact H3|]. split; [exact H4|].
  destruct (short_UUID_panics_in_the_daemon quiet_host plain_config books_short
              1%positive short_uuid H1 H2 H3 H4) as [Hp _].
  exact Hp.
Defined.

Lemma onDeviceRemoved_untracked_witness :
  mounted books_fresh !! "/dev/da0p1" = None
  ∧ ∃ st' acts,
      onDeviceRemoved quiet_host plain_config "/dev/da0p1" books_fresh = (Ret tt, st')
      ∧ same_memory books_fresh st'
      ∧ trace st' = trace books_fresh ++ ALog "Device removed: /dev/da0p1" :: acts.
Proof.
  assert (H1 : mounted books_fresh !! "/dev/da0p1" = None) by reflexivity.
  split; [exact H1|].
  destruct (onDeviceRemoved_untracked quiet_host plain_config books_fresh "/dev/da0p1" H1)
    as (st'&acts&E&Hm&Ht&_).
  exists st', acts. split; [exact E|]. split; [exact Hm|exact Ht].
Defined.

Lemma onDeviceRemoved_tracked_witness :
  books_ok books_A
  ∧ mounted books_A !! "/dev/da0p1" = Some 1%positive
  ∧ heap books_A !! 1%positive = Some mounted_A
  ∧ mounted (onDeviceRemoved busy_host plain_config "/dev/da0p1" books_A).2 !! "/dev/da0p1"
    = Some 1%positive
  ∧ mounted (onDeviceRemoved quiet_host plain_config "/dev/da0p1" books_A).2
    = delete "/dev/da0p1" (mounted books_A).
Proof.
  assert (H2 : mounted books_A !! "/dev/da0p1" = Some 1%positive) by reflexivity.
  assert (H3 : heap books_A !! 1%positive = Some mounted_A) by reflexivity.
  split; [exact books_ok_books_A|]. split; [exact H2|]. split; [exact H3|].
  pose proof (onDeviceRemoved_tracked busy_host plain_config books_A "/dev/da0p1"
                1%positive mounted_A books_ok_books_A H2 H3) as Hbusy.
  pose proof (onDeviceRemoved_tracked quiet_host plain_config books_A "/dev/da0p1"
                1%positive mounted_A books_ok_books_A H2 H3) as Hquiet.
  change (exec_err _) with (Some "exit status 1") in Hbusy.
  change (exec_err _) with (@None string) in Hquiet.
  cbv iota in Hbusy, Hquiet.
  destruct Hbusy as (_&Hb&_). destruct Hquiet as (Hq&_).
  split; [exact Hb|exact Hq].
Defined.

Lemma hook_without_placeholder_runs_verbatim_witness :
  EventHooks plain_hook !! "device_added" = Some "logger a device was added"
  ∧ heap (set_heap (insert 1%positive two_command_label) empty_state) !! 1%positive
    = Some two_command_label
  ∧ strings.ContainsByte "logger a device was added" "{" = false
  ∧ trace (executeEventHook plain_hook "device_added" 1%positive
             (set_heap (insert 1%positive two_command_label) empty_state)).2
    = [ALog "Executing event hook for device_added: logger a device was added";
       AGo (mkCmd "sh" ["-c"; "logger a device was added"] None)].
Proof.
  assert (H1 : EventHooks plain_hook !! "device_added" = Some "logger a device was added")
    by reflexivity.
  assert (H2 : heap (set_heap (insert 1%positive two_command_label) empty_state)
                 !! 1%positive = Some two_command_label) by reflexivity.
  assert (H3 : strings.ContainsByte "logger a device was added" "{" = false)
    by reflexivity.
  split; [exact H1|]. split; [exact H2|]. split; [exact H3|].
  by rewrite (hook_without_placeholder_runs_verbatim plain_hook _ 1%positive
                two_command_label "device_added" "logger a device was added" H1 H2 H3).
Defined.

(** The keys of a map in the order of [map_to_list]. *)
Definition keys_in_order (m : gmap string bool) : list string := (map_to_list m).*1.

Lemma pollDevices_tick_calls_the_handlers_witness :
  books_ok empty_state
  ∧ books_ok (pollDevices_tick (mount_fails_for ["/dev/da1p1"]) plain_config
                keys_in_order ∅ empty_state).2
  ∧ ∃ ls st1 calls,
      deviceMgr_Scan (mount_fails_for ["/dev/da1p1"]) empty_state = (Ret (ls, None), st1)
      ∧ Forall2 (call_for st1) calls
          (pure_tick (mount_fails_for ["/dev/da1p1"]) keys_in_order ∅ empty_state).2
      ∧ pollDevices_tick (mount_fails_for ["/dev/da1p1"]) plain_config keys_in_order ∅
          empty_state
        = calls_then (mount_fails_for ["/dev/da1p1"]) plain_config calls
            (pure_tick (mount_fails_for ["/dev/da1p1"]) keys_in_order ∅ empty_state).1 st1.
Proof.
  split; [exact books_ok_empty_state|].
  exact (pollDevices_tick_calls_the_handlers (mount_fails_for ["/dev/da1p1"]) plain_config
           keys_in_order ∅ empty_state books_ok_empty_state).
Defined.

(** A host on which every command succeeds and whose scan finds
    [devs]. *)
Definition scan_host (devs : list Device) : Host :=
  mkHost (fun _ _ => mkExecResult "" None) (fun _ => ("", None)) (fun _ => (devs, None)).

Definition knows_da9 : gmap string bool := {[ "/dev/da9p1" := true ]}.

Lemma tick_stops_at_a_panicking_handler_witness :
  books_ok empty_state
  ∧ (host_scan (scan_host [short_uuid; fresh_A]) (trace empty_state)).2 = None
  ∧ first_new knows_da9 (scanned (scan_host [short_uuid; fresh_A]) empty_state)
    = short_uuid :: [fresh_A]
  ∧ Label short_uuid = ""
  ∧ UUID short_uuid ≠ ""
  ∧ (String.length (UUID short_uuid) < 8)%nat
  ∧ ∃ ls st1 msg,
      deviceMgr_Scan (scan_host [short_uuid; fresh_A]) empty_state = (Ret (ls, None), st1)
      ∧ trace st1 = [AScan [short_uuid; fresh_A] None]
      ∧ pollDevices_tick (scan_host [short_uuid; fresh_A]) plain_config keys_in_order
          knows_da9 empty_state
        = (Panic msg, st1)
      ∧ (pure_tick (scan_host [short_uuid; fresh_A]) keys_in_order knows_da9 empty_state).2
        = [Poll.DeviceAdded short_uuid; Poll.DeviceAdded fresh_A;
           Poll.DeviceRemoved "/dev/da9p1"].
Proof.
  assert (H2 : (host_scan (scan_host [short_uuid; fresh_A]) (trace empty_state)).2 = None)
    by reflexivity.
  assert (H3 : first_new knows_da9 (scanned (scan_host [short_uuid; fresh_A]) empty_state)
               = short_uuid :: [fresh_A]) by (vm_compute; reflexivity).
  assert (H4 : Label short_uuid = "") by reflexivity.
  assert (H5 : UUID short_uuid ≠ "") by discriminate.
  assert (H6 : (String.length (UUID short_uuid) < 8)%nat) by (simpl; lia).
  split; [exact books_ok_empty_state|]. split; [exact H2|]. split; [exact H3|].
  split; [exact H4|]. split; [exact H5|]. split; [exact H6|].
  destruct (tick_stops_at_a_panicking_handler (scan_host [short_uuid; fresh_A])
              plain_config keys_in_order knows_da9 empty_state short_uuid [fresh_A]
              books_ok_empty_state H2 H3 H4 H5 H6) as (ls&st1&msg&E&Ht&Hp&He).
  exists ls, st1, msg. split; [exact E|]. split; [exact Ht|]. split; [exact Hp|].
  rewrite He. vm_compute. reflexivity.
Defined.

(** The keys of a map in the opposite order. *)
Definition keys_reversed (m : gmap string bool) : list string := rev (keys_in_order m).

Definition knows_da8_da9 : gmap string bool :=
  {[ "/dev/da8" := true; "/dev/da9" := true ]}.

Lemma pollDevices_calls_in_scan_then_visit_order_witness :
  books_ok empty_state
  ∧ (host_scan (scan_host [da1; da0]) (trace empty_state)).2 = None
  ∧ first_new knows_da8_da9 (scanned (scan_host [da1; da0]) empty_state) = [da1; da0]
  ∧ found_gone (scan_host [da1; da0]) keys_reversed knows_da8_da9 empty_state
    = rev (found_gone (scan_host [da1; da0]) keys_in_order knows_da8_da9 empty_state)
  ∧ ∃ ls st1 added removed',
      deviceMgr_Scan (scan_host [da1; da0]) empty_state = (Ret (ls, None), st1)
      ∧ Forall2 (fun l d => heap st1 !! l = Some d) added [da1; da0]
      ∧ removed'
        ≡ₚ found_gone (scan_host [da1; da0]) keys_in_order knows_da8_da9 empty_state
      ∧ pollDevices_tick (scan_host [da1; da0]) plain_config keys_in_order knows_da8_da9
          empty_state
        = calls_then (scan_host [da1; da0]) plain_config
            ((inl <$> added)
               ++ (inr <$> found_gone (scan_host [da1; da0]) keys_in_order knows_da8_da9
                             empty_state))
            (pure_tick (scan_host [da1; da0]) keys_in_order knows_da8_da9 empty_state).1
            st1
      ∧ pollDevices_tick (scan_host [da1; da0]) plain_config keys_reversed knows_da8_da9
          empty_state
        = calls_then (scan_host [da1; da0]) plain_config
            ((inl <$> added) ++ (inr <$> removed'))
            (pure_tick (scan_host [da1; da0]) keys_in_order knows_da8_da9 empty_state).1
            st1.
Proof.
  assert (H2 : (host_scan (scan_host [da1; da0]) (trace empty_state)).2 = None)
    by reflexivity.
  assert (H3 : first_new knows_da8_da9 (scanned (scan_host [da1; da0]) empty_state)
               = [da1; da0]) by (vm_compute; reflexivity).
  split; [exact books_ok_empty_state|]. split; [exact H2|]. split; [exact H3|].
  split; [vm_compute; reflexivity|].
  destruct (pollDevices_calls_in_scan_then_visit_order (scan_host [da1; da0]) plain_config
              keys_in_order knows_da8_da9 empty_state books_ok_empty_state H2)
    as (ls&st1&added&E&Hf&_&_&_&_&_&Ht&Hother).
  destruct (Hother keys_reversed) as (removed'&Hp&_&Ht').
  { unfold keys_reversed. symmetry. apply Permutation_rev. }
  exists ls, st1, added, removed'. split; [exact E|]. split; [by rewrite <- H3|].
  split; [exact Hp|]. split; [exact Ht|exact Ht'].
Defined.

(** The lines that [onDeviceAdded] logs first. *)
Definition added_logs (tr : list Action) : list string :=
  omap (fun a => match a with
                 | ALog s => if strings.HasPrefix s "Device added: " then Some s else None
                 | _ => None
                 end) tr.

(** With a scan that lists [da1] before [da0], the tick that runs the
    handlers handles [/dev/da1] first. *)
Example pollDevices_adds_in_scan_order :
  added_logs (trace (pollDevices_tick (scan_host [da1; da0]) plain_config keys_in_order
                       ∅ empty_state).2)
  = ["Device added: /dev/da1 (da1)"; "Device added: /dev/da0 (da0)"].
Proof. vm_compute. reflexivity. Qed.

(** A host on which every command succeeds and whose first scan finds
    [da0] and whose later scans find nothing. *)
Definition unplug_host : Host :=
  mkHost (fun _ _ => mkExecResult "" None) (fun _ => ("", None))
         (fun tr => match tr with [] => ([da0], None) | _ => ([], None) end).

Definition after_first_tick : State :=
  (pollDevices_tick unplug_host plain_config keys_in_order ∅ empty_state).2.

Lemma keys_in_order_range m : Poll.range_order m (keys_in_order m).
Proof. unfold Poll.range_order, keys_in_order. reflexivity. Qed.

Lemma tick_added_then_removed_witness :
  books_ok empty_state
  ∧ (∀ m, Poll.range_order m (keys_in_order m))
  ∧ (host_scan unplug_host (trace empty_state)).2 = None
  ∧ pollDevices_tick unplug_host plain_config keys_in_order ∅ empty_state
    = (Ret {[ "/dev/da0" := true ]}, after_first_tick)
  ∧ (host_scan unplug_host (trace after_first_tick)).2 = None
  ∧ "/dev/da0" ∈ Path <$> scanned unplug_host empty_state
  ∧ ("/dev/da0" ∉ Path <$> scanned unplug_host after_first_tick)
  ∧ ∃ ls st2 calls known2,
      deviceMgr_Scan unplug_host after_first_tick = (Ret (ls, None), st2)
      ∧ pollDevices_tick unplug_host plain_config keys_in_order
          {[ "/dev/da0" := true ]} after_first_tick
        = calls_then unplug_host plain_config calls known2 st2
      ∧ inr "/dev/da0" ∈ calls
      ∧ known2 !! "/dev/da0" = None.
Proof.
  assert (H3 : (host_scan unplug_host (trace empty_state)).2 = None) by reflexivity.
  assert (H4 : pollDevices_tick unplug_host plain_config keys_in_order ∅ empty_state
               = (Ret {[ "/dev/da0" := true ]}, after_first_tick))
    by (vm_compute; reflexivity).
  assert (H5 : (host_scan unplug_host (trace after_first_tick)).2 = None)
    by (vm_compute; reflexivity).
  assert (H6 : "/dev/da0" ∈ Path <$> scanned unplug_host empty_state)
    by (vm_compute; by left).
  assert (H7 : "/dev/da0" ∉ Path <$> scanned unplug_host after_first_tick).
  { assert (E : scanned unplug_host after_first_tick = []) by (vm_compute; reflexivity).
    rewrite E. by intros ?%elem_of_nil. }
  split; [exact books_ok_empty_state|]. split; [exact keys_in_order_range|].
  split; [exact H3|]. split; [exact H4|]. split; [exact H5|]. split; [exact H6|].
  split; [exact H7|].
  destruct (tick_added_then_removed unplug_host plain_config keys_in_order ∅ empty_state
              {[ "/dev/da0" := true ]} after_first_tick "/dev/da0"
              books_ok_empty_state keys_in_order_range H3 H4 H5 H6 H7)
    as (_&ls&st2&calls&known2&E&Ht&Hin&_&Hk).
  exists ls, st2, calls, known2. split; [exact E|]. split; [exact Ht|].
  split; [exact Hin|exact Hk].
Defined.

Lemma MountAll_attempts_every_device_witness :
  books_ok empty_state
  ∧ second_fails.1 = Ret None
  ∧ ∃ ls st1, Forall2 (attempted plain_config st1 second_fails.2) ls three_partitions.
Proof.
  split; [exact books_ok_empty_state|].
  pose proof (MountAll_attempts_every_device (mount_fails_for ["/dev/da1p1"]) plain_config
                empty_state books_ok_empty_state) as H.
  change ((host_scan (mount_fails_for ["/dev/da1p1"]) (trace empty_state)).2)
    with (@None string) in H.
  cbv iota in H. destruct H as (ls&st1&_&_&_&_&_&Hall).
  destruct (Hall None second_fails.2) as [_ Hf].
  { unfold second_fails. vm_compute. reflexivity. }
  split; [vm_compute; reflexivity|]. exists ls, st1. exact Hf.
Defined.

Lemma onMountAll_counts_its_mounts_witness :
  books_ok empty_state
  ∧ (host_scan (mount_fails_for ["/dev/da1p1"])
       (trace empty_state ++ [ALog "Tray: Mount All clicked"])).2 = None
  ∧ commands (trace (onMountAll (mount_fails_for ["/dev/da1p1"]) plain_config
                       empty_state).2)
    = [("mount", ["/dev/da0p1"; "/media/A"]);
       ("mount", ["/dev/da1p1"; "/media/B"]);
       ("mount", ["/dev/da2p1"; "/media/C"]);
       ("notify-send", ["Mount All"; "Mounted 2 device(s)"])]
  ∧ ((∃ msg, (onMountAll (mount_fails_for ["/dev/da1p1"]) plain_config empty_state).1
             = Panic msg)
     ∨ ∃ ls st1 st2,
         deviceMgr_Scan (mount_fails_for ["/dev/da1p1"])
           (add_trace (ALog "Tray: Mount All clicked") empty_state)
         = (Ret (ls, None), st1)
         ∧ fold_M ls (onMountAll_body (mount_fails_for ["/dev/da1p1"]) plain_config)
             0%nat st1
           = (Ret (length (mounted_between st1 st2 ls)), st2)).
Proof.
  assert (H2 : (host_scan (mount_fails_for ["/dev/da1p1"])
                  (trace empty_state ++ [ALog "Tray: Mount All clicked"])).2 = None)
    by reflexivity.
  split; [exact books_ok_empty_state|]. split; [exact H2|].
  split; [vm_compute; reflexivity|].
  destruct (onMountAll_counts_its_mounts (mount_fails_for ["/dev/da1p1"]) plain_config
              empty_state _ _ books_ok_empty_state H2 (surjective_pairing _))
    as [[msg Hp]|(ls&st1&st2&E&El&_)].
  - left. by exists msg.
  - right. by exists ls, st1, st2.
Defined.

Lemma disk_of_partition_witness :
  has_mark ("a0" +:+ "p") = false
  ∧ partition_mark "p" "1" = true
  ∧ getParentDiskName "da0p1" = "da0"
  ∧ diskName "da0p1" = "da0"
  ∧ diskName "da0p10" = "da0p10"
  ∧ diskName "da0s1" = "da0s1".
Proof.
  assert (H1 : has_mark ("a0" +:+ String "p" "") = false) by reflexivity.
  assert (H2 : partition_mark "p" "1" = true) by reflexivity.
  split; [exact H1|]. split; [exact H2|].
  destruct (disk_of_partition "d" "a0" "p" "1" "" H1 H2) as (Ha&Hb&Hc&Hd).
  split; [exact Ha|]. split; [exact Hb|]. split; [exact (Hc "0"%char)|exact Hd].
Defined.

Lemma truncateString_is_the_checked_slice_witness :
  (0 ≤ 8)%Z
  ∧ ∃ r, truncateString "1234" 8 = Ret r
         ∧ ∃ msg, GetDisplayName short_uuid = Panic msg.
Proof.
  assert (H1 : (0 ≤ 8)%Z) by lia.
  split; [exact H1|].
  destruct (truncateString_is_the_checked_slice "1234" 8 H1) as (r&E&_&_&_&Hd).
  exists r. split; [exact E|].
  destruct (Hd short_uuid eq_refl eq_refl ltac:(discriminate) eq_refl) as (_&_&Hp).
  apply Hp. simpl. lia.
Defined.

(** The default configuration with [automount: false], as a file can set
    it. *)
Definition automount_off : Settings :=
  mkSettings (set_Automount false (settings Default)) false false (Tray Default).

Example applyFlags_default_flags :
  Automount (settings automount_off) = false
  ∧ Automount (settings (applyFlags no_flags automount_off)) = true.
Proof. split; reflexivity. Qed.

(** A host on which [camcontrol] and [usbconfig] fail. *)
Definition no_eject_host : Host :=
  mkHost
    (fun _ c =>
       if String.eqb (cmd_name c) "camcontrol"
       then mkExecResult "camcontrol: cam_lookup_pass: no passthrough device"
                         (Some "exit status 1")
       else if String.eqb (cmd_name c) "usbconfig"
       then mkExecResult "usbconfig: could not open device" (Some "exit status 2")
       else mkExecResult "" None)
    (fun _ => ("", None)) (fun _ => ([], None)).

Lemma detachDevice_tries_two_tools_witness :
  heap books_A !! 1%positive = Some mounted_A
  ∧ (detachDevice no_eject_host false 1%positive books_A).1
    = Ret (Some "detach failed: exit status 2 (output: usbconfig: could not open device)")
  ∧ ∃ o st' acts,
      detachDevice no_eject_host false 1%positive books_A = (Ret o, st')
      ∧ same_memory books_A st'
      ∧ trace st' = trace books_A ++ acts.
Proof.
  assert (H1 : heap books_A !! 1%positive = Some mounted_A) by reflexivity.
  split; [exact H1|]. split; [reflexivity|].
  destruct (detachDevice_tries_two_tools no_eject_host false books_A 1%positive
              mounted_A H1) as (o&st'&acts&E&Hm&Ht&_).
  exists o, st', acts. split; [exact E|]. split; [exact Hm|exact Ht].
Defined.

(** The three partitions when they are mounted, and a host whose scan
    finds them so. *)
Definition three_mounted : list Device :=
  [set_MountPoint "/media/A" true (named "da0p1" "A" "");
   set_MountPoint "/media/B" true (named "da1p1" "B" "");
   set_MountPoint "/media/C" true (named "da2p1" "C" "")].

Definition unmount_fails_for (bad : list string) : Host :=
  mkHost
    (fun _ c =>
       if String.eqb (cmd_name c) "umount"
          && existsb (fun a => existsb (String.eqb a) bad) (cmd_args c)
       then mkExecResult "umount: Device busy" (Some "exit status 1")
       else mkExecResult "" None)
    (fun _ => ("", None))
    (fun _ => (three_mounted, None)).

Lemma onUnmountAll_counts_its_unmounts_witness :
  books_ok empty_state
  ∧ (host_scan (unmount_fails_for ["/media/B"])
       (trace empty_state ++ [ALog "Tray: Unmount All clicked"])).2 = None
  ∧ commands (trace (onUnmountAll (unmount_fails_for ["/media/B"]) plain_config
                       empty_state).2)
    = [("umount", ["/media/A"]); ("umount", ["/media/B"]); ("umount", ["/media/C"]);
       ("notify-send", ["Unmount All"; "Unmounted 2 device(s)"])]
  ∧ ((∃ msg, (onUnmountAll (unmount_fails_for ["/media/B"]) plain_config empty_state).1
             = Panic msg)
     ∨ ∃ ls st1 st2,
         deviceMgr_Scan (unmount_fails_for ["/media/B"])
           (add_trace (ALog "Tray: Unmount All clicked") empty_state)
         = (Ret (ls, None), st1)
         ∧ fold_M ls (onUnmountAll_body (unmount_fails_for ["/media/B"]) plain_config)
             0%nat st1
           = (Ret (length (unmounted_between st1 st2 ls)), st2)).
Proof.
  assert (H2 : (host_scan (unmount_fails_for ["/media/B"])
                  (trace empty_state ++ [ALog "Tray: Unmount All clicked"])).2 = None)
    by reflexivity.
  split; [exact books_ok_empty_state|]. split; [exact H2|].
  split; [vm_compute; reflexivity|].
  destruct (onUnmountAll_counts_its_unmounts (unmount_fails_for ["/media/B"]) plain_config
              empty_state _ _ books_ok_empty_state H2 (surjective_pairing _))
    as [[msg Hp]|(ls&st1&st2&E&El&_)].
  - left. by exists msg.
  - right. by exists ls, st1, st2.
Defined.

Lemma getPassword_trims_the_passphrase_witness :
  getPassword wrong_passphrase_host plain_config 1%positive books_locked
  = (Ret ("guess", None),
     (getPassword wrong_passphrase_host plain_config 1%positive books_locked).2)
  ∧ gostd.leading_space gostd.space_runes "guess" = None.
Proof.
  assert (H1 : getPassword wrong_passphrase_host plain_config 1%positive books_locked
               = (Ret ("guess", None),
                  (getPassword wrong_passphrase_host plain_config 1%positive
                     books_locked).2)) by (vm_compute; reflexivity).
  split; [exact H1|].
  destruct (getPassword_trims_the_passphrase wrong_passphrase_host plain_config
              1%positive books_locked "guess" _ H1) as [Hl _].
  exact Hl.
Defined.
